(** * geo-checker: a shallow embedding of the scorer, the analyzer and the
    bulk processor, with the properties stated in the specification.

    Go strings are byte sequences; they are modelled as [String.string], whose
    characters ([ascii]) are exactly the 256 byte values.  The helpers of
    package [strings] follow Go's ASCII code paths ([ToLower] maps A-Z only,
    [Fields] splits on the ASCII spaces): on ASCII text they are exact.
    Go's [float64] is Rocq's primitive binary64 [float]. *)

From Stdlib Require Import String Ascii List ZArith Lia Bool.
From Stdlib Require Import Floats Uint63.
Import ListNotations.
Open Scope string_scope.
Open Scope Z_scope.
Set Warnings "-inexact-float".

(* ------------------------------------------------------------------ *)
(** ** Package [strings] on byte strings *)
Module GoStrings.

Definition byte (c : ascii) : Z := Z.of_nat (nat_of_ascii c).

(** [unicode.IsSpace] on the ASCII range, as used by [strings.Fields]. *)
Definition is_ascii_space (c : ascii) : bool :=
  let n := byte c in
  (n =? 9) || (n =? 10) || (n =? 11) || (n =? 12) || (n =? 13) || (n =? 32).

Definition to_lower_byte (c : ascii) : ascii :=
  let n := byte c in
  if (65 <=? n) && (n <=? 90) then ascii_of_nat (Z.to_nat (n + 32)) else c.

(** strings.ToLower *)
Fixpoint ToLower (s : string) : string :=
  match s with
  | EmptyString => EmptyString
  | String c r => String (to_lower_byte c) (ToLower r)
  end.

(** strings.Fields: maximal runs of non-space bytes. *)
Fixpoint fields_aux (s : string) (cur : string) : list string :=
  match s with
  | EmptyString => if String.eqb cur "" then [] else [cur]
  | String c r =>
      if is_ascii_space c then
        (if String.eqb cur "" then fields_aux r "" else cur :: fields_aux r "")
      else fields_aux r (String.append cur (String c ""))
  end.
Definition Fields (s : string) : list string := fields_aux s "".

(** strings.Split for a non-empty separator: cut at each leftmost,
    non-overlapping occurrence of [sep] (strings.Index). *)
Fixpoint split_fuel (fuel : nat) (sep s : string) : list string :=
  match fuel with
  | O => [s]
  | S f =>
      match index 0 sep s with
      | None => [s]
      | Some i =>
          substring 0 i s
            :: split_fuel f sep (substring (i + String.length sep) (String.length s) s)
      end
  end.
Definition Split (s sep : string) : list string :=
  split_fuel (S (String.length s)) sep s.

(** strings.Count for a non-empty substring: non-overlapping occurrences. *)
Fixpoint count_fuel (fuel : nat) (sub s : string) : nat :=
  match fuel with
  | O => 0
  | S f =>
      match index 0 sub s with
      | None => 0
      | Some i => S (count_fuel f sub (substring (i + String.length sub) (String.length s) s))
      end
  end.
Definition Count (s sub : string) : nat := count_fuel (S (String.length s)) sub s.

(** strings.Contains *)
Definition Contains (s sub : string) : bool :=
  match index 0 sub s with Some _ => true | None => false end.

(** strings.HasPrefix / strings.HasSuffix *)
Definition HasPrefix (s p : string) : bool := String.prefix p s.
Definition HasSuffix (s p : string) : bool :=
  (String.length p <=? String.length s)%nat
  && String.eqb (substring (String.length s - String.length p) (String.length p) s) p.

(** strings.ContainsRune on an ASCII set *)
Fixpoint ContainsByte (set : string) (c : ascii) : bool :=
  match set with
  | EmptyString => false
  | String d r => Ascii.eqb c d || ContainsByte r c
  end.

End GoStrings.
Import GoStrings.

(* ------------------------------------------------------------------ *)
(** ** Package [regexp]: the fragment used by extractScoreFromLLMResponse

    A backtracking matcher in continuation-passing style.  Alternatives are
    tried left to right, [?] and [*] are greedy: this is the leftmost-first
    preference that Go's [regexp] documents ("the match that a backtracking
    implementation would have chosen").  The flag [(?i)] folds ASCII case. *)
Module Regexp.

Inductive rx : Type :=
| RLit (s : string)               (** literal, under (?i) *)
| RAlt (r1 r2 : rx)               (** r1|r2 *)
| ROpt (r : rx)                   (** (?:r)? greedy *)
| RStar (cls : ascii -> bool)     (** [cls]* greedy *)
| RPlus (cls : ascii -> bool)     (** [cls]+ greedy *)
| RSeq (r1 r2 : rx)               (** r1 r2 *)
| RCap (r : rx).                  (** (r), the only capture group *)

(** The capture-group state threaded through a match. *)
Definition capture := option string.
Definition cont := string -> capture -> option capture.

Fixpoint lit_ci (l s : string) : option string :=
  match l, s with
  | EmptyString, _ => Some s
  | String a l', String b s' =>
      if Ascii.eqb (to_lower_byte a) (to_lower_byte b) then lit_ci l' s' else None
  | String _ _, EmptyString => None
  end.

Fixpoint star (cls : ascii -> bool) (s : string) (cap : capture) (k : cont)
  : option capture :=
  match s with
  | String c r =>
      if cls c then
        match star cls r cap k with
        | Some x => Some x
        | None => k s cap
        end
      else k s cap
  | EmptyString => k s cap
  end.

Fixpoint mtch (r : rx) (s : string) (cap : capture) (k : cont) : option capture :=
  match r with
  | RLit l => match lit_ci l s with Some s' => k s' cap | None => None end
  | RAlt r1 r2 =>
      match mtch r1 s cap k with
      | Some x => Some x
      | None => mtch r2 s cap k
      end
  | ROpt r1 =>
      match mtch r1 s cap k with
      | Some x => Some x
      | None => k s cap
      end
  | RStar cls => star cls s cap k
  | RPlus cls =>
      match s with
      | String c t => if cls c then star cls t cap k else None
      | EmptyString => None
      end
  | RSeq r1 r2 => mtch r1 s cap (fun s' cap' => mtch r2 s' cap' k)
  | RCap r1 =>
      mtch r1 s cap
        (fun s' _ => k s' (Some (substring 0 (String.length s - String.length s') s)))
  end.

(** Regexp.FindStringSubmatch, reduced to the group: the leftmost start
    position at which the pattern matches, and the group captured there. *)
Fixpoint FindSubmatch (r : rx) (s : string) : option capture :=
  match mtch r s None (fun _ cap => Some cap) with
  | Some c => Some c
  | None =>
      match s with
      | String _ t => FindSubmatch r t
      | EmptyString => None
      end
  end.

(** Perl classes of Go's regexp/syntax: \s is [\t\n\f\r ], \d is [0-9]. *)
Definition is_space_cls (c : ascii) : bool :=
  let n := byte c in (n =? 9) || (n =? 10) || (n =? 12) || (n =? 13) || (n =? 32).
Definition is_digit (c : ascii) : bool :=
  let n := byte c in (48 <=? n) && (n <=? 57).

End Regexp.
Import Regexp.

(* ------------------------------------------------------------------ *)
(** ** Package [strconv]: Atoi on a string of decimal digits *)

Fixpoint digits_value_aux (s : string) (acc : Z) : Z :=
  match s with
  | EmptyString => acc
  | String c r => digits_value_aux r (acc * 10 + (byte c - 48))
  end.

(** strconv.Atoi, for the strings it receives here (one or more ASCII
    digits): the value, or a range error beyond the 64-bit int. *)
Definition Atoi (s : string) : option Z :=
  let v := digits_value_aux s 0 in
  if v <=? 9223372036854775807 then Some v else None.

(* ------------------------------------------------------------------ *)
(** ** analyzer.extractScoreFromLLMResponse *)
Module Extract.

Definition overall_total_final : rx :=
  RAlt (RLit "overall") (RAlt (RLit "total") (RLit "final")).
Definition score_rating : rx := RAlt (RLit "score") (RLit "rating").
Definition per100 : rx := RAlt (RLit "/100") (RLit "%").
Definition spaces : rx := RStar is_space_cls.
Definition number : rx := RCap (RPlus is_digit).

(** [(?i)(?:overall|total|final)\s*(?:score|rating)?:?\s*(\d+)(?:/100|%)?] *)
Definition pattern1 : rx :=
  RSeq overall_total_final
    (RSeq spaces
      (RSeq (ROpt score_rating)
        (RSeq (ROpt (RLit ":"))
          (RSeq spaces (RSeq number (ROpt per100)))))).

(** [(?i)(?:score|rating):?\s*(\d+)(?:/100|%)?] *)
Definition pattern2 : rx :=
  RSeq score_rating
    (RSeq (ROpt (RLit ":")) (RSeq spaces (RSeq number (ROpt per100)))).

(** [(?i)(\d+)(?:/100|%)\s*(?:overall|total|final)?] *)
Definition pattern3 : rx :=
  RSeq number (RSeq per100 (RSeq spaces (ROpt overall_total_final))).

Definition patterns : list rx := [pattern1; pattern2; pattern3].

(** The loop over [patterns]: the first pattern whose leftmost match has a
    group that Atoi parses to a value in [0,100]; otherwise 0. *)
Fixpoint extract_loop (ps : list rx) (content : string) : Z :=
  match ps with
  | [] => 0
  | p :: rest =>
      match FindSubmatch p content with
      | Some (Some g) =>
          match Atoi g with
          | Some score =>
              if (0 <=? score) && (score <=? 100) then score
              else extract_loop rest content
          | None => extract_loop rest content
          end
      | _ => extract_loop rest content
      end
  end.

Definition extractScoreFromLLMResponse (content : string) : Z :=
  extract_loop patterns content.

End Extract.
Import Extract.

(* ------------------------------------------------------------------ *)
(** ** scorer.countSyllables *)
Module Syllables.

Fixpoint count_vowel_groups (w : string) (prevWasVowel : bool) (syllables : Z) : Z :=
  match w with
  | EmptyString => syllables
  | String c r =>
      let isVowel := ContainsByte "aeiouy" c in
      let syllables' := if isVowel && negb prevWasVowel then syllables + 1 else syllables in
      count_vowel_groups r isVowel syllables'
  end.

Definition countSyllables (word0 : string) : Z :=
  let word := ToLower word0 in
  let syllables := count_vowel_groups word false 0 in
  let syllables := if HasSuffix word "e" && (syllables >? 1) then syllables - 1 else syllables in
  if syllables =? 0 then 1 else syllables.

End Syllables.
Import Syllables.

(* ------------------------------------------------------------------ *)
(** ** float64 conversions *)
Module F64.
#[local] Open Scope float_scope.

(** float64(n) for a Go int n >= 0. *)
Definition of_int (n : Z) : float := of_uint63 (Uint63.of_Z n).
Definition of_nat (n : nat) : float := of_int (Z.of_nat n).

(** The integer value of a finite float, truncated toward zero. *)
Definition sf_trunc (x : spec_float) : Z :=
  match x with
  | S754_finite s m e =>
      let v := if (0 <=? e)%Z then (Zpos m * 2 ^ e)%Z else (Zpos m / 2 ^ (- e))%Z in
      if s then (- v)%Z else v
  | S754_zero _ => 0%Z
  | _ => (- 2 ^ 63)%Z
  end.

(** Go's int(x) conversion of a float64 (NaN and infinities give the
    amd64 result, the minimal int64). *)
Definition to_int (x : float) : Z := sf_trunc (Prim2SF x).

(** The value of a finite float rounded to the nearest integer, halves away
    from zero. *)
Definition sf_round (x : spec_float) : Z :=
  match x with
  | S754_finite s m e =>
      let v := if (0 <=? e)%Z then (Zpos m * 2 ^ e)%Z
               else ((Zpos m + 2 ^ (- e - 1)) / 2 ^ (- e))%Z in
      if s then (- v)%Z else v
  | S754_zero _ => 0%Z
  | _ => (- 2 ^ 63)%Z
  end.

(** int(math.Round(x)): math.Round returns the nearest integer, rounding
    half away from zero; the int conversion of that integral float is exact. *)
Definition round_to_int (x : float) : Z := sf_round (Prim2SF x).

End F64.

(* ------------------------------------------------------------------ *)
(** ** Package [webpage]: the page record handed to the scorer *)
Record Heading := { Level : Z; Text : string }.

Record PageData := {
  Title : string;
  Content : string;
  MetaTags : list (string * string);
  Headings : list Heading
}.

(** Lookup in the [MetaTags] map. *)
Fixpoint meta_lookup (k : string) (m : list (string * string)) : option string :=
  match m with
  | [] => None
  | (k', v) :: r => if String.eqb k k' then Some v else meta_lookup k r
  end.

(** len(MetaTags): the number of distinct keys. *)
Definition meta_len (m : list (string * string)) : nat :=
  List.length (nodup string_dec (map fst m)).

(* ------------------------------------------------------------------ *)
(** ** Package [regexp]: [[.!?]+].Split(content, -1) *)
Module SentenceSplit.

Definition is_punct (c : ascii) : bool := ContainsByte ".!?" c.

(** FindAllStringIndex for [[.!?]+]: the maximal runs, as (start, end). *)
Fixpoint runs_aux (s : string) (pos : nat) (start : option nat) : list (nat * nat) :=
  match s with
  | EmptyString => match start with Some b => [(b, pos)] | None => [] end
  | String c r =>
      if is_punct c then
        match start with
        | Some b => runs_aux r (S pos) (Some b)
        | None => runs_aux r (S pos) (Some pos)
        end
      else
        match start with
        | Some b => (b, pos) :: runs_aux r (S pos) None
        | None => runs_aux r (S pos) None
        end
  end.
Definition FindAllIndex (s : string) : list (nat * nat) := runs_aux s 0 None.

Definition slice (s : string) (b e : nat) : string := substring b (e - b) s.

(** Regexp.Split(s, -1) *)
Fixpoint split_loop (s : string) (ms : list (nat * nat)) (beg end_ : nat) (acc : list string)
  : list string * nat * nat :=
  match ms with
  | [] => (acc, beg, end_)
  | (m0, m1) :: rest =>
      let acc := if Nat.eqb m1 0 then acc else app acc [slice s beg m0] in
      split_loop s rest m1 m0 acc
  end.

Definition Split (s : string) : list string :=
  if Nat.eqb (String.length s) 0 then [""]
  else
    let '(strs, beg, end_) := split_loop s (FindAllIndex s) 0 0 [] in
    if negb (Nat.eqb end_ (String.length s)) then app strs [slice s beg (String.length s)]
    else strs.

End SentenceSplit.

(* ------------------------------------------------------------------ *)
(** ** Package [scorer]: the local GEO scorer *)
Module Scorer.
#[local] Open Scope float_scope.

Record ScoreDetail := {
  Score : Z;
  MaxScore : Z;
  Percentage : float;
  Issues : list string;
  Positives : list string
}.

Record ScoreBreakdown := {
  ContentStructure : ScoreDetail;
  SemanticClarity : ScoreDetail;
  ContextRichness : ScoreDetail;
  AuthoritySignals : ScoreDetail;
  Accessibility : ScoreDetail
}.

Record GEOWeights := {
  wContentStructure : float;
  wSemanticClarity : float;
  wContextRichness : float;
  wAuthoritySignals : float;
  wAccessibility : float
}.

Record GEOScore := {
  Overall : Z;
  Breakdown : ScoreBreakdown;
  Suggestions : list string;
  Strengths : list string;
  Weaknesses : list string;
  ScoreMetadata : list (string * Z)
}.

(** NewLocalScorer().weights *)
Definition weights : GEOWeights := {|
  wContentStructure := 0.25;
  wSemanticClarity := 0.25;
  wContextRichness := 0.20;
  wAuthoritySignals := 0.15;
  wAccessibility := 0.15
|}.

(** The separator "\n\n". *)
Definition blank_line : string := String "010" (String "010" "").

Definition min (a b : Z) : Z := if (a <? b)%Z then a else b.

(** Σ strings.Count(lower, pattern) over a pattern list. *)
Definition count_all (lower : string) (pats : list string) : Z :=
  fold_left (fun acc p => (acc + Z.of_nat (Count lower p))%Z) pats 0%Z.

(** evaluateHeadingHierarchy *)
Fixpoint hierarchy_good (prev : Heading) (rest : list Heading) : bool :=
  match rest with
  | [] => true
  | h :: r => if (Level prev + 1 <? Level h)%Z then false else hierarchy_good h r
  end.

Definition evaluateHeadingHierarchy (headings : list Heading) : Z :=
  match headings with
  | [] => 0
  | h0 :: tl =>
      let score := 10%Z in
      let hasH1 := existsb (fun h => (Level h =? 1)%Z) headings in
      let score := if hasH1 then (score + 10)%Z else score in
      let score :=
        if (1 <? List.length headings)%nat then
          (if hierarchy_good h0 tl then (score + 10)%Z else score)
        else score in
      min score 30
  end.

(** evaluateContentOrganization *)
Definition evaluateContentOrganization (content : string) : Z :=
  let sections := Split content blank_line in
  if (List.length sections <? 2)%nat then 5%Z
  else
    let score := 10%Z in
    let score := if (3 <=? List.length sections)%nat then (score + 10)%Z else score in
    let score := if (5 <=? List.length sections)%nat then (score + 5)%Z else score in
    min score 25.

(** evaluateParagraphStructure *)
Definition evaluateParagraphStructure (content : string) : Z :=
  let paragraphs := Split content blank_line in
  let goodParagraphs :=
    List.length (filter (fun para =>
      let words := List.length (Fields para) in
      (20 <=? words)%nat && (words <=? 150)%nat) paragraphs) in
  if (0 <? List.length paragraphs)%nat then
    let ratio := F64.of_nat goodParagraphs / F64.of_nat (List.length paragraphs) in
    F64.to_int (ratio * 25)
  else 0%Z.

(** evaluateListUsage: the indicators are the UTF-8 byte strings of
    "•", "-", "*", "1.", "2.", "3.", "①", "②", "③". *)
Definition list_indicators : list string :=
  [ String "226" (String "128" (String "162" ""));
    "-"; "*"; "1."; "2."; "3.";
    String "226" (String "145" (String "160" ""));
    String "226" (String "145" (String "161" ""));
    String "226" (String "145" (String "162" "")) ].

Definition evaluateListUsage (content : string) : Z :=
  let listCount := count_all content list_indicators in
  if (listCount =? 0)%Z then 5%Z
  else if (listCount <=? 3)%Z then 10%Z
  else if (listCount <=? 8)%Z then 20%Z
  else 20%Z.

(** calculateAvgWordsPerSentence *)
Definition calculateAvgWordsPerSentence (content : string) : float :=
  let sentences := SentenceSplit.Split content in
  let words := Fields content in
  if Nat.eqb (List.length sentences) 0 then 0
  else F64.of_nat (List.length words) / F64.of_nat (List.length sentences).

(** calculateAvgSyllablesPerWord *)
Definition calculateAvgSyllablesPerWord (words : list string) : float :=
  let totalSyllables := fold_left (fun acc w => (acc + countSyllables w)%Z) words 0%Z in
  if Nat.eqb (List.length words) 0 then 0
  else F64.of_int totalSyllables / F64.of_nat (List.length words).

(** evaluateReadability *)
Definition evaluateReadability (content : string) : Z :=
  let words := Fields content in
  if Nat.eqb (List.length words) 0 then 0%Z
  else
    let avgWordsPerSentence := calculateAvgWordsPerSentence content in
    let avgSyllablesPerWord := calculateAvgSyllablesPerWord words in
    let score := 20%Z in
    let score := if (10 <=? avgWordsPerSentence) && (avgWordsPerSentence <=? 25)
                 then (score + 10)%Z else score in
    let score := if (1.0 <=? avgSyllablesPerWord) && (avgSyllablesPerWord <=? 2.5)
                 then (score + 10)%Z else score in
    min score 40.

(** The [wordCount] map of evaluateTerminologyConsistency. *)
Fixpoint wc_incr (w : string) (m : list (string * Z)) : list (string * Z) :=
  match m with
  | [] => [(w, 1%Z)]
  | (k, c) :: r => if String.eqb k w then (k, (c + 1)%Z) :: r else (k, c) :: wc_incr w r
  end.

Definition word_counts (words : list string) : list (string * Z) :=
  fold_left (fun m w => if (4 <? String.length w)%nat then wc_incr w m else m) words [].

(** evaluateTerminologyConsistency *)
Definition evaluateTerminologyConsistency (content : string) : Z :=
  let words := Fields (ToLower content) in
  let wordCount := word_counts words in
  let '(consistentTerms, totalKeyTerms) :=
    fold_left (fun '(consistent, tot) '(_, count) =>
      if (3 <=? count)%Z then
        ((if (3 <=? count)%Z then (consistent + 1)%Z else consistent), (tot + 1)%Z)
      else (consistent, tot)) wordCount (0%Z, 0%Z) in
  if (totalKeyTerms =? 0)%Z then 15%Z
  else
    let ratio := F64.of_int consistentTerms / F64.of_int totalKeyTerms in
    F64.to_int (ratio * 30).

(** evaluateDefinitionClarity *)
Definition evaluateDefinitionClarity (content : string) : Z :=
  let definitionCount := count_all (ToLower content)
    [" is "; " are "; " means "; " refers to "; " defined as ";
     "definition"; "meaning"; "explanation"; "concept"] in
  if (definitionCount =? 0)%Z then 10%Z
  else if (definitionCount <=? 5)%Z then 20%Z
  else if (definitionCount <=? 10)%Z then 30%Z
  else 30%Z.

(** evaluateContentDepth *)
Definition evaluateContentDepth (content : string) : Z :=
  let wordCount := Z.of_nat (List.length (Fields content)) in
  if (wordCount <? 100)%Z then 5%Z
  else if (wordCount <? 300)%Z then 15%Z
  else if (wordCount <? 800)%Z then 30%Z
  else if (wordCount <? 1500)%Z then 40%Z
  else 35%Z.

(** evaluateExamplesAndSpecifics *)
Definition evaluateExamplesAndSpecifics (content : string) : Z :=
  let exampleCount := count_all (ToLower content)
    ["example"; "for instance"; "such as"; "including"; "like";
     "specifically"; "particular"; "namely"; "e.g."; "i.e."] in
  if (exampleCount =? 0)%Z then 5%Z
  else if (exampleCount <=? 3)%Z then 15%Z
  else if (exampleCount <=? 8)%Z then 25%Z
  else if (exampleCount <=? 15)%Z then 35%Z
  else 30%Z.

(** evaluateBackgroundInfo *)
Definition evaluateBackgroundInfo (content : string) : Z :=
  let backgroundCount := count_all (ToLower content)
    ["background"; "context"; "history"; "overview"; "introduction";
     "originally"; "previously"; "traditionally"; "historically"] in
  if (backgroundCount =? 0)%Z then 5%Z
  else if (backgroundCount <=? 3)%Z then 15%Z
  else if (backgroundCount <=? 6)%Z then 25%Z
  else 25%Z.

(** evaluateCitations *)
Definition evaluateCitations (content : string) : Z :=
  let citationCount := count_all (ToLower content)
    ["according to"; "research shows"; "study found"; "source:";
     "reference"; "cited"; "published"; "journal"; "doi:";
     "http://"; "https://"; "www."; ".com"; ".org"; ".edu"] in
  if (citationCount =? 0)%Z then 5%Z
  else if (citationCount <=? 3)%Z then 15%Z
  else if (citationCount <=? 8)%Z then 25%Z
  else if (citationCount <=? 15)%Z then 40%Z
  else 35%Z.

(** evaluateExpertiseIndicators *)
Definition evaluateExpertiseIndicators (content : string) : Z :=
  let expertiseCount := count_all (ToLower content)
    ["expert"; "professional"; "certified"; "experienced"; "qualified";
     "research"; "analysis"; "methodology"; "findings"; "conclusion";
     "peer-reviewed"; "academic"; "scholarly"; "evidence-based"] in
  if (expertiseCount =? 0)%Z then 10%Z
  else if (expertiseCount <=? 3)%Z then 20%Z
  else if (expertiseCount <=? 8)%Z then 35%Z
  else 35%Z.

(** evaluateFactualAccuracy *)
Definition evaluateFactualAccuracy (content : string) : Z :=
  let contentLower := ToLower content in
  let uncertaintyCount := count_all contentLower
    ["might"; "could"; "possibly"; "perhaps"; "maybe"; "seems";
     "appears"; "likely"; "probably"; "allegedly"; "reportedly"] in
  let factualCount := count_all contentLower
    ["fact"; "proven"; "demonstrated"; "confirmed"; "verified";
     "established"; "documented"; "evidence"; "data"; "statistics"] in
  let score := 15%Z in
  let score := if (uncertaintyCount <? factualCount)%Z then (score + 10)%Z else score in
  let score := if (3 <=? factualCount)%Z then (score + 5)%Z else score in
  min score 25.

(** evaluateMetaInformation *)
Definition evaluateMetaInformation (pageData : PageData) : Z :=
  let score := 0%Z in
  let score := if negb (String.eqb (Title pageData) "") then (score + 10)%Z else score in
  let score := match meta_lookup "description" (MetaTags pageData) with
               | Some desc => if (50 <? String.length desc)%nat then (score + 10)%Z else score
               | None => score end in
  let score := match meta_lookup "keywords" (MetaTags pageData) with
               | Some kw => if (10 <? String.length kw)%nat then (score + 5)%Z else score
               | None => score end in
  let score := if (3 <=? meta_len (MetaTags pageData))%nat then (score + 5)%Z else score in
  min score 30.

(** evaluateParsingFriendliness *)
Definition evaluateParsingFriendliness (content : string) : Z :=
  let score := 15%Z in
  let sentences := Split content "." in
  let score := if (3 <? List.length sentences)%nat then (score + 10)%Z else score in
  let score := if Contains content blank_line then (score + 10)%Z else score in
  min score 35.

(** evaluateInformationDensity *)
Definition evaluateInformationDensity (content : string) : Z :=
  let words := Fields content in
  let sentences := Split content "." in
  if Nat.eqb (List.length sentences) 0 then 0%Z
  else
    let avg := F64.of_nat (List.length words) / F64.of_nat (List.length sentences) in
    if (10 <=? avg) && (avg <=? 25) then 35%Z
    else if (8 <=? avg) && (avg <=? 30) then 25%Z
    else if (5 <=? avg) && (avg <=? 35) then 15%Z
    else 10%Z.

(** The detail under construction: running score, issues, positives. *)
Record acc := { a_score : Z; a_issues : list string; a_positives : list string }.

Definition acc0 : acc := {| a_score := 0; a_issues := []; a_positives := [] |}.

(** score += sub; if sub >= threshold { Positives += pos } else { Issues += issue } *)
Definition check (a : acc) (sub threshold : Z) (pos issue : string) : acc :=
  {| a_score := (a_score a + sub)%Z;
     a_issues := if (threshold <=? sub)%Z then a_issues a else app (a_issues a) [issue];
     a_positives := if (threshold <=? sub)%Z then app (a_positives a) [pos] else a_positives a |}.

(** detail.Score = score; detail.Percentage = float64(score) / float64(MaxScore) * 100 *)
Definition finish (a : acc) : ScoreDetail :=
  {| Score := a_score a;
     MaxScore := 100;
     Percentage := F64.of_int (a_score a) / F64.of_int 100 * 100;
     Issues := a_issues a;
     Positives := a_positives a |}.

Definition analyzeContentStructure (content : string) (pageData : PageData) : ScoreDetail :=
  let a := acc0 in
  let a := check a (evaluateHeadingHierarchy (Headings pageData)) 25
             "Good heading hierarchy structure"
             "Improve heading hierarchy (H1 → H2 → H3)" in
  let a := check a (evaluateContentOrganization content) 20
             "Well-organized content structure"
             "Content could be better organized with clear sections" in
  let a := check a (evaluateParagraphStructure content) 20
             "Good paragraph structure"
             "Use shorter, more focused paragraphs" in
  let a := check a (evaluateListUsage content) 15
             "Effective use of lists for organization"
             "Consider using lists to organize key points" in
  finish a.

Definition analyzeSemanticClarity (content : string) : ScoreDetail :=
  let a := acc0 in
  let a := check a (evaluateReadability content) 30
             "Content is clear and readable"
             "Simplify sentence structure for better readability" in
  let a := check a (evaluateTerminologyConsistency content) 25
             "Consistent terminology usage"
             "Use consistent terminology throughout" in
  let a := check a (evaluateDefinitionClarity content) 25
             "Clear definitions and explanations"
             "Define technical terms and concepts clearly" in
  finish a.

Definition analyzeContextRichness (content : string) (pageData : PageData) : ScoreDetail :=
  let a := acc0 in
  let a := check a (evaluateContentDepth content) 30
             "Rich, detailed content"
             "Add more detailed explanations and examples" in
  let a := check a (evaluateExamplesAndSpecifics content) 25
             "Good use of examples and specific details"
             "Include more concrete examples and specific details" in
  let a := check a (evaluateBackgroundInfo content) 20
             "Adequate background information provided"
             "Provide more context and background information" in
  finish a.

Definition analyzeAuthoritySignals (content : string) (pageData : PageData) : ScoreDetail :=
  let a := acc0 in
  let a := check a (evaluateCitations content) 30
             "Good use of citations and references"
             "Add more citations and credible references" in
  let a := check a (evaluateExpertiseIndicators content) 25
             "Clear expertise and authority indicators"
             "Include more expertise and credibility signals" in
  let a := check a (evaluateFactualAccuracy content) 20
             "Content appears factual and well-researched"
             "Ensure factual accuracy and provide sources" in
  finish a.

Definition analyzeAccessibility (content : string) (pageData : PageData) : ScoreDetail :=
  let a := acc0 in
  let a := check a (evaluateMetaInformation pageData) 25
             "Good meta information for AI understanding"
             "Add comprehensive meta descriptions and keywords" in
  let a := check a (evaluateParsingFriendliness content) 25
             "Content is easy to parse and understand"
             "Structure content for better machine readability" in
  let a := check a (evaluateInformationDensity content) 25
             "Good information density"
             "Balance information density - avoid being too sparse or dense" in
  finish a.

(** calculateOverallScore: the weighted sum accumulated left to right in
    float64, then int(math.Round(weightedScore)). *)
Definition weightedScore (w : GEOWeights) (b : ScoreBreakdown) : float :=
  let ws := 0.0 in
  let ws := ws + F64.of_int (Score (ContentStructure b)) * wContentStructure w in
  let ws := ws + F64.of_int (Score (SemanticClarity b)) * wSemanticClarity w in
  let ws := ws + F64.of_int (Score (ContextRichness b)) * wContextRichness w in
  let ws := ws + F64.of_int (Score (AuthoritySignals b)) * wAuthoritySignals w in
  let ws := ws + F64.of_int (Score (Accessibility b)) * wAccessibility w in
  ws.

Definition calculateOverallScore (w : GEOWeights) (b : ScoreBreakdown) : Z :=
  F64.round_to_int (weightedScore w b).

(** generateInsights, returning (Suggestions, Strengths, Weaknesses). *)
Definition generateInsights (overall : Z) (b : ScoreBreakdown)
  : list string * list string * list string :=
  let allDetails := [ContentStructure b; SemanticClarity b; ContextRichness b;
                     AuthoritySignals b; Accessibility b] in
  let '(sugg, str, weak) :=
    fold_left (fun '(sugg, str, weak) detail =>
      (app sugg (Issues detail), app str (Positives detail),
       if Percentage detail <? 50 then app weak (Issues detail) else weak))
      allDetails ([], [], []) in
  let sugg :=
    if (overall <? 60)%Z then
      app sugg ["Consider comprehensive content restructuring for better GEO optimization"]
    else if (overall <? 80)%Z then
      app sugg ["Focus on improving the lowest-scoring areas identified above"]
    else sugg in
  (sugg, str, weak).

(** LocalScorer.AnalyzeContent *)
Definition AnalyzeContent (content : string) (pageData : PageData) : GEOScore :=
  let b := {| ContentStructure := analyzeContentStructure content pageData;
              SemanticClarity := analyzeSemanticClarity content;
              ContextRichness := analyzeContextRichness content pageData;
              AuthoritySignals := analyzeAuthoritySignals content pageData;
              Accessibility := analyzeAccessibility content pageData |} in
  let overall := calculateOverallScore weights b in
  let '(sugg, str, weak) := generateInsights overall b in
  {| Overall := overall;
     Breakdown := b;
     Suggestions := sugg;
     Strengths := str;
     Weaknesses := weak;
     ScoreMetadata :=
       [("content_length", Z.of_nat (String.length content));
        ("word_count", Z.of_nat (List.length (Fields content)));
        ("heading_count", Z.of_nat (List.length (Headings pageData)));
        ("meta_tags_count", Z.of_nat (meta_len (MetaTags pageData)))] |}.

End Scorer.

(* ------------------------------------------------------------------ *)
(** ** Package [llm]: the provider capability *)
Module LLM.

Record Response := { RContent : string; RTokensUsed : Z; RModel : string }.

(** The prompts the analyzer sends: getGeoPrompt(), and createHybridPrompt
    of the local score (its text is a function of the local score only). *)
Inductive Prompt := GeoPrompt | HybridPrompt (local : Scorer.GEOScore).

(** llm.Provider: Analyze returns a response or the error's message. *)
Record Provider := {
  Name : string;
  Analyze : string -> Prompt -> Response + string
}.

Record ProviderConfig := { APIKey : string; PModel : string }.

End LLM.
Import LLM.

(* ------------------------------------------------------------------ *)
(** ** Package [analyzer] *)
Module Analyzer.

(** os.Getenv *)
Definition Env := string -> string.

Record Config := { Mode : string; LLMProvider : string; CModel : string }.

(** getAPIKey *)
Definition getAPIKey (env : Env) (provider : string) : string :=
  if String.eqb provider "claude" then env "CLAUDE_API_KEY"
  else if String.eqb provider "gpt" || String.eqb provider "openai" then env "OPENAI_API_KEY"
  else "".

(** hasValidAPIKey *)
Definition hasValidAPIKey (env : Env) (provider : string) : bool :=
  let apiKey := getAPIKey env provider in
  if String.eqb apiKey "" then false
  else if String.eqb provider "claude" then HasPrefix apiKey "sk-ant-"
  else if String.eqb provider "gpt" || String.eqb provider "openai" then HasPrefix apiKey "sk-"
  else if String.eqb provider "local" then true
  else false.

(** determineOptimalMode *)
Definition determineOptimalMode (env : Env) (provider : string) : string :=
  if hasValidAPIKey env provider then "hybrid"
  else if existsb (hasValidAPIKey env) ["openai"; "claude"] then "hybrid"
  else "local".

(** The analyzer after New: the (rewritten) configuration, the provider,
    the stored initialisation error and the mode requested originally. *)
Record Analyzer := {
  cfgMode : string;
  cfgProvider : string;
  provider : option Provider;
  initError : option string;
  originalMode : string
}.

(** The collaborator llm.NewProvider. *)
Definition NewProviderFn := string -> ProviderConfig -> Provider + string.

(** analyzer.New *)
Definition New (env : Env) (newProvider : NewProviderFn) (cfg : Config) : Analyzer :=
  let originalMode := Mode cfg in
  let '(mode, prov) :=
    if String.eqb (Mode cfg) "auto" || String.eqb (Mode cfg) "" then
      let mode := determineOptimalMode env (LLMProvider cfg) in
      let prov :=
        if String.eqb mode "hybrid" && negb (hasValidAPIKey env (LLMProvider cfg)) then
          (if hasValidAPIKey env "openai" then "openai"
           else if hasValidAPIKey env "claude" then "claude"
           else LLMProvider cfg)
        else LLMProvider cfg in
      (mode, prov)
    else (Mode cfg, LLMProvider cfg) in
  if negb (String.eqb mode "local") then
    let providerConfig := {| APIKey := getAPIKey env prov; PModel := CModel cfg |} in
    match newProvider prov providerConfig with
    | inr err =>
        if String.eqb mode "llm" then
          {| cfgMode := mode; cfgProvider := prov; provider := None;
             initError := Some (String.append "failed to initialize LLM provider: " err);
             originalMode := originalMode |}
        else
          {| cfgMode := "local"; cfgProvider := prov; provider := None;
             initError := None; originalMode := originalMode |}
    | inl p =>
        {| cfgMode := mode; cfgProvider := prov; provider := Some p;
           initError := None; originalMode := originalMode |}
    end
  else
    {| cfgMode := mode; cfgProvider := prov; provider := None;
       initError := None; originalMode := originalMode |}.

(** Values of the map[string]any metadata. *)
Inductive MetaVal :=
| MInt (z : Z)
| MStr (s : string)
| MTags (m : list (string * string))
| MHeadings (h : list Heading).

(** m[k] = v on a Go map *)
Fixpoint meta_put (k : string) (v : MetaVal) (m : list (string * MetaVal))
  : list (string * MetaVal) :=
  match m with
  | [] => [(k, v)]
  | (k', v') :: r => if String.eqb k k' then (k, v) :: r else (k', v') :: meta_put k v r
  end.

Fixpoint meta_get (k : string) (m : list (string * MetaVal)) : option MetaVal :=
  match m with
  | [] => None
  | (k', v) :: r => if String.eqb k k' then Some v else meta_get k r
  end.

(** The pieces the [Analysis] narrative is concatenated from:
    formatLocalAnalysis(localScore), an LLM reply text (appended after a
    blank line in hybrid mode) and formatLLMRecommendation(). *)
Inductive Piece := LocalAnalysis (s : Scorer.GEOScore) | LLMText (t : string) | LLMRecommendation.

Record Result := {
  URL : string;
  RTitle : string;
  Analysis : list Piece;
  LocalScore : Scorer.GEOScore;
  FinalScore : Z;
  RSuggestions : list string;
  Metadata : list (string * MetaVal);
  TokensUsed : Z;
  RMode : string
}.

(** Calls to Provider.Analyze are recorded: a writer monad over the log of
    (content, prompt) arguments. *)
Definition Call := (string * Prompt)%type.
Definition M (A : Type) : Type := (list Call * A)%type.
Definition ret {A : Type} (a : A) : M A := ([], a).
Definition bind {A B : Type} (m : M A) (f : A -> M B) : M B :=
  let '(t1, a) := m in let '(t2, b) := f a in (app t1 t2, b).
Notation "x <- c ;; k" := (bind c (fun x => k)) (at level 61, c at next level, right associativity).

Definition call_analyze (p : Provider) (content : string) (prompt : Prompt) : M (Response + string) :=
  ([(content, prompt)], Analyze p content prompt).

Definition mkResult (source : string) (pd : PageData) (mode : string) (analysis : list Piece)
  (local : Scorer.GEOScore) (score : Z) (meta : list (string * MetaVal)) (tokens : Z) : Result :=
  {| URL := source; RTitle := Title pd; Analysis := analysis; LocalScore := local;
     FinalScore := score; RSuggestions := Scorer.Suggestions local; Metadata := meta;
     TokensUsed := tokens; RMode := mode |}.

(** The score averaging and its metadata, shared by the llm and hybrid
    branches (method: "llm_averaged" or "hybrid_averaged"). *)
Definition averaged (local : Scorer.GEOScore) (llmScore : Z) (method : string)
  (meta : list (string * MetaVal)) : Z * list (string * MetaVal) :=
  (Z.quot (Scorer.Overall local + llmScore) 2,
   meta_put "scoring_method" (MStr method)
     (meta_put "llm_score" (MInt llmScore)
        (meta_put "local_score" (MInt (Scorer.Overall local)) meta))).

(** Analyzer.analyzePageData *)
Definition analyzePageData (env : Env) (a : Analyzer) (pageData : PageData) (source : string)
  : M (Result + string) :=
  let mode := cfgMode a in
  let meta0 := [("content_size", MInt (Z.of_nat (String.length (Content pageData))));
                ("meta_tags", MTags (MetaTags pageData));
                ("headings", MHeadings (Headings pageData))] in
  let localScore := Scorer.AnalyzeContent (Content pageData) pageData in
  let mk := mkResult source pageData mode in
  if String.eqb mode "local" then
    let meta := meta_put "scoring_method" (MStr "local_only") meta0 in
    let analysis :=
      app [LocalAnalysis localScore]
        (if (String.eqb (originalMode a) "auto" || String.eqb (originalMode a) "")
            && negb (hasValidAPIKey env (cfgProvider a))
         then [LLMRecommendation] else []) in
    ret (inl (mk analysis localScore (Scorer.Overall localScore) meta 0))
  else if String.eqb mode "llm" then
    match initError a with
    | Some e => ret (inr e)
    | None =>
      match provider a with
      | None => ret (inr "LLM provider not available")
      | Some p =>
          r <- call_analyze p (Content pageData) GeoPrompt ;;
          match r with
          | inr e => ret (inr (String.append "LLM analysis failed: " e))
          | inl response =>
              let llmScore := extractScoreFromLLMResponse (RContent response) in
              let '(score, meta) :=
                if 0 <? llmScore then averaged localScore llmScore "llm_averaged" meta0
                else (Scorer.Overall localScore,
                      meta_put "scoring_method" (MStr "llm_no_score_fallback") meta0) in
              let meta := meta_put "provider" (MStr (Name p))
                            (meta_put "model" (MStr (RModel response)) meta) in
              ret (inl (mk [LLMText (RContent response)] localScore score meta
                           (RTokensUsed response)))
          end
      end
    end
  else if String.eqb mode "hybrid" then
    match provider a with
    | Some p =>
        r <- call_analyze p (Content pageData) (HybridPrompt localScore) ;;
        match r with
        | inl response =>
            let llmScore := extractScoreFromLLMResponse (RContent response) in
            let '(score, meta) :=
              if 0 <? llmScore then averaged localScore llmScore "hybrid_averaged" meta0
              else (Scorer.Overall localScore, meta0) in
            let meta := meta_put "provider" (MStr (Name p))
                          (meta_put "model" (MStr (RModel response)) meta) in
            ret (inl (mk [LocalAnalysis localScore; LLMText (RContent response)]
                         localScore score meta (RTokensUsed response)))
        | inr e =>
            let meta := meta_put "scoring_method" (MStr "local_only_fallback")
                          (meta_put "llm_error" (MStr e) meta0) in
            ret (inl (mk [LocalAnalysis localScore] localScore (Scorer.Overall localScore) meta 0))
        end
    | None =>
        let meta := meta_put "scoring_method" (MStr "local_only") meta0 in
        ret (inl (mk [LocalAnalysis localScore] localScore (Scorer.Overall localScore) meta 0))
    end
  else
    (* no case of the switch matches *)
    ret (inl (mk [] localScore (Scorer.Overall localScore) meta0 0)).

(** The collaborator webpage.Scraper.ScrapeURL. *)
Definition ScrapeFn := string -> PageData + string.

(** strings.TrimSpace(s) == "" *)
Fixpoint all_space (s : string) : bool :=
  match s with
  | EmptyString => true
  | String c r => is_ascii_space c && all_space r
  end.

(** Analyzer.AnalyzeURL *)
Definition AnalyzeURL (env : Env) (scrape : ScrapeFn) (a : Analyzer) (url : string)
  : M (Result + string) :=
  match scrape url with
  | inr err => ret (inr (String.append "failed to scrape URL: " err))
  | inl pageData =>
      if all_space (Content pageData) then
        ret (inr "no content could be extracted from the webpage - the page may be empty, require JavaScript, or have unusual structure")
      else analyzePageData env a pageData url
  end.

End Analyzer.

(* ------------------------------------------------------------------ *)
(** ** Package [bulk]: Processor.ProcessURLs

    One goroutine per URL; the buffered channel [semaphore] of capacity
    [config.Concurrent] bounds the goroutines between acquire and release;
    [wg.Wait()] returns once every goroutine is done.  Each goroutine's
    AnalyzeURL call may observe any behaviour of the network collaborators
    (the scraper and the provider), so its outcome is any value AnalyzeURL
    computes for that URL under some scraper and provider. *)
Module Bulk.
Import Analyzer.

Record BulkResult := { BURL : string; BResult : option Result; BError : string }.

(** result := &BulkResult{URL: u}; then Error or Result from AnalyzeURL. *)
Definition mkBulk (u : string) (o : Result + string) : BulkResult :=
  match o with
  | inl r => {| BURL := u; BResult := Some r; BError := "" |}
  | inr e => {| BURL := u; BResult := None; BError := e |}
  end.

(** Program point of goroutine [index]. *)
Inductive phase := Spawned | Holding | Written | Finished.

Record State := {
  phases : list phase;
  results : list (option BulkResult);
  sem : nat                (** len(semaphore) *)
}.

Section Run.
Variable env : Env.
Variable cfg : Config.
Variable concurrent : Z.
Variable urls : list string.

(** The possible outcomes of p.analyzer.AnalyzeURL(u). *)
Definition Outcome (u : string) (o : Result + string) : Prop :=
  exists (scrape : ScrapeFn) (np : NewProviderFn),
    o = snd (AnalyzeURL env scrape (New env np cfg) u).

(** results := make([]*BulkResult, len(urls)); every goroutine started. *)
Definition init : State :=
  {| phases := map (fun _ => Spawned) urls;
     results := map (fun _ => None) urls;
     sem := 0 |}.

Definition set {A : Type} (l : list A) (i : nat) (x : A) : list A :=
  app (firstn i l) (x :: skipn (Nat.succ i) l).

Inductive step : State -> State -> Prop :=
| step_acquire : forall s i,
    nth_error (phases s) i = Some Spawned ->
    (Z.of_nat (sem s) < concurrent)%Z ->
    step s {| phases := set (phases s) i Holding; results := results s; sem := Nat.succ (sem s) |}
| step_write : forall s i u o,
    nth_error (phases s) i = Some Holding ->
    nth_error urls i = Some u ->
    Outcome u o ->
    step s {| phases := set (phases s) i Written;
              results := set (results s) i (Some (mkBulk u o)); sem := sem s |}
| step_release : forall s i,
    nth_error (phases s) i = Some Written ->
    step s {| phases := set (phases s) i Finished; results := results s; sem := Nat.pred (sem s) |}.

Inductive reachable : State -> Prop :=
| reach_init : reachable init
| reach_step : forall s s', reachable s -> step s s' -> reachable s'.

(** wg.Wait() returns. *)
Definition all_done (s : State) : Prop := Forall (fun p => p = Finished) (phases s).

End Run.

(** Goroutines holding a semaphore slot. *)
Definition busy (p : phase) : nat :=
  match p with Holding | Written => 1 | _ => 0 end.

(** Steps a goroutine still has to take. *)
Definition weight (p : phase) : nat :=
  match p with Spawned => 3 | Holding => 2 | Written => 1 | Finished => 0 end.

Definition remaining (s : State) : nat := list_sum (map weight (phases s)).

Definition phase_eq_dec (p q : phase) : {p = q} + {p <> q}.
Proof. decide equality. Defined.

Section Invariant.
Variable env : Env.
Variable cfg : Config.
Variable urls : list string.

(** The invariant of the runs: slot sizes, written slots hold a result built
    from their URL, a slot is written iff its goroutine is past the write,
    and the semaphore count is the number of goroutines holding it. *)
Definition Inv (s : State) : Prop :=
  List.length (phases s) = List.length urls /\
  List.length (results s) = List.length urls /\
  (forall i b, nth_error (results s) i = Some (Some b) ->
     exists u o, nth_error urls i = Some u /\ Outcome env cfg u o /\ b = mkBulk u o) /\
  (forall i p, nth_error (phases s) i = Some p ->
     ((p = Written \/ p = Finished) <-> exists b, nth_error (results s) i = Some (Some b))) /\
  sem s = list_sum (map busy (phases s)).

End Invariant.

End Bulk.
Import Analyzer.

(** Whether a text contains an ASCII digit. *)
Fixpoint has_digit (s : string) : bool :=
  match s with
  | EmptyString => false
  | String c r => is_digit c || has_digit r
  end.

(** The score the leftmost match of one pattern yields, if any. *)
Definition leftmost_score (p : rx) (content : string) : option Z :=
  match FindSubmatch p content with
  | Some (Some g) =>
      match Atoi g with
      | Some v => if (0 <=? v) && (v <=? 100) then Some v else None
      | None => None
      end
  | _ => None
  end.

(** The first [Some] of a list of candidate scores, or 0. *)
Fixpoint first_score (l : list (option Z)) : Z :=
  match l with
  | [] => 0
  | Some v :: _ => v
  | None :: r => first_score r
  end.

(** A provider whose reply carries the given text. *)
Definition fixed_provider (text : string) : LLM.Provider :=
  {| LLM.Name := "fixed";
     LLM.Analyze := fun _ _ => inl {| LLM.RContent := text; LLM.RTokensUsed := 0;
                                      LLM.RModel := "fixed-model" |} |}.

(** A provider whose Analyze call fails with the given error. *)
Definition failing_provider (err : string) : LLM.Provider :=
  {| LLM.Name := "failing"; LLM.Analyze := fun _ _ => inr err |}.

(** An environment without any API key. *)
Definition empty_env : Analyzer.Env := fun _ => "".

(** An environment with a syntactically valid Claude key. *)
Definition claude_env : Analyzer.Env :=
  fun v => if String.eqb v "CLAUDE_API_KEY" then "sk-ant-0123" else "".

(** A small page: title "T", content "Hello". *)
Definition hello_page : PageData :=
  {| Title := "T"; Content := "Hello"; MetaTags := []; Headings := [] |}.

Definition fails_nodigit (k : cont) : Prop :=
  forall s' c, has_digit s' = false -> k s' c = None.

(** The count the [wordCount] map holds for a word (0 when absent). *)
Fixpoint wc_get (w : string) (m : list (string * Z)) : Z :=
  match m with
  | [] => 0
  | (k, c) :: r => if String.eqb k w then c else wc_get w r
  end.

(** The five details of a breakdown, in the order generateInsights lists them. *)
Definition details (b : Scorer.ScoreBreakdown) : list Scorer.ScoreDetail :=
  [Scorer.ContentStructure b; Scorer.SemanticClarity b; Scorer.ContextRichness b;
   Scorer.AuthoritySignals b; Scorer.Accessibility b].

(** |percentage - 100 * score / max| <= 1e-12, evaluated in float64. *)
Definition pct_close (d : Scorer.ScoreDetail) : bool :=
  (PrimFloat.abs (Scorer.Percentage d
     - 100 * F64.of_int (Scorer.Score d) / F64.of_int (Scorer.MaxScore d)) <=? 1e-12)%float.

(** The pairwise sums of two lists of sub-scores, without duplicates. *)
Definition sums (xs ys : list Z) : list Z :=
  nodup Z.eq_dec (flat_map (fun x => map (fun y => x + y) ys) xs).

(** [0; 1; ...; n - 1] *)
Definition upto (n : nat) : list Z := map Z.of_nat (seq 0 n).

(** The values each evaluator returns, read off its branches. *)
Definition heading_vals : list Z := [0; 10; 20; 30].
Definition organization_vals : list Z := [5; 10; 15; 20; 25].
Definition paragraph_vals : list Z := upto 26.
Definition list_vals : list Z := [5; 10; 20].
Definition readability_vals : list Z := [0; 20; 30; 40].
Definition terminology_vals : list Z := [15; 30].
Definition definition_vals : list Z := [10; 20; 30].
Definition depth_vals : list Z := [5; 15; 30; 40; 35].
Definition examples_vals : list Z := [5; 15; 25; 35; 30].
Definition background_vals : list Z := [5; 15; 25].
Definition citation_vals : list Z := [5; 15; 25; 40; 35].
Definition expertise_vals : list Z := [10; 20; 35].
Definition factual_vals : list Z := [15; 20; 25].
Definition meta_vals : list Z := [0; 5; 10; 15; 20; 25; 30].
Definition parsing_vals : list Z := [15; 25; 35].
Definition density_vals : list Z := [0; 35; 25; 15; 10].

(** The values of the five dimension scores, sums of their sub-scores. *)
Definition structure_vals : list Z :=
  sums (sums (sums heading_vals organization_vals) paragraph_vals) list_vals.
Definition clarity_vals : list Z := sums (sums readability_vals terminology_vals) definition_vals.
Definition richness_vals : list Z := sums (sums depth_vals examples_vals) background_vals.
Definition authority_vals : list Z := sums (sums citation_vals expertise_vals) factual_vals.
Definition accessibility_vals : list Z := sums (sums meta_vals parsing_vals) density_vals.

(** round(n / d) for d > 0 in exact arithmetic, halves away from zero. *)
Definition round_half_away (n d : Z) : Z :=
  if 0 <=? n then (2 * n + d) / (2 * d) else - ((2 * (- n) + d) / (2 * d)).

(** round(Σ weight_i * score_i) for the weights 0.25, 0.25, 0.20, 0.15, 0.15
    read as the exact decimals 25/100, 25/100, 20/100, 15/100, 15/100. *)
Definition spec_overall (s1 s2 s3 s4 s5 : Z) : Z :=
  round_half_away (25 * s1 + 25 * s2 + 20 * s3 + 15 * s4 + 15 * s5) 100.

(** Structural equality of two spec_floats. *)
Definition sf_eqb (x y : spec_float) : bool :=
  match x, y with
  | S754_zero a, S754_zero b => Bool.eqb a b
  | S754_infinity a, S754_infinity b => Bool.eqb a b
  | S754_nan, S754_nan => true
  | S754_finite a m e, S754_finite b m' e' => Bool.eqb a b && Pos.eqb m m' && Z.eqb e e'
  | _, _ => false
  end.

(** The first two terms of the float64 sum of calculateOverallScore depend
    only on the sum of the first two dimension scores. *)
Definition head_ok (s1 s2 : Z) : bool :=
  let w := Scorer.weights in
  sf_eqb (Prim2SF (0.0 + F64.of_int s1 * Scorer.wContentStructure w
                       + F64.of_int s2 * Scorer.wSemanticClarity w)%float)
         (Prim2SF (0.0 + F64.of_int (s1 + s2) * Scorer.wContentStructure w)%float).

(** [0; 5; ...; 5 * (n - 1)] *)
Definition fives (n : nat) : list Z := map (Z.mul 5) (upto n).

(** Each later partial sum of the float64 sum is float64(X) / 100, where X
    is the exact partial sum counted in hundredths. *)
Definition step3_ok (s12 s3 : Z) : bool :=
  let w := Scorer.weights in
  sf_eqb (Prim2SF (0.0 + F64.of_int s12 * Scorer.wContentStructure w
                       + F64.of_int s3 * Scorer.wContextRichness w)%float)
         (Prim2SF (F64.of_int (25 * s12 + 20 * s3) / 100)%float).

Definition step4_ok (x3 s4 : Z) : bool :=
  let w := Scorer.weights in
  sf_eqb (Prim2SF (F64.of_int x3 / 100 + F64.of_int s4 * Scorer.wAuthoritySignals w)%float)
         (Prim2SF (F64.of_int (x3 + 15 * s4) / 100)%float).

Definition step5_ok (x4 s5 : Z) : bool :=
  let w := Scorer.weights in
  sf_eqb (Prim2SF (F64.of_int x4 / 100 + F64.of_int s5 * Scorer.wAccessibility w)%float)
         (Prim2SF (F64.of_int (x4 + 15 * s5) / 100)%float).

(** int(math.Round(float64(X) / 100)) is X / 100 rounded half away from zero. *)
Definition round_ok (x : Z) : bool :=
  Z.eqb (F64.round_to_int (F64.of_int x / 100)%float) (round_half_away x 100).

(* ================================================================== *)

(* ------------------------------------------------------------------ *)
(** ** fmt's %d on an int *)
Module GoFmt.

(** The decimal digits of [n >= 0] in front of [acc]. *)
Fixpoint digits (fuel : nat) (n : Z) (acc : string) : string :=
  match fuel with
  | O => acc
  | S f =>
      let acc := String (ascii_of_nat (Z.to_nat (48 + n mod 10))) acc in
      if n <? 10 then acc else digits f (n / 10) acc
  end.

(** fmt.Sprintf("%d", n) for a 64-bit int (at most 20 digits). *)
Definition itoa (n : Z) : string :=
  if n <? 0 then String "-" (digits 64 (- n) "") else digits 64 n "".

End GoFmt.

(* ------------------------------------------------------------------ *)
(** ** Package [unicode/utf8], and strings.TrimSpace over it *)
Module UTF8.

Definition RuneError : Z := 65533.

(** Every byte below utf8.RuneSelf (0x80). *)
Definition ascii_only (s : string) : bool :=
  forallb (fun c => (nat_of_ascii c <? 128)%nat) (list_ascii_of_string s).

Definition byte_at (s : string) (i : nat) : Z :=
  match get i s with Some c => byte c | None => 0 end.

(** The [first] table of utf8 for a byte >= 0x80: the sequence size and
    the accepted range of the second byte ([None]: an invalid lead byte). *)
Definition lead (b : Z) : option (nat * Z * Z) :=
  if b <? 194 then None
  else if b <=? 223 then Some (2%nat, 128, 191)
  else if b =? 224 then Some (3%nat, 160, 191)
  else if b <=? 236 then Some (3%nat, 128, 191)
  else if b =? 237 then Some (3%nat, 128, 159)
  else if b <=? 239 then Some (3%nat, 128, 191)
  else if b =? 240 then Some (4%nat, 144, 191)
  else if b <=? 243 then Some (4%nat, 128, 191)
  else if b =? 244 then Some (4%nat, 128, 143)
  else None.

(** utf8.DecodeRuneInString (also the step of a [for range] loop). *)
Definition DecodeRuneInString (s : string) : Z * nat :=
  let n := String.length s in
  if (n =? 0)%nat then (RuneError, 0%nat) else
  let s0 := byte_at s 0 in
  if s0 <? 128 then (s0, 1%nat) else
  match lead s0 with
  | None => (RuneError, 1%nat)
  | Some (sz, lo, hi) =>
      if (n <? sz)%nat then (RuneError, 1%nat) else
      let s1 := byte_at s 1 in
      if (s1 <? lo) || (hi <? s1) then (RuneError, 1%nat) else
      if (sz <=? 2)%nat then
        (Z.lor (Z.shiftl (Z.land s0 31) 6) (Z.land s1 63), 2%nat) else
      let s2 := byte_at s 2 in
      if (s2 <? 128) || (191 <? s2) then (RuneError, 1%nat) else
      if (sz <=? 3)%nat then
        (Z.lor (Z.lor (Z.shiftl (Z.land s0 15) 12) (Z.shiftl (Z.land s1 63) 6))
               (Z.land s2 63), 3%nat) else
      let s3 := byte_at s 3 in
      if (s3 <? 128) || (191 <? s3) then (RuneError, 1%nat) else
      (Z.lor (Z.lor (Z.lor (Z.shiftl (Z.land s0 7) 18) (Z.shiftl (Z.land s1 63) 12))
                    (Z.shiftl (Z.land s2 63) 6)) (Z.land s3 63), 4%nat)
  end.

(** utf8.RuneStart *)
Definition RuneStart (b : Z) : bool := negb (Z.land b 192 =? 128).

(** for start--; start >= lim; start-- { if RuneStart(s[start]) { break } } *)
Fixpoint back_scan (fuel : nat) (s : string) (start lim : Z) : Z :=
  match fuel with
  | O => start
  | S f =>
      if start <? lim then start
      else if RuneStart (byte_at s (Z.to_nat start)) then start
      else back_scan f s (start - 1) lim
  end.

(** utf8.DecodeLastRuneInString *)
Definition DecodeLastRuneInString (s : string) : Z * nat :=
  let end_ := Z.of_nat (String.length s) in
  if end_ =? 0 then (RuneError, 0%nat) else
  let r := byte_at s (Z.to_nat (end_ - 1)) in
  if r <? 128 then (r, 1%nat) else
  let lim := Z.max (end_ - 4) 0 in
  let start := back_scan 5 s (end_ - 2) lim in
  let start := Z.max start 0 in
  let '(r, size) := DecodeRuneInString (substring (Z.to_nat start) (Z.to_nat (end_ - start)) s) in
  if start + Z.of_nat size =? end_ then (r, size) else (RuneError, 1%nat).

(** utf8.AppendRune, as used by strings.Builder.WriteRune. *)
Definition bytes (l : list Z) : string :=
  fold_right (fun b acc => String (ascii_of_nat (Z.to_nat b)) acc) EmptyString l.
Definition gobyte (x : Z) : Z := Z.land x 255.

Definition AppendRune (r : Z) : string :=
  let i := r mod 2 ^ 32 in
  if i <=? 127 then bytes [gobyte r]
  else if i <=? 2047 then
    bytes [Z.lor 192 (gobyte (Z.shiftr r 6)); Z.lor 128 (Z.land (gobyte r) 63)]
  else if (i <? 55296) || ((57343 <? i) && (i <=? 65535)) then
    bytes [Z.lor 224 (gobyte (Z.shiftr r 12)); Z.lor 128 (Z.land (gobyte (Z.shiftr r 6)) 63);
           Z.lor 128 (Z.land (gobyte r) 63)]
  else if (65535 <? i) && (i <=? 1114111) then
    bytes [Z.lor 240 (gobyte (Z.shiftr r 18)); Z.lor 128 (Z.land (gobyte (Z.shiftr r 12)) 63);
           Z.lor 128 (Z.land (gobyte (Z.shiftr r 6)) 63); Z.lor 128 (Z.land (gobyte r) 63)]
  else bytes [239; 191; 189].

(** unicode.IsSpace *)
Definition IsSpace (r : Z) : bool :=
  if (0 <=? r) && (r <=? 255) then
    (r =? 9) || (r =? 10) || (r =? 11) || (r =? 12) || (r =? 13) || (r =? 32)
    || (r =? 133) || (r =? 160)
  else
    (r =? 5760) || ((8192 <=? r) && (r <=? 8202)) || (r =? 8232) || (r =? 8233)
    || (r =? 8239) || (r =? 8287) || (r =? 12288).

Definition suffix_from (s : string) (i : nat) : string :=
  substring i (String.length s - i) s.

(** indexFunc(s, unicode.IsSpace, false), from byte [i] on. *)
Fixpoint index_nonspace (fuel : nat) (s : string) (i : nat) : option nat :=
  match fuel with
  | O => None
  | S f =>
      if (String.length s <=? i)%nat then None else
      let '(r, size) := DecodeRuneInString (suffix_from s i) in
      if negb (IsSpace r) then Some i else index_nonspace f s (i + size)
  end.

(** lastIndexFunc(s, unicode.IsSpace, false), below byte [i]. *)
Fixpoint last_nonspace (fuel : nat) (s : string) (i : nat) : option nat :=
  match fuel with
  | O => None
  | S f =>
      if (i =? 0)%nat then None else
      let '(r, size) := DecodeLastRuneInString (substring 0 i s) in
      let i := (i - size)%nat in
      if negb (IsSpace r) then Some i else last_nonspace f s i
  end.

(** strings.TrimLeftFunc / TrimRightFunc / TrimFunc with unicode.IsSpace *)
Definition TrimLeftSpace (s : string) : string :=
  match index_nonspace (S (String.length s)) s 0 with
  | None => ""
  | Some i => suffix_from s i
  end.

Definition TrimRightSpace (s : string) : string :=
  match last_nonspace (S (String.length s)) s (String.length s) with
  | None => substring 0 0 s
  | Some i =>
      let i := if 128 <=? byte_at s i then (i + snd (DecodeRuneInString (suffix_from s i)))%nat
               else S i in
      substring 0 i s
  end.

Definition TrimFuncSpace (s : string) : string := TrimRightSpace (TrimLeftSpace s).

(** The two loops of strings.TrimSpace: the ASCII fast path, handing over
    to the Unicode functions at the first byte >= 0x80. *)
Fixpoint ts_left (fuel : nat) (s : string) (start : nat) : nat + string :=
  match fuel with
  | O => inl start
  | S f =>
      if (String.length s <=? start)%nat then inl start else
      let c := byte_at s start in
      if 128 <=? c then inr (TrimFuncSpace (suffix_from s start))
      else if IsSpace c then ts_left f s (S start) else inl start
  end.

Fixpoint ts_right (fuel : nat) (s : string) (start stop : nat) : string :=
  match fuel with
  | O => substring start (stop - start) s
  | S f =>
      if (stop <=? start)%nat then substring start (stop - start) s else
      let c := byte_at s (stop - 1) in
      if 128 <=? c then TrimRightSpace (substring start (stop - start) s)
      else if IsSpace c then ts_right f s start (stop - 1) else substring start (stop - start) s
  end.

(** strings.TrimSpace *)
Definition TrimSpace (s : string) : string :=
  match ts_left (S (String.length s)) s 0 with
  | inr t => t
  | inl start => ts_right (S (String.length s)) s start (String.length s)
  end.

End UTF8.

(* ------------------------------------------------------------------ *)
(** ** Package [llm]: errors.go *)
Module LLMErrors.

(** type ErrorType string *)
Definition ErrorTypeAuth : string := "authentication".
Definition ErrorTypeRateLimit : string := "rate_limit".
Definition ErrorTypeQuota : string := "quota".
Definition ErrorTypeModel : string := "model".
Definition ErrorTypeRequest : string := "request".
Definition ErrorTypeService : string := "service".
Definition ErrorTypeTimeout : string := "timeout".
Definition ErrorTypeNetwork : string := "network".
Definition ErrorTypeResponse : string := "response".
Definition ErrorTypeContent : string := "content".
Definition ErrorTypeUnknown : string := "unknown".

(** LLMError; its [Details] map is never set in this code base. *)
Record LLMError := {
  EType : string;
  Message : string;
  EProvider : string;
  EModel : string;
  StatusCode : Z;
  Retryable : bool
}.

(** The sentinel errors of errors.go; [OtherError] is any other error value. *)
Inductive Target :=
| ErrInvalidCredentials | ErrRateLimited | ErrQuotaExceeded | ErrModelNotFound
| ErrInvalidRequest | ErrServiceUnavailable | ErrTimeout | ErrNetworkError
| ErrInvalidResponse | ErrContentFiltered | OtherError.

(** Method Error of *LLMError *)
Definition Error (e : LLMError) : string :=
  if negb (String.eqb (EProvider e) "") then
    "[" ++ EProvider e ++ "] " ++ EType e ++ ": " ++ Message e
  else EType e ++ ": " ++ Message e.

(** Method Is of *LLMError *)
Definition Is (e : LLMError) (target : Target) : bool :=
  match target with
  | ErrInvalidCredentials => String.eqb (EType e) ErrorTypeAuth
  | ErrRateLimited => String.eqb (EType e) ErrorTypeRateLimit
  | ErrQuotaExceeded => String.eqb (EType e) ErrorTypeQuota
  | ErrModelNotFound => String.eqb (EType e) ErrorTypeModel
  | ErrInvalidRequest => String.eqb (EType e) ErrorTypeRequest
  | ErrServiceUnavailable => String.eqb (EType e) ErrorTypeService
  | ErrTimeout => String.eqb (EType e) ErrorTypeTimeout
  | ErrNetworkError => String.eqb (EType e) ErrorTypeNetwork
  | ErrInvalidResponse => String.eqb (EType e) ErrorTypeResponse
  | ErrContentFiltered => String.eqb (EType e) ErrorTypeContent
  | OtherError => false
  end.

(** isRetryable *)
Definition isRetryable (errorType : string) : bool :=
  String.eqb errorType ErrorTypeRateLimit || String.eqb errorType ErrorTypeService
  || String.eqb errorType ErrorTypeTimeout || String.eqb errorType ErrorTypeNetwork.

(** NewLLMError *)
Definition NewLLMError (errorType message provider : string) : LLMError :=
  {| EType := errorType; Message := message; EProvider := provider; EModel := "";
     StatusCode := 0; Retryable := isRetryable errorType |}.

(** parseRequestError *)
Definition parseRequestError (body : string) : string :=
  let body := ToLower body in
  if Contains body "content policy" || Contains body "safety" then
    "Content was filtered due to safety policies"
  else if Contains body "token" && Contains body "limit" then
    "Request exceeds token limits"
  else if Contains body "model" then "Invalid model specification"
  else if Contains body "parameter" then "Invalid request parameters"
  else "Invalid request format".

(** truncateBody, for a maxLength >= 0 (its only call passes 200). *)
Definition truncateBody (body : string) (maxLength : nat) : string :=
  if (String.length body <=? maxLength)%nat then body
  else substring 0 maxLength body ++ "...".

Definition http_error (t m p : string) (status : Z) (retry : bool) : LLMError :=
  {| EType := t; Message := m; EProvider := p; EModel := ""; StatusCode := status;
     Retryable := retry |}.

(** The status codes with a case of their own in ParseHTTPError. *)
Definition handledStatus (statusCode : Z) : bool :=
  existsb (Z.eqb statusCode) [400; 401; 403; 404; 429; 500; 502; 503; 504].

(** ParseHTTPError *)
Definition ParseHTTPError (statusCode : Z) (body : string) (provider : string) : LLMError :=
  let bodyStr := body in
  if statusCode =? 401 then
    http_error ErrorTypeAuth "Invalid API key or authentication failed" provider statusCode false
  else if statusCode =? 403 then
    if Contains (ToLower bodyStr) "quota" then
      http_error ErrorTypeQuota "API quota exceeded" provider statusCode false
    else http_error ErrorTypeAuth "Access forbidden - check permissions" provider statusCode false
  else if statusCode =? 404 then
    http_error ErrorTypeModel "Model not found or endpoint not available" provider statusCode false
  else if statusCode =? 429 then
    http_error ErrorTypeRateLimit "Rate limit exceeded - please wait before retrying"
      provider statusCode true
  else if statusCode =? 400 then
    http_error ErrorTypeRequest (parseRequestError bodyStr) provider statusCode false
  else if (statusCode =? 500) || (statusCode =? 502) || (statusCode =? 503) || (statusCode =? 504) then
    http_error ErrorTypeService "Service temporarily unavailable" provider statusCode true
  else
    http_error ErrorTypeUnknown
      ("Unexpected error (status: " ++ GoFmt.itoa statusCode ++ "): " ++ truncateBody bodyStr 200)
      provider statusCode (500 <=? statusCode).

(** WrapNetworkError / WrapTimeoutError / WrapResponseError; the wrapped
    error is given by its message (%v). *)
Definition WrapNetworkError (err provider : string) : LLMError :=
  {| EType := ErrorTypeNetwork; Message := "Network error: " ++ err; EProvider := provider;
     EModel := ""; StatusCode := 0; Retryable := true |}.
Definition WrapTimeoutError (err provider : string) : LLMError :=
  {| EType := ErrorTypeTimeout; Message := "Request timeout: " ++ err; EProvider := provider;
     EModel := ""; StatusCode := 0; Retryable := true |}.
Definition WrapResponseError (err provider : string) : LLMError :=
  {| EType := ErrorTypeResponse; Message := "Invalid response format: " ++ err;
     EProvider := provider; EModel := ""; StatusCode := 0; Retryable := false |}.

End LLMErrors.

(* ------------------------------------------------------------------ *)
(** ** Package [llm]: the three providers and NewProvider *)
Module Providers.
Import LLMErrors.

(** llm.ProviderConfig *)
Record PConfig := {
  CfgAPIKey : string;
  CfgModel : string;
  CfgMaxTokens : Z;
  CfgTemperature : float;
  CfgBaseURL : string
}.

Definition set_model (c : PConfig) (m : string) : PConfig :=
  {| CfgAPIKey := CfgAPIKey c; CfgModel := m; CfgMaxTokens := CfgMaxTokens c;
     CfgTemperature := CfgTemperature c; CfgBaseURL := CfgBaseURL c |}.
Definition set_max_tokens (c : PConfig) (n : Z) : PConfig :=
  {| CfgAPIKey := CfgAPIKey c; CfgModel := CfgModel c; CfgMaxTokens := n;
     CfgTemperature := CfgTemperature c; CfgBaseURL := CfgBaseURL c |}.
Definition set_base_url (c : PConfig) (u : string) : PConfig :=
  {| CfgAPIKey := CfgAPIKey c; CfgModel := CfgModel c; CfgMaxTokens := CfgMaxTokens c;
     CfgTemperature := CfgTemperature c; CfgBaseURL := u |}.

(** The provider values, each with the configuration it keeps. *)
Inductive Built :=
| ClaudeProvider (config : PConfig)
| OpenAIProvider (config : PConfig)
| LocalProvider (config : PConfig).

(** The Name methods. *)
Definition BuiltName (b : Built) : string :=
  match b with
  | ClaudeProvider _ => "claude"
  | OpenAIProvider _ => "openai"
  | LocalProvider _ => "local"
  end.

Definition config_of (b : Built) : PConfig :=
  match b with ClaudeProvider c | OpenAIProvider c | LocalProvider c => c end.

(** for _, v := range list { if x == v { found = true; break } } *)
Definition in_list (x : string) (l : list string) : bool := existsb (String.eqb x) l.

Definition claudeValidModels : list string :=
  ["claude-3-sonnet-20240229"; "claude-3-opus-20240229"; "claude-3-haiku-20240307";
   "claude-3-5-sonnet-20241022"].

(** NewClaudeProvider; [None] is a nil config. *)
Definition NewClaudeProvider (config : option PConfig) : Built + LLMError :=
  match config with
  | None => inr (NewLLMError ErrorTypeRequest "Provider configuration is required" "claude")
  | Some c =>
      if String.eqb (CfgAPIKey c) "" then
        inr (NewLLMError ErrorTypeAuth
               "Claude API key is required (set CLAUDE_API_KEY environment variable)" "claude")
      else if negb (HasPrefix (CfgAPIKey c) "sk-ant-") then
        inr (NewLLMError ErrorTypeAuth
               "Invalid Claude API key format (should start with 'sk-ant-')" "claude")
      else
      let c := if String.eqb (CfgModel c) "" then set_model c "claude-3-sonnet-20240229" else c in
      if negb (in_list (CfgModel c) claudeValidModels) then
        inr (NewLLMError ErrorTypeModel ("Unsupported Claude model: " ++ CfgModel c) "claude")
      else
      let c := if CfgMaxTokens c =? 0 then set_max_tokens c 4000 else c in
      if (CfgMaxTokens c <? 1) || (8192 <? CfgMaxTokens c) then
        inr (NewLLMError ErrorTypeRequest "MaxTokens must be between 1 and 8192 for Claude" "claude")
      else if PrimFloat.ltb (CfgTemperature c) 0%float || PrimFloat.ltb 1%float (CfgTemperature c) then
        inr (NewLLMError ErrorTypeRequest "Temperature must be between 0 and 1" "claude")
      else inl (ClaudeProvider c)
  end.

Definition openAIValidModels : list string :=
  ["gpt-4"; "gpt-4-turbo"; "gpt-4-turbo-preview"; "gpt-3.5-turbo"; "gpt-3.5-turbo-16k";
   "gpt-4o"; "gpt-4o-mini"].

(** NewOpenAIProvider *)
Definition NewOpenAIProvider (config : option PConfig) : Built + LLMError :=
  match config with
  | None => inr (NewLLMError ErrorTypeRequest "Provider configuration is required" "openai")
  | Some c =>
      if String.eqb (CfgAPIKey c) "" then
        inr (NewLLMError ErrorTypeAuth
               "OpenAI API key is required (set OPENAI_API_KEY environment variable)" "openai")
      else if negb (HasPrefix (CfgAPIKey c) "sk-") then
        inr (NewLLMError ErrorTypeAuth
               "Invalid OpenAI API key format (should start with 'sk-')" "openai")
      else
      let c := if String.eqb (CfgModel c) "" then set_model c "gpt-4" else c in
      if negb (in_list (CfgModel c) openAIValidModels) then
        inr (NewLLMError ErrorTypeModel ("Unsupported OpenAI model: " ++ CfgModel c) "openai")
      else
      let c := if CfgMaxTokens c =? 0 then set_max_tokens c 4000 else c in
      let maxAllowed :=
        if Contains (CfgModel c) "16k" then 16384
        else if Contains (CfgModel c) "turbo" || Contains (CfgModel c) "4o" then 8192
        else 4096 in
      if (CfgMaxTokens c <? 1) || (maxAllowed <? CfgMaxTokens c) then
        inr (NewLLMError ErrorTypeRequest
               ("MaxTokens must be between 1 and " ++ GoFmt.itoa maxAllowed ++ " for model "
                ++ CfgModel c) "openai")
      else if PrimFloat.ltb (CfgTemperature c) 0%float || PrimFloat.ltb 2%float (CfgTemperature c) then
        inr (NewLLMError ErrorTypeRequest "Temperature must be between 0 and 2 for OpenAI" "openai")
      else inl (OpenAIProvider c)
  end.

(** NewLocalProvider; [urlParse] is url.Parse, giving the message of its
    error. *)
Definition NewLocalProvider (urlParse : string -> option string) (config : option PConfig)
  : Built + LLMError :=
  match config with
  | None => inr (NewLLMError ErrorTypeRequest "Provider configuration is required" "local")
  | Some c =>
      let c := if String.eqb (CfgBaseURL c) "" then set_base_url c "http://localhost:11434" else c in
      match urlParse (CfgBaseURL c) with
      | Some err => inr (NewLLMError ErrorTypeRequest ("Invalid base URL: " ++ err) "local")
      | None =>
          let c := if String.eqb (CfgModel c) "" then set_model c "llama2" else c in
          if String.eqb (UTF8.TrimSpace (CfgModel c)) "" then
            inr (NewLLMError ErrorTypeModel "Model name cannot be empty" "local")
          else if PrimFloat.ltb (CfgTemperature c) 0%float || PrimFloat.ltb 2%float (CfgTemperature c) then
            inr (NewLLMError ErrorTypeRequest "Temperature must be between 0 and 2" "local")
          else inl (LocalProvider c)
      end
  end.

(** The error of NewProvider: an LLMError of a constructor, or the
    fmt.Errorf of an unknown provider type. *)
Inductive PError := LLMErr (e : LLMError) | Errorf (msg : string).

Definition PErrorString (e : PError) : string :=
  match e with LLMErr e => Error e | Errorf m => m end.

Definition lift (r : Built + LLMError) : Built + PError :=
  match r with inl b => inl b | inr e => inr (LLMErr e) end.

(** NewProvider *)
Definition NewProvider (urlParse : string -> option string) (providerType : string)
  (config : option PConfig) : Built + PError :=
  if String.eqb providerType "claude" then lift (NewClaudeProvider config)
  else if String.eqb providerType "gpt" || String.eqb providerType "openai" then
    lift (NewOpenAIProvider config)
  else if String.eqb providerType "local" then lift (NewLocalProvider urlParse config)
  else inr (Errorf ("unsupported provider: " ++ providerType)).

(** *** The Analyze methods, over an HTTP client and a JSON decoder *)

(** The request a provider sends: its URL, headers and the fields of the
    JSON body. *)
Record Request := {
  ReqURL : string;
  ReqHeaders : list (string * string);
  ReqModel : string;
  ReqMaxTokens : Z;
  ReqTemperature : float;
  ReqContent : string
}.

(** What client.Do and io.ReadAll give back. *)
Inductive DoResult :=
| DoError (isURLError timeout : bool) (err : string)
| ReadError (err : string)
| HTTPResponse (status : Z) (body : string).

Definition Client := Request -> DoResult.

(** claudeResponse and openAIResponse / localResponse after json.Unmarshal. *)
Record ClaudeResponse := {
  CContent : list string;
  InputTokens : Z;
  OutputTokens : Z;
  CRespModel : string
}.
Record ChatResponse := {
  Choices : list string;
  PromptTokens : Z;
  CompletionTokens : Z;
  TotalTokens : Z;
  ChatModel : string
}.

(** json.Marshal of a request fails exactly on a NaN or infinite float. *)
Definition marshalError (t : float) : option string :=
  if PrimFloat.is_nan t then Some "json: unsupported value: NaN"
  else if PrimFloat.eqb t PrimFloat.infinity then Some "json: unsupported value: +Inf"
  else if PrimFloat.eqb t PrimFloat.neg_infinity then Some "json: unsupported value: -Inf"
  else None.

Definition nl : string := String (ascii_of_nat 10) "".

(** fmt.Sprintf("%s\n\nContent to analyze:\n%s", prompt, content) *)
Definition fullPrompt (prompt content : string) : string :=
  prompt ++ nl ++ nl ++ "Content to analyze:" ++ nl ++ content.

Definition contentEmptyMsg : string :=
  "Content cannot be empty - webpage scraping may have failed or returned no extractable content".

(** Method Analyze of *ClaudeProvider *)
Definition ClaudeAnalyze (c : PConfig) (client : Client)
  (unmarshal : string -> ClaudeResponse + string) (content prompt : string)
  : Response + LLMError :=
  if String.eqb (UTF8.TrimSpace content) "" then
    inr (NewLLMError ErrorTypeRequest contentEmptyMsg "claude")
  else if String.eqb (UTF8.TrimSpace prompt) "" then
    inr (NewLLMError ErrorTypeRequest "Prompt cannot be empty" "claude")
  else
  let fp := fullPrompt prompt content in
  if 200000 <? Z.of_nat (String.length fp) then
    inr (NewLLMError ErrorTypeRequest "Content too long for Claude model" "claude")
  else
  match marshalError (CfgTemperature c) with
  | Some err => inr (NewLLMError ErrorTypeRequest ("Failed to prepare request: " ++ err) "claude")
  | None =>
  let req := {| ReqURL := "https://api.anthropic.com/v1/messages";
                ReqHeaders := [("Content-Type", "application/json"); ("x-api-key", CfgAPIKey c);
                               ("anthropic-version", "2023-06-01")];
                ReqModel := CfgModel c; ReqMaxTokens := CfgMaxTokens c;
                ReqTemperature := CfgTemperature c; ReqContent := fp |} in
  match client req with
  | DoError isURL timeout err =>
      if isURL && timeout then inr (WrapTimeoutError err "claude")
      else inr (WrapNetworkError err "claude")
  | ReadError err => inr (WrapNetworkError ("failed to read response body: " ++ err) "claude")
  | HTTPResponse status body =>
      if negb (status =? 200) then inr (ParseHTTPError status body "claude") else
      match unmarshal body with
      | inr err => inr (WrapResponseError ("failed to parse response JSON: " ++ err) "claude")
      | inl r =>
          match CContent r with
          | [] => inr (NewLLMError ErrorTypeResponse "No content in Claude response" "claude")
          | text :: _ =>
              if String.eqb text "" then
                inr (NewLLMError ErrorTypeResponse "Empty text content in Claude response" "claude")
              else inl {| RContent := text; RTokensUsed := InputTokens r + OutputTokens r;
                          RModel := CRespModel r |}
          end
      end
  end
  end.

(** Method Analyze of *OpenAIProvider *)
Definition OpenAIAnalyze (c : PConfig) (client : Client)
  (unmarshal : string -> ChatResponse + string) (content prompt : string)
  : Response + LLMError :=
  if String.eqb (UTF8.TrimSpace content) "" then
    inr (NewLLMError ErrorTypeRequest contentEmptyMsg "openai")
  else if String.eqb (UTF8.TrimSpace prompt) "" then
    inr (NewLLMError ErrorTypeRequest "Prompt cannot be empty" "openai")
  else
  let fp := fullPrompt prompt content in
  if 100000 <? Z.of_nat (String.length fp) then
    inr (NewLLMError ErrorTypeRequest "Content too long for OpenAI model" "openai")
  else
  match marshalError (CfgTemperature c) with
  | Some err => inr (NewLLMError ErrorTypeRequest ("Failed to prepare request: " ++ err) "openai")
  | None =>
  let req := {| ReqURL := "https://api.openai.com/v1/chat/completions";
                ReqHeaders := [("Content-Type", "application/json");
                               ("Authorization", "Bearer " ++ CfgAPIKey c)];
                ReqModel := CfgModel c; ReqMaxTokens := CfgMaxTokens c;
                ReqTemperature := CfgTemperature c; ReqContent := fp |} in
  match client req with
  | DoError isURL timeout err =>
      if isURL && timeout then inr (WrapTimeoutError err "openai")
      else inr (WrapNetworkError err "openai")
  | ReadError err => inr (WrapNetworkError ("failed to read response body: " ++ err) "openai")
  | HTTPResponse status body =>
      if negb (status =? 200) then inr (ParseHTTPError status body "openai") else
      match unmarshal body with
      | inr err => inr (WrapResponseError ("failed to parse response JSON: " ++ err) "openai")
      | inl r =>
          match Choices r with
          | [] => inr (NewLLMError ErrorTypeResponse "No choices in OpenAI response" "openai")
          | text :: _ =>
              if String.eqb text "" then
                inr (NewLLMError ErrorTypeResponse "Empty message content in OpenAI response" "openai")
              else inl {| RContent := text; RTokensUsed := TotalTokens r; RModel := ChatModel r |}
          end
      end
  end
  end.

(** Method Analyze of *LocalProvider; [urlParse] is the URL parsing of
    http.NewRequestWithContext. *)
Definition LocalAnalyze (urlParse : string -> option string) (c : PConfig) (client : Client)
  (unmarshal : string -> ChatResponse + string) (content prompt : string)
  : Response + LLMError :=
  if String.eqb (UTF8.TrimSpace content) "" then
    inr (NewLLMError ErrorTypeRequest contentEmptyMsg "local")
  else if String.eqb (UTF8.TrimSpace prompt) "" then
    inr (NewLLMError ErrorTypeRequest "Prompt cannot be empty" "local")
  else
  let fp := fullPrompt prompt content in
  match marshalError (CfgTemperature c) with
  | Some err => inr (NewLLMError ErrorTypeRequest ("Failed to prepare request: " ++ err) "local")
  | None =>
  let endpoint := CfgBaseURL c ++ "/v1/chat/completions" in
  match urlParse endpoint with
  | Some err => inr (NewLLMError ErrorTypeRequest ("Failed to create HTTP request: " ++ err) "local")
  | None =>
  let req := {| ReqURL := endpoint; ReqHeaders := [("Content-Type", "application/json")];
                ReqModel := CfgModel c; ReqMaxTokens := CfgMaxTokens c;
                ReqTemperature := CfgTemperature c; ReqContent := fp |} in
  match client req with
  | DoError isURL timeout err =>
      if isURL && timeout then inr (WrapTimeoutError err "local")
      else if isURL && Contains err "connection refused" then
        inr (NewLLMError ErrorTypeService
               ("Local LLM service not available at " ++ CfgBaseURL c) "local")
      else inr (WrapNetworkError err "local")
  | ReadError err => inr (WrapNetworkError ("failed to read response body: " ++ err) "local")
  | HTTPResponse status body =>
      if negb (status =? 200) then inr (ParseHTTPError status body "local") else
      match unmarshal body with
      | inr err => inr (WrapResponseError ("failed to parse response JSON: " ++ err) "local")
      | inl r =>
          match Choices r with
          | [] => inr (NewLLMError ErrorTypeResponse "No choices in local LLM response" "local")
          | text :: _ =>
              if String.eqb text "" then
                inr (NewLLMError ErrorTypeResponse
                       "Empty message content in local LLM response" "local")
              else inl {| RContent := text; RTokensUsed := TotalTokens r; RModel := ChatModel r |}
          end
      end
  end
  end
  end.

(** The backend the providers run against: url.Parse, the HTTP client and
    the two JSON decoders. *)
Record Backend := {
  urlParse : string -> option string;
  client : Client;
  decodeClaude : string -> ClaudeResponse + string;
  decodeChat : string -> ChatResponse + string
}.

(** Provider.Analyze on a built provider. *)
Definition BuiltAnalyze (be : Backend) (b : Built) (content prompt : string) : Response + LLMError :=
  match b with
  | ClaudeProvider c => ClaudeAnalyze c (client be) (decodeClaude be) content prompt
  | OpenAIProvider c => OpenAIAnalyze c (client be) (decodeChat be) content prompt
  | LocalProvider c => LocalAnalyze (urlParse be) c (client be) (decodeChat be) content prompt
  end.

End Providers.

(* ------------------------------------------------------------------ *)
(** ** Package [llm]: interactive.go *)
Module Models.

(** llm.ModelInfo *)
Record ModelInfo := {
  MName : string;
  MProvider : string;
  MDescription : string;
  MMaxTokens : Z;
  MRecommended : bool
}.

Definition mi (n p d : string) (t : Z) (r : bool) : ModelInfo :=
  {| MName := n; MProvider := p; MDescription := d; MMaxTokens := t; MRecommended := r |}.

(** GetAvailableModels, the map as an association list. *)
Definition GetAvailableModels : list (string * list ModelInfo) :=
  [("claude",
     [mi "claude-3-5-sonnet-20241022" "claude" "Latest Claude 3.5 Sonnet - Best for complex analysis" 8192 true;
      mi "claude-3-sonnet-20240229" "claude" "Claude 3 Sonnet - Balanced performance and cost" 4096 false;
      mi "claude-3-opus-20240229" "claude" "Claude 3 Opus - Most capable, higher cost" 4096 false;
      mi "claude-3-haiku-20240307" "claude" "Claude 3 Haiku - Fastest, most economical" 4096 false]);
   ("openai",
     [mi "gpt-4o" "openai" "GPT-4 Omni - Latest multimodal model, best overall" 8192 true;
      mi "gpt-4o-mini" "openai" "GPT-4 Omni Mini - Cost-effective, fast, excellent value" 8192 false;
      mi "gpt-4-turbo" "openai" "GPT-4 Turbo - Large context window, strong reasoning" 8192 false;
      mi "gpt-4" "openai" "GPT-4 - High quality reasoning, proven performance" 4096 false;
      mi "gpt-3.5-turbo" "openai" "GPT-3.5 Turbo - Fast, economical, good for simple tasks" 4096 false]);
   ("local",
     [mi "llama2" "local" "Llama 2 - Open source model" 4096 true;
      mi "llama3" "local" "Llama 3 - Latest open source model" 8192 false;
      mi "codellama" "local" "Code Llama - Specialized for code analysis" 4096 false;
      mi "mistral" "local" "Mistral - Efficient open source model" 4096 false])].

(** v, exists := m[k] *)
Fixpoint lookup {A} (k : string) (m : list (string * A)) : option A :=
  match m with
  | [] => None
  | (k', v) :: r => if String.eqb k k' then Some v else lookup k r
  end.

(** ValidateModelForProvider; [None] is a nil error. *)
Definition ValidateModelForProvider (provider model : string) : option string :=
  match lookup provider GetAvailableModels with
  | None => Some ("unsupported provider: " ++ provider)
  | Some providerModels =>
      if existsb (fun m => String.eqb (MName m) model) providerModels then None
      else if String.eqb provider "local" then None
      else Some ("unsupported model '" ++ model ++ "' for provider '" ++ provider ++ "'")
  end.

(** GetRecommendedModel *)
Definition GetRecommendedModel (provider : string) : string :=
  match lookup provider GetAvailableModels with
  | None => ""
  | Some providerModels =>
      match find MRecommended providerModels with
      | Some m => MName m
      | None => match providerModels with m :: _ => MName m | [] => "" end
      end
  end.

(** reader.ReadString('\n') on what is left of standard input: the line
    with its newline and the rest, or io.EOF when no newline is left. *)
Fixpoint read_line (s : string) : option (string * string) :=
  match s with
  | EmptyString => None
  | String c r =>
      if Ascii.eqb c (ascii_of_nat 10) then Some (String c EmptyString, r)
      else match read_line r with
           | Some (l, rest) => Some (String c l, rest)
           | None => None
           end
  end.

Definition ReadString (stdin : string) : (string * string) + string :=
  match read_line stdin with Some p => inl p | None => inr "EOF" end.

(** strconv.Atoi: an optional sign and one or more ASCII digits, with a
    value in the int range; [None] is its error. *)
Definition is_digit (c : ascii) : bool :=
  let n := nat_of_ascii c in (48 <=? n)%nat && (n <=? 57)%nat.

Definition StrconvAtoi (s : string) : option Z :=
  let '(neg, ds) :=
    match s with
    | String c r =>
        if Ascii.eqb c "-" then (true, r) else if Ascii.eqb c "+" then (false, r) else (false, s)
    | EmptyString => (false, s)
    end in
  if String.eqb ds "" then None
  else if negb (forallb is_digit (list_ascii_of_string ds)) then None
  else
    let v := digits_value_aux ds 0 in
    let v := if neg then - v else v in
    if (v <? - 2 ^ 63) || (2 ^ 63 - 1 <? v) then None else Some v.

(** InteractiveModelSelection, reading its answers from [stdin]; the
    menus it prints are left out. Returns (provider, model) or the error. *)
Definition InteractiveModelSelection (currentProvider : string) (stdin : string)
  : (string * string) + string :=
  let models := GetAvailableModels in
  let step1 :=
    if String.eqb currentProvider "" then
      match ReadString stdin with
      | inr err => inr ("failed to read input: " ++ err)
      | inl (input, rest) =>
          let choice := UTF8.TrimSpace input in
          if String.eqb choice "1" then inl ("claude", rest)
          else if String.eqb choice "2" then inl ("openai", rest)
          else if String.eqb choice "3" then inl ("local", rest)
          else inr ("invalid choice: " ++ choice)
      end
    else inl (currentProvider, stdin) in
  match step1 with
  | inr err => inr err
  | inl (selectedProvider, stdin) =>
      match lookup selectedProvider models with
      | None => inr ("no models available for provider: " ++ selectedProvider)
      | Some providerModels =>
          match ReadString stdin with
          | inr err => inr ("failed to read input: " ++ err)
          | inl (input, _) =>
              match StrconvAtoi (UTF8.TrimSpace input) with
              | Some choiceNum =>
                  if (choiceNum <? 1) || (Z.of_nat (length providerModels) <? choiceNum) then
                    inr ("invalid choice: " ++ UTF8.TrimSpace input)
                  else
                    match nth_error providerModels (Z.to_nat (choiceNum - 1)) with
                    | Some selectedModel => inl (selectedProvider, MName selectedModel)
                    | None => inr ("invalid choice: " ++ UTF8.TrimSpace input)
                    end
              | None => inr ("invalid choice: " ++ UTF8.TrimSpace input)
              end
          end
      end
  end.

End Models.

(* ------------------------------------------------------------------ *)
(** ** Commands [analyze] and [bulk]: choosing the model, and the
    provider factory they hand to the analyzer *)
Module Cmd.
Import Models Providers.

(** The model selection block of the RunE of the analyze and bulk
    commands. *)
Definition resolveModel (interactive : bool) (provider model : string) (stdin : string)
  : (string * string) + string :=
  if interactive then
    match InteractiveModelSelection provider stdin with
    | inr err => inr ("interactive selection failed: " ++ err)
    | inl pm => inl pm
    end
  else
    let validation :=
      if negb (String.eqb model "") && negb (String.eqb provider "") then
        ValidateModelForProvider provider model
      else None in
    match validation with
    | Some err => inr ("model validation failed: " ++ err)
    | None =>
        if String.eqb model "" then
          let model := GetRecommendedModel provider in
          if String.eqb model "" then inr ("no default model available for provider: " ++ provider)
          else inl (provider, model)
        else inl (provider, model)
    end.

(** llm.NewProvider as analyzer.New calls it from the commands: the
    providerConfig carries the analyzer's key and model, MaxTokens 4000,
    Temperature 0.7 and an unset LocalLLMURL; [promptText] is the text of
    the analyzer's prompts. *)
Definition cliNewProvider (be : Backend) (promptText : Prompt -> string) : NewProviderFn :=
  fun name pc =>
    let cfg := {| CfgAPIKey := APIKey pc; CfgModel := PModel pc; CfgMaxTokens := 4000;
                  CfgTemperature := 0.7%float; CfgBaseURL := "" |} in
    match NewProvider (urlParse be) name (Some cfg) with
    | inl b =>
        inl {| Name := BuiltName b;
               Analyze := fun content p =>
                 match BuiltAnalyze be b content (promptText p) with
                 | inl r => inl r
                 | inr e => inr (LLMErrors.Error e)
                 end |}
    | inr e => inr (PErrorString e)
    end.

End Cmd.

(* ------------------------------------------------------------------ *)
(** ** The analyzer's entry point for local files, and its success message *)
Module AnalyzerMsg.

(** Analyzer.AnalyzeContent *)
Definition AnalyzeContent (env : Env) (a : Analyzer) (content title : string) : M (Result + string) :=
  let pageData := {| Title := title; Content := content; MetaTags := []; Headings := [] |} in
  analyzePageData env a pageData title.

(** Analyzer.formatSuccessMessage; [None] is the panic of a failed
    x.(int) type assertion. *)
Definition formatSuccessMessage (result : Result) : option string :=
  let scoringMethod :=
    match meta_get "scoring_method" (Metadata result) with
    | Some (MStr s) => s
    | _ => "unknown"
    end in
  let score := GoFmt.itoa (FinalScore result) in
  if String.eqb scoringMethod "hybrid_averaged" || String.eqb scoringMethod "llm_averaged" then
    match meta_get "local_score" (Metadata result), meta_get "llm_score" (Metadata result) with
    | Some (MInt localScore), Some (MInt llmScore) =>
        Some ("Analysis complete! Score: " ++ score ++ "/100 (Local: " ++ GoFmt.itoa localScore
              ++ " + AI: " ++ GoFmt.itoa llmScore ++ ", averaged)")
    | _, _ => None
    end
  else if String.eqb scoringMethod "local_only_fallback"
          || String.eqb scoringMethod "llm_no_score_fallback" then
    Some ("Analysis complete! Score: " ++ score ++ "/100 (Local only - AI analysis failed)")
  else if String.eqb scoringMethod "local_only" then
    Some ("Analysis complete! Score: " ++ score ++ "/100 (Local analysis)")
  else Some ("Analysis complete! Score: " ++ score ++ "/100").

End AnalyzerMsg.

(* ------------------------------------------------------------------ *)
(** ** Package [scanner] (pkg/config/config.go) *)
Module Scanner.
Import AnalyzerMsg.

(** removeTags: a [for range] over the runes of [html], writing each rune
    outside a tag back with strings.Builder.WriteRune. *)
Fixpoint remove_tags (fuel : nat) (html : string) (inTag : bool) : string :=
  match fuel with
  | O => ""
  | S f =>
      match html with
      | EmptyString => ""
      | _ =>
          let '(char, size) := UTF8.DecodeRuneInString html in
          let rest := UTF8.suffix_from html size in
          if char =? 60 then remove_tags f rest true
          else if char =? 62 then remove_tags f rest false
          else if negb inTag then UTF8.AppendRune char ++ remove_tags f rest inTag
          else remove_tags f rest inTag
      end
  end.

Definition removeTags (html : string) : string :=
  remove_tags (S (String.length html)) html false.

(** The loop of removeTagContent. *)
Fixpoint remove_tag_content (fuel : nat) (html startTag endTag : string) : string :=
  match fuel with
  | O => html
  | S f =>
      match index 0 (ToLower startTag) (ToLower html) with
      | None => html
      | Some start =>
          match index 0 ">" (UTF8.suffix_from html start) with
          | None => html
          | Some tagEnd =>
              let tagEnd := (tagEnd + start + 1)%nat in
              match index 0 (ToLower endTag) (ToLower (UTF8.suffix_from html tagEnd)) with
              | None => html
              | Some end_ =>
                  let end_ := (end_ + tagEnd + String.length endTag)%nat in
                  remove_tag_content f (substring 0 start html ++ UTF8.suffix_from html end_)
                    startTag endTag
              end
          end
      end
  end.

(** removeTagContent *)
Definition removeTagContent (html tag : string) : string :=
  let startTag := "<" ++ tag in
  let endTag := "</" ++ tag ++ ">" in
  remove_tag_content (S (String.length html)) html startTag endTag.

(** Scanner.extractTextFromHTML *)
Definition extractTextFromHTML (html : string) : string :=
  let html := removeTagContent html "script" in
  let html := removeTagContent html "style" in
  let html := removeTags html in
  let lines := GoStrings.Split html Providers.nl in
  let cleanLines := filter (fun line => negb (String.eqb line "")) (map UTF8.TrimSpace lines) in
  String.concat Providers.nl cleanLines.

Definition char_at (s : string) (i : Z) : ascii :=
  match get (Z.to_nat i) s with Some c => c | None => "000"%char end.

(** for len(path) > 0 && os.IsPathSeparator(path[len(path)-1]) { path = path[0:len(path)-1] } *)
Fixpoint strip_trailing (fuel : nat) (path : string) : string :=
  match fuel with
  | O => path
  | S f =>
      if (0 <? String.length path)%nat
         && Ascii.eqb (char_at path (Z.of_nat (String.length path) - 1)) "/" then
        strip_trailing f (substring 0 (String.length path - 1) path)
      else path
  end.

(** for i >= 0 && !os.IsPathSeparator(path[i]) { i-- } *)
Fixpoint last_sep (fuel : nat) (path : string) (i : Z) : Z :=
  match fuel with
  | O => i
  | S f =>
      if (0 <=? i) && negb (Ascii.eqb (char_at path i) "/") then last_sep f path (i - 1) else i
  end.

(** filepath.Base (Unix) *)
Definition Base (path : string) : string :=
  if String.eqb path "" then "." else
  let path := strip_trailing (S (String.length path)) path in
  let i := last_sep (S (String.length path)) path (Z.of_nat (String.length path) - 1) in
  let path := if 0 <=? i then UTF8.suffix_from path (Z.to_nat (i + 1)) else path in
  if String.eqb path "" then "/" else path.

(** The loop of filepath.Ext *)
Fixpoint ext_loop (fuel : nat) (path : string) (i : Z) : string :=
  match fuel with
  | O => ""
  | S f =>
      if (0 <=? i) && negb (Ascii.eqb (char_at path i) "/") then
        if Ascii.eqb (char_at path i) "." then UTF8.suffix_from path (Z.to_nat i)
        else ext_loop f path (i - 1)
      else ""
  end.

(** filepath.Ext *)
Definition Ext (path : string) : string :=
  ext_loop (S (String.length path)) path (Z.of_nat (String.length path) - 1).

(** strings.TrimSuffix *)
Definition TrimSuffix (s suffix : string) : string :=
  if HasSuffix s suffix then substring 0 (String.length s - String.length suffix) s else s.

(** Scanner.extractTitleFromPath *)
Definition extractTitleFromPath (filePath : string) : string :=
  let base := Base filePath in
  let ext := Ext base in
  TrimSuffix base ext.

(** Scanner.shouldScanFile, with config.Extensions *)
Definition shouldScanFile (extensions : list string) (filePath : string) : bool :=
  let ext := ToLower (Ext filePath) in
  existsb (fun allowedExt => String.eqb ext (ToLower allowedExt)) extensions.

(** os.ReadFile: the file's bytes or the error's message. *)
Definition ReadFileFn := string -> string + string.

(** Scanner.readHTMLFile *)
Definition readHTMLFile (readFile : ReadFileFn) (filePath : string) : string + string :=
  match readFile filePath with
  | inr err => inr err
  | inl data => inl (extractTextFromHTML data)
  end.

(** scanner.ScanResult *)
Record ScanResult := { FilePath : string; SResult : option Result; SError : string }.

(** Scanner.scanFile *)
Definition scanFile (env : Env) (a : Analyzer) (readFile : ReadFileFn) (filePath : string)
  : M ScanResult :=
  match readHTMLFile readFile filePath with
  | inr err =>
      ret {| FilePath := filePath; SResult := None; SError := "failed to read file: " ++ err |}
  | inl content =>
      let title := extractTitleFromPath filePath in
      r <- AnalyzeContent env a content title ;;
      match r with
      | inr err =>
          ret {| FilePath := filePath; SResult := None;
                 SError := "failed to analyze content: " ++ err |}
      | inl analysisResult =>
          ret {| FilePath := filePath; SResult := Some analysisResult; SError := "" |}
      end
  end.

Fixpoint mapM {A B : Type} (f : A -> M B) (l : list A) : M (list B) :=
  match l with
  | [] => ret []
  | x :: r => y <- f x ;; ys <- mapM f r ;; ret (y :: ys)
  end.

(** filepath.WalkDir: the regular files under the directory in lexical
    order, or the error that stopped the walk. *)
Definition WalkFn := string -> list string + string.

(** Scanner.ScanDirectory (the progress output left out). *)
Definition ScanDirectory (env : Env) (a : Analyzer) (extensions : list string)
  (walk : WalkFn) (readFile : ReadFileFn) (dirPath : string) : M (list ScanResult + string) :=
  match walk dirPath with
  | inr err => ret (inr ("failed to walk directory: " ++ err))
  | inl files =>
      let filesToScan := filter (shouldScanFile extensions) files in
      results <- mapM (scanFile env a readFile) filesToScan ;;
      ret (inl results)
  end.

End Scanner.

(* ------------------------------------------------------------------ *)
(** ** The summary counters of formatBulkText and formatScanText *)
Module Summary.

(** for _, result := range results { if result.Error != "" { errorCount++ }
    else if result.Result != nil { successCount++; totalScore += result.Result.Score } },
    returning (successCount, errorCount, totalScore). *)
Definition tally {A : Type} (err : A -> string) (res : A -> option Result) (results : list A)
  : Z * Z * Z :=
  fold_left (fun '(successCount, errorCount, totalScore) result =>
    if negb (String.eqb (err result) "") then (successCount, errorCount + 1, totalScore)
    else match res result with
         | Some r => (successCount + 1, errorCount, totalScore + FinalScore r)
         | None => (successCount, errorCount, totalScore)
         end) results (0, 0, 0).

(** if successCount > 0 { avgScore := totalScore / successCount } *)
Definition avgScore (successCount totalScore : Z) : option Z :=
  if 0 <? successCount then Some (Z.quot totalScore successCount) else None.

Definition bulkTally (results : list Bulk.BulkResult) : Z * Z * Z :=
  tally Bulk.BError Bulk.BResult results.

Definition scanTally (results : list Scanner.ScanResult) : Z * Z * Z :=
  tally Scanner.SError Scanner.SResult results.

End Summary.


(* ------------------------------------------------------------------ *)
(** ** Views used to state properties of the code above *)
Module Views.

(** The model names [GetAvailableModels] lists for provider [p]. *)
Definition names (p : string) : list string :=
  match Models.lookup p Models.GetAvailableModels with
  | Some ms => map Models.MName ms
  | None => []
  end.

(** One step of the counting loop shared by the bulk and scan summaries. *)
Definition tally_step {A : Type} (err : A -> string) (res : A -> option Result)
  : Z * Z * Z -> A -> Z * Z * Z :=
  fun '(successCount, errorCount, totalScore) result =>
    if negb (String.eqb (err result) "") then (successCount, errorCount + 1, totalScore)
    else match res result with
         | Some r => (successCount + 1, errorCount, totalScore + FinalScore r)
         | None => (successCount, errorCount, totalScore)
         end.

(** The characters of a string. *)
Definition chars (s : string) : list ascii := list_ascii_of_string s.

(** A string with neither angle bracket in it. *)
Definition no_angle (s : string) : Prop :=
  forall c, In c (chars s) -> c <> "<"%char /\ c <> ">"%char.

(** Every character of [t] occurs in [s]. *)
Definition sub_chars (t s : string) : Prop := forall c, In c (chars t) -> In c (chars s).

End Views.

(* ------------------------------------------------------------------ *)
(** ** Sample inputs *)
Module Samples.

(** A backend whose HTTP client always answers 503. *)
Definition busy_backend : Providers.Backend :=
  {| Providers.urlParse := fun u => Some u;
     Providers.client := fun _ => Providers.HTTPResponse 503 "service busy";
     Providers.decodeClaude := fun _ => inr "unexpected body";
     Providers.decodeChat := fun _ => inr "unexpected body" |}.

(** A Claude configuration with the given temperature. *)
Definition claude_cfg (t : float) : Providers.PConfig :=
  {| Providers.CfgAPIKey := "sk-ant-0123"; Providers.CfgModel := "claude-3-opus-20240229";
     Providers.CfgMaxTokens := 4000; Providers.CfgTemperature := t; Providers.CfgBaseURL := "" |}.

(** An environment with only an OpenAI key. *)
Definition openai_env : Analyzer.Env :=
  fun v => if String.eqb v "OPENAI_API_KEY" then "sk-0123" else "".

(** An analyzer configured for local mode. *)
Definition local_analyzer : Analyzer.Analyzer :=
  Analyzer.New empty_env (fun _ _ => inr "no provider")
    {| Analyzer.Mode := "local"; Analyzer.LLMProvider := "claude"; Analyzer.CModel := "" |}.

(** A directory with one HTML file and one text file. *)
Definition two_files : Scanner.WalkFn := fun _ => inl ["site/index.html"; "site/notes.txt"].
Definition small_html : Scanner.ReadFileFn := fun _ => inl "<p>Hi there</p>".

End Samples.

(** * Properties *)

(* ------------------------------------------------------------------ *)
(** ** Syllable estimation *)

Lemma count_vowel_groups_ge : forall w b n, n <= count_vowel_groups w b n.
Proof.
  induction w as [|c r IH]; intros b n; cbn -[ContainsByte].
  - lia.
  - destruct (ContainsByte "aeiouy" c && negb b).
    + specialize (IH (ContainsByte "aeiouy" c) (n + 1)). lia.
    + apply IH.
Qed.

(** C8: countSyllables lower-cases the word, counts each vowel (a, e, i, o,
    u, y) that follows a non-vowel, drops one for a final "e" when the count
    exceeds one, and floors the result at one: it is at least 1 on every
    word, "the" gives 1 and "beautiful" gives 3. *)
Theorem countSyllables_at_least_one :
  (forall word, 1 <= countSyllables word) /\
  countSyllables "the" = 1 /\ countSyllables "beautiful" = 3.
Proof.
  split; [|split; reflexivity].
  intro word. unfold countSyllables.
  pose proof (count_vowel_groups_ge (ToLower word) false 0) as H.
  set (n := count_vowel_groups (ToLower word) false 0) in *.
  destruct (HasSuffix (ToLower word) "e" && (n >? 1)) eqn:E.
  - apply andb_true_iff in E as [_ E]. apply Z.gtb_lt in E.
    destruct (n - 1 =? 0) eqn:E0; [lia|]. apply Z.eqb_neq in E0. lia.
  - destruct (n =? 0) eqn:E0; [lia|]. apply Z.eqb_neq in E0. lia.
Qed.

(* ------------------------------------------------------------------ *)
(** ** Score extraction *)

Lemma has_digit_append : forall p q,
  has_digit (String.append p q) = has_digit p || has_digit q.
Proof.
  induction p as [|c r IH]; intro q; simpl; [reflexivity|].
  rewrite IH. apply orb_assoc.
Qed.

Lemma lit_ci_suffix : forall l s s',
  lit_ci l s = Some s' -> exists p, s = String.append p s'.
Proof.
  induction l as [|a l IH]; intros s s' H; simpl in H.
  - inversion H; subst. exists ""%string. reflexivity.
  - destruct s as [|b t]; [discriminate|].
    destruct (Ascii.eqb (to_lower_byte a) (to_lower_byte b)); [|discriminate].
    destruct (IH _ _ H) as [p Hp]. exists (String b p). simpl. congruence.
Qed.

(** A continuation that fails on every digit-free text. *)
Lemma star_nodigit : forall cls k, fails_nodigit k ->
  forall s cap, has_digit s = false -> star cls s cap k = None.
Proof.
  intros cls k Hk. induction s as [|c r IH]; intros cap Hs; simpl.
  - apply Hk. reflexivity.
  - simpl in Hs. apply orb_false_iff in Hs as [Hc Hr].
    destruct (cls c).
    + rewrite (IH cap Hr). apply Hk. simpl. rewrite Hc, Hr. reflexivity.
    + apply Hk. simpl. rewrite Hc, Hr. reflexivity.
Qed.

(** The matcher only continues on suffixes of its input. *)
Lemma mtch_nodigit : forall r k, fails_nodigit k ->
  forall s cap, has_digit s = false -> mtch r s cap k = None.
Proof.
  induction r as [l|r1 IH1 r2 IH2|r1 IH1|cls|cls|r1 IH1 r2 IH2|r1 IH1];
    intros k Hk s cap Hs; simpl.
  - destruct (lit_ci l s) as [s'|] eqn:E; [|reflexivity].
    apply Hk. destruct (lit_ci_suffix _ _ _ E) as [p ->].
    rewrite has_digit_append in Hs. apply orb_false_iff in Hs. tauto.
  - rewrite (IH1 k Hk s cap Hs). apply IH2; assumption.
  - rewrite (IH1 k Hk s cap Hs). apply Hk; assumption.
  - apply star_nodigit; assumption.
  - destruct s as [|c t]; [reflexivity|].
    simpl in Hs. apply orb_false_iff in Hs as [_ Ht].
    destruct (cls c); [apply star_nodigit; assumption|reflexivity].
  - apply IH1; [|assumption].
    intros s' c' Hs'. apply IH2; assumption.
  - apply IH1; [|assumption].
    intros s' c' Hs'. apply Hk. assumption.
Qed.

Lemma number_nodigit : forall tail k s cap,
  has_digit s = false -> mtch (RSeq number tail) s cap k = None.
Proof.
  intros tail k s cap Hs. destruct s as [|c t]; [reflexivity|].
  simpl in Hs |- *. apply orb_false_iff in Hs as [Hc _]. rewrite Hc. reflexivity.
Qed.

Lemma seq_nodigit : forall x y k,
  (forall s' c, has_digit s' = false -> mtch y s' c k = None) ->
  forall s cap, has_digit s = false -> mtch (RSeq x y) s cap k = None.
Proof.
  intros x y k Hy s cap Hs. simpl. apply mtch_nodigit; assumption.
Qed.

Lemma patterns_mtch_nodigit : forall p, In p patterns ->
  forall s0, has_digit s0 = false -> mtch p s0 None (fun _ cap => Some cap) = None.
Proof.
  intros p Hp s0 H0. simpl in Hp.
  destruct Hp as [<-|[<-|[<-|[]]]]; unfold pattern1, pattern2, pattern3;
    repeat (first [apply number_nodigit; assumption
                  | apply seq_nodigit; [intros ? ? ?|assumption]]).
Qed.

Lemma patterns_nodigit : forall p, In p patterns ->
  forall s, has_digit s = false -> FindSubmatch p s = None.
Proof.
  intros p Hp s. induction s as [|c r IH]; intros Hs.
  - simpl. rewrite (patterns_mtch_nodigit p Hp _ Hs). reflexivity.
  - simpl. rewrite (patterns_mtch_nodigit p Hp _ Hs). simpl in Hs.
    apply orb_false_iff in Hs as [_ Hr]. apply IH. exact Hr.
Qed.

Lemma extract_loop_first : forall ps s,
  extract_loop ps s = first_score (map (fun p => leftmost_score p s) ps).
Proof.
  induction ps as [|p ps IH]; intro s; simpl; [reflexivity|].
  unfold leftmost_score.
  destruct (FindSubmatch p s) as [[g|]|]; try apply IH.
  destruct (Atoi g) as [v|]; try apply IH.
  destruct ((0 <=? v) && (v <=? 100)); [reflexivity|apply IH].
Qed.

Lemma first_score_range : forall l,
  (forall v, In (Some v) l -> 0 <= v <= 100) -> 0 <= first_score l <= 100.
Proof.
  induction l as [|[v|] r IH]; intro H; simpl.
  - lia.
  - apply H. left. reflexivity.
  - apply IH. intros v Hv. apply H. right. exact Hv.
Qed.

Lemma leftmost_score_range : forall p s v, leftmost_score p s = Some v -> 0 <= v <= 100.
Proof.
  intros p s v H. unfold leftmost_score in H.
  destruct (FindSubmatch p s) as [[g|]|]; try discriminate.
  destruct (Atoi g) as [w|]; try discriminate.
  destruct ((0 <=? w) && (w <=? 100)) eqn:E; [|discriminate].
  inversion H; subst. apply andb_true_iff in E as [E1 E2].
  apply Z.leb_le in E1. apply Z.leb_le in E2. lia.
Qed.

Lemma extract_range : forall s, 0 <= extractScoreFromLLMResponse s <= 100.
Proof.
  intro s. unfold extractScoreFromLLMResponse. rewrite extract_loop_first.
  apply first_score_range. intros v Hv. apply in_map_iff in Hv as [p [Hp _]].
  eapply leftmost_score_range. exact Hp.
Qed.

Lemma extract_nodigit : forall s, has_digit s = false -> extractScoreFromLLMResponse s = 0.
Proof.
  intros s Hs. unfold extractScoreFromLLMResponse. rewrite extract_loop_first.
  assert (H : forall ps, incl ps patterns ->
            first_score (map (fun p => leftmost_score p s) ps) = 0).
  { induction ps as [|p ps IH]; intro Hincl; simpl; [reflexivity|].
    unfold leftmost_score at 1.
    rewrite (patterns_nodigit p (Hincl p (or_introl eq_refl)) s Hs).
    apply IH. intros q Hq. apply Hincl. right. exact Hq. }
  apply H. intros q Hq. exact Hq.
Qed.

(** C2 (as amended): the extractor tries the three case-insensitive
    patterns in order, looks at the leftmost match of each only, and returns
    the first such group that Atoi parses into [0,100]; otherwise 0.
    "Overall Score: 84/100" gives 84, a text without a digit gives 0, and a
    later in-range match of a pattern whose leftmost match is out of range
    is not used ("Total: 500, final: 90" gives 0); the colon is optional
    ("Final 84" gives 84). *)
Theorem extractScore_leftmost_per_pattern :
  (forall s, extractScoreFromLLMResponse s
             = first_score (map (fun p => leftmost_score p s) [pattern1; pattern2; pattern3])) /\
  (forall s, 0 <= extractScoreFromLLMResponse s <= 100) /\
  (forall s, has_digit s = false -> extractScoreFromLLMResponse s = 0) /\
  extractScoreFromLLMResponse "Overall Score: 84/100" = 84 /\
  extractScoreFromLLMResponse "no numeric content here" = 0 /\
  extractScoreFromLLMResponse "Total: 500, final: 90" = 0 /\
  extractScoreFromLLMResponse "Final 84" = 84.
Proof.
  split; [intro s; apply extract_loop_first|].
  split; [exact extract_range|].
  split; [exact extract_nodigit|].
  repeat split; vm_compute; reflexivity.
Qed.

(** C2 as stated fails: in "Total: 500, final: 90" the first pattern also
    matches "final: 90", whose group parses to 90 in [0,100], yet the
    extractor, which only looks at the leftmost match "Total: 500", returns
    the failure value 0. *)
Lemma extractScore_first_in_range_counterexample :
  substring 12 9 "Total: 500, final: 90" = "final: 90" /\
  mtch pattern1 "final: 90" None (fun _ cap => Some cap) = Some (Some "90") /\
  Atoi "90" = Some 90 /\
  extractScoreFromLLMResponse "Total: 500, final: 90" = 0.
Proof. repeat split; vm_compute; reflexivity. Qed.

Ltac run_apd :=
  unfold analyzePageData, bind, call_analyze, ret;
  cbn -[Scorer.AnalyzeContent extractScoreFromLLMResponse].

(** C1 (as amended): in llm mode (no stored initialisation error) and in
    hybrid mode with a live provider whose Analyze call succeeds, an
    extracted score x > 0 gives the final score
    (localScore.Overall + x) / 2 with Go's truncating integer division and
    scoring method llm_averaged, resp. hybrid_averaged; in llm mode an
    extracted score of 0 (extraction failure) keeps localScore.Overall with
    scoring method llm_no_score_fallback. *)
Theorem llm_hybrid_score_averaging :
  forall env a pd src p resp,
  provider a = Some p ->
  let local := Scorer.AnalyzeContent (Content pd) pd in
  let x := extractScoreFromLLMResponse (RContent resp) in
  (cfgMode a = "llm" -> initError a = None ->
   Analyze p (Content pd) GeoPrompt = inl resp ->
   exists r, snd (analyzePageData env a pd src) = inl r /\
     (0 < x -> FinalScore r = Z.quot (Scorer.Overall local + x) 2 /\
               meta_get "scoring_method" (Metadata r) = Some (MStr "llm_averaged")) /\
     (x = 0 -> FinalScore r = Scorer.Overall local /\
               meta_get "scoring_method" (Metadata r) = Some (MStr "llm_no_score_fallback"))) /\
  (cfgMode a = "hybrid" ->
   Analyze p (Content pd) (HybridPrompt local) = inl resp ->
   exists r, snd (analyzePageData env a pd src) = inl r /\
     (0 < x -> FinalScore r = Z.quot (Scorer.Overall local + x) 2 /\
               meta_get "scoring_method" (Metadata r) = Some (MStr "hybrid_averaged"))).
Proof.
  intros env a pd src p resp Hp local x. split.
  - intros Hm Hi Han. run_apd. rewrite Hm, Hi, Hp. cbn -[Scorer.AnalyzeContent extractScoreFromLLMResponse].
    fold local. rewrite Han. fold x.
    destruct (0 <? x) eqn:E.
    + eexists; split; [reflexivity|]. split; [intros _; split; reflexivity|].
      intros Hx. rewrite Hx in E. discriminate.
    + eexists; split; [reflexivity|]. split; [|intros _; split; reflexivity].
      intros Hx. apply Z.ltb_lt in Hx. congruence.
  - intros Hm Han. run_apd. rewrite Hm, Hp. cbn -[Scorer.AnalyzeContent extractScoreFromLLMResponse].
    fold local. rewrite Han. fold x.
    destruct (0 <? x) eqn:E.
    + eexists; split; [reflexivity|]. intros _; split; reflexivity.
    + eexists; split; [reflexivity|]. intros Hx. apply Z.ltb_lt in Hx. congruence.
Qed.

Lemma llm_hybrid_score_averaging_witness :
  let a := New empty_env (fun _ _ => inl (fixed_provider "Overall Score: 84/100"))
             {| Mode := "llm"; LLMProvider := "claude"; CModel := "m" |} in
  let resp := {| RContent := "Overall Score: 84/100"; RTokensUsed := 0; RModel := "fixed-model" |} in
  provider a = Some (fixed_provider "Overall Score: 84/100") /\
  cfgMode a = "llm" /\ initError a = None /\
  Analyze (fixed_provider "Overall Score: 84/100") (Content hello_page) GeoPrompt = inl resp /\
  exists r, snd (analyzePageData empty_env a hello_page "https://example.com") = inl r /\
    (0 < extractScoreFromLLMResponse (RContent resp) ->
     FinalScore r = Z.quot (Scorer.Overall (Scorer.AnalyzeContent "Hello" hello_page)
                            + extractScoreFromLLMResponse (RContent resp)) 2 /\
     meta_get "scoring_method" (Metadata r) = Some (MStr "llm_averaged")) /\
    (extractScoreFromLLMResponse (RContent resp) = 0 ->
     FinalScore r = Scorer.Overall (Scorer.AnalyzeContent "Hello" hello_page) /\
     meta_get "scoring_method" (Metadata r) = Some (MStr "llm_no_score_fallback")).
Proof.
  intros a resp.
  assert (Hp : provider a = Some (fixed_provider "Overall Score: 84/100")) by reflexivity.
  assert (Hm : cfgMode a = "llm") by reflexivity.
  assert (Hi : initError a = None) by reflexivity.
  assert (Han : Analyze (fixed_provider "Overall Score: 84/100") (Content hello_page) GeoPrompt
                = inl resp) by reflexivity.
  split; [exact Hp|]. split; [exact Hm|]. split; [exact Hi|]. split; [exact Han|].
  exact (proj1 (llm_hybrid_score_averaging empty_env a hello_page "https://example.com"
                  _ resp Hp) Hm Hi Han).
Defined.

(** C1 as stated fails: with the local score 29 of the page "Hello" and the
    reply "Overall Score: 84/100", llm mode reports 56 = (29 + 84) / 2
    truncated, not round(56.5) = 57. *)
Lemma llm_score_round_counterexample :
  let a := New empty_env (fun _ _ => inl (fixed_provider "Overall Score: 84/100"))
             {| Mode := "llm"; LLMProvider := "claude"; CModel := "m" |} in
  Scorer.Overall (Scorer.AnalyzeContent "Hello" hello_page) = 29 /\
  extractScoreFromLLMResponse "Overall Score: 84/100" = 84 /\
  match snd (analyzePageData empty_env a hello_page "https://example.com") with
  | inl r => FinalScore r = 56 /\ FinalScore r <> 57 /\
             meta_get "scoring_method" (Metadata r) = Some (MStr "llm_averaged")
  | inr _ => False
  end.
Proof.
  intro a. split; [vm_compute; reflexivity|]. split; [vm_compute; reflexivity|].
  vm_compute. split; [reflexivity|]. split; [discriminate|reflexivity].
Qed.

(** C5: in hybrid mode with a live provider whose Analyze call returns an
    error e, the analysis still succeeds, the final score is exactly the
    local overall score, the scoring method is local_only_fallback and the
    error is recorded under "llm_error". *)
Theorem hybrid_provider_error_fallback :
  forall env a pd src p e,
  cfgMode a = "hybrid" -> provider a = Some p ->
  Analyze p (Content pd) (HybridPrompt (Scorer.AnalyzeContent (Content pd) pd)) = inr e ->
  exists r, snd (analyzePageData env a pd src) = inl r /\
    FinalScore r = Scorer.Overall (Scorer.AnalyzeContent (Content pd) pd) /\
    meta_get "scoring_method" (Metadata r) = Some (MStr "local_only_fallback") /\
    meta_get "llm_error" (Metadata r) = Some (MStr e).
Proof.
  intros env a pd src p e Hm Hp Han. run_apd. rewrite Hm, Hp.
  cbn -[Scorer.AnalyzeContent extractScoreFromLLMResponse]. rewrite Han.
  eexists; split; [reflexivity|]. repeat split.
Qed.

Lemma hybrid_provider_error_fallback_witness :
  let a := New claude_env (fun _ _ => inl (failing_provider "rate limited"))
             {| Mode := "hybrid"; LLMProvider := "claude"; CModel := "m" |} in
  cfgMode a = "hybrid" /\ provider a = Some (failing_provider "rate limited") /\
  exists r, snd (analyzePageData claude_env a hello_page "https://example.com") = inl r /\
    FinalScore r = Scorer.Overall (Scorer.AnalyzeContent "Hello" hello_page) /\
    meta_get "scoring_method" (Metadata r) = Some (MStr "local_only_fallback") /\
    meta_get "llm_error" (Metadata r) = Some (MStr "rate limited").
Proof.
  intro a. split; [reflexivity|]. split; [reflexivity|].
  apply (hybrid_provider_error_fallback claude_env a hello_page "https://example.com"
           (failing_provider "rate limited") "rate limited"); reflexivity.
Defined.

Lemma New_auto_mode : forall env np cfg,
  (Mode cfg = "auto" \/ Mode cfg = "") ->
  (determineOptimalMode env (LLMProvider cfg) = "local" ->
     cfgMode (New env np cfg) = "local" /\ provider (New env np cfg) = None) /\
  (determineOptimalMode env (LLMProvider cfg) = "hybrid" ->
     (cfgMode (New env np cfg) = "hybrid" /\ exists p, provider (New env np cfg) = Some p) \/
     (cfgMode (New env np cfg) = "local" /\ provider (New env np cfg) = None)).
Proof.
  intros env np cfg Hauto.
  assert (Hb : (String.eqb (Mode cfg) "auto" || String.eqb (Mode cfg) "") = true).
  { destruct Hauto as [H|H]; rewrite H; reflexivity. }
  unfold New. rewrite Hb.
  split; intro Hd; rewrite Hd; cbn -[hasValidAPIKey getAPIKey]; [split; reflexivity|].
  match goal with |- context [np ?x ?y] => destruct (np x y) as [p|err] end;
    cbn; [left; split; [reflexivity|exists p; reflexivity]|right; split; reflexivity].
Qed.

(** C6: auto (or unset) mode is resolved in New, before any scoring: to
    hybrid if the configured provider, or else openai or claude, has a
    syntactically valid key, and to local otherwise (hybrid falls back to
    local when the provider cannot be constructed); an analyzer whose mode
    is local never calls Provider.Analyze, neither in analyzePageData nor in
    AnalyzeURL (the log of calls is empty). *)
Theorem auto_mode_resolution :
  (forall env prov, determineOptimalMode env prov
     = if hasValidAPIKey env prov || hasValidAPIKey env "openai" || hasValidAPIKey env "claude"
       then "hybrid" else "local") /\
  (forall env np cfg, (Mode cfg = "auto" \/ Mode cfg = "") ->
     hasValidAPIKey env (LLMProvider cfg) = false ->
     hasValidAPIKey env "openai" = false -> hasValidAPIKey env "claude" = false ->
     cfgMode (New env np cfg) = "local" /\ provider (New env np cfg) = None) /\
  (forall env np cfg, (Mode cfg = "auto" \/ Mode cfg = "") ->
     hasValidAPIKey env (LLMProvider cfg) || hasValidAPIKey env "openai"
       || hasValidAPIKey env "claude" = true ->
     (cfgMode (New env np cfg) = "hybrid" /\ exists p, provider (New env np cfg) = Some p) \/
     (cfgMode (New env np cfg) = "local" /\ provider (New env np cfg) = None)) /\
  (forall env a pd src, cfgMode a = "local" -> fst (analyzePageData env a pd src) = []) /\
  (forall env scrape a url, cfgMode a = "local" -> fst (AnalyzeURL env scrape a url) = []).
Proof.
  assert (Hdet : forall env prov, determineOptimalMode env prov
     = if hasValidAPIKey env prov || hasValidAPIKey env "openai" || hasValidAPIKey env "claude"
       then "hybrid" else "local").
  { intros env prov. unfold determineOptimalMode. simpl.
    destruct (hasValidAPIKey env prov), (hasValidAPIKey env "openai"),
             (hasValidAPIKey env "claude"); reflexivity. }
  assert (Hloc : forall env a pd src, cfgMode a = "local" -> fst (analyzePageData env a pd src) = []).
  { intros env a pd src Hm. unfold analyzePageData. rewrite Hm. reflexivity. }
  split; [exact Hdet|]. split.
  { intros env np cfg Hauto H1 H2 H3. apply (New_auto_mode env np cfg Hauto).
    rewrite Hdet, H1, H2, H3. reflexivity. }
  split.
  { intros env np cfg Hauto Hv. apply (New_auto_mode env np cfg Hauto).
    rewrite Hdet, Hv. reflexivity. }
  split; [exact Hloc|].
  intros env scrape a url Hm. unfold AnalyzeURL.
  destruct (scrape url) as [pd|err]; [|reflexivity].
  destruct (all_space (Content pd)); [reflexivity|]. apply Hloc. exact Hm.
Qed.

Lemma auto_mode_resolution_witness :
  let cfg := {| Mode := "auto"; LLMProvider := "claude"; CModel := "m" |} in
  let np : NewProviderFn := fun _ _ => inl (fixed_provider "Score: 90") in
  (cfgMode (New empty_env np cfg) = "local" /\ provider (New empty_env np cfg) = None) /\
  ((cfgMode (New claude_env np cfg) = "hybrid" /\ exists p, provider (New claude_env np cfg) = Some p) \/
   (cfgMode (New claude_env np cfg) = "local" /\ provider (New claude_env np cfg) = None)) /\
  fst (analyzePageData empty_env (New empty_env np cfg) hello_page "https://example.com") = [].
Proof.
  intros cfg np.
  destruct auto_mode_resolution as [_ [Hno [Hyes [Hloc _]]]].
  assert (Hl : cfgMode (New empty_env np cfg) = "local" /\ provider (New empty_env np cfg) = None).
  { apply Hno; [left|..]; reflexivity. }
  split; [exact Hl|]. split.
  - apply Hyes; [left|]; reflexivity.
  - apply Hloc. exact (proj1 Hl).
Defined.

(** C10: "Score: 0" extracts to 0, the extractor's failure value, and an
    extracted 0 never enters the final score: in llm mode (no stored
    initialisation error) the result is the one of a failed extraction
    (local overall score, scoring method llm_no_score_fallback, no
    llm_score); in hybrid mode the final score is the local overall score
    and neither scoring_method nor llm_score is set. *)
Theorem zero_score_is_no_score :
  extractScoreFromLLMResponse "Score: 0" = 0 /\
  forall env a pd src p resp,
  provider a = Some p -> extractScoreFromLLMResponse (RContent resp) = 0 ->
  let local := Scorer.AnalyzeContent (Content pd) pd in
  (cfgMode a = "llm" -> initError a = None ->
   Analyze p (Content pd) GeoPrompt = inl resp ->
   exists r, snd (analyzePageData env a pd src) = inl r /\
     FinalScore r = Scorer.Overall local /\
     meta_get "scoring_method" (Metadata r) = Some (MStr "llm_no_score_fallback") /\
     meta_get "llm_score" (Metadata r) = None) /\
  (cfgMode a = "hybrid" ->
   Analyze p (Content pd) (HybridPrompt local) = inl resp ->
   exists r, snd (analyzePageData env a pd src) = inl r /\
     FinalScore r = Scorer.Overall local /\
     meta_get "scoring_method" (Metadata r) = None /\
     meta_get "llm_score" (Metadata r) = None).
Proof.
  split; [vm_compute; reflexivity|].
  intros env a pd src p resp Hp Hx local. split.
  - intros Hm Hi Han. run_apd. rewrite Hm, Hi, Hp.
    cbn -[Scorer.AnalyzeContent extractScoreFromLLMResponse].
    rewrite Han, Hx. eexists; split; [reflexivity|]. repeat split.
  - intros Hm Han. run_apd. rewrite Hm, Hp.
    cbn -[Scorer.AnalyzeContent extractScoreFromLLMResponse].
    fold local. rewrite Han, Hx. eexists; split; [reflexivity|]. repeat split.
Qed.

Lemma zero_score_is_no_score_witness :
  let a := New claude_env (fun _ _ => inl (fixed_provider "Score: 0"))
             {| Mode := "hybrid"; LLMProvider := "claude"; CModel := "m" |} in
  let resp := {| RContent := "Score: 0"; RTokensUsed := 0; RModel := "fixed-model" |} in
  exists r, snd (analyzePageData claude_env a hello_page "https://example.com") = inl r /\
    FinalScore r = Scorer.Overall (Scorer.AnalyzeContent "Hello" hello_page) /\
    meta_get "scoring_method" (Metadata r) = None /\
    meta_get "llm_score" (Metadata r) = None.
Proof.
  intros a resp.
  apply (proj2 (proj2 zero_score_is_no_score claude_env a hello_page "https://example.com"
                  (fixed_provider "Score: 0") resp eq_refl
                  ltac:(vm_compute; reflexivity))); reflexivity.
Defined.

Module BulkFacts.
Import Bulk.
Local Open Scope nat_scope.

Lemma set_length : forall {A} (l : list A) i x, i < List.length l ->
  List.length (set l i x) = List.length l.
Proof.
  intros A l i x H. unfold set. rewrite length_app, firstn_length_le by lia.
  cbn [List.length]. rewrite length_skipn. unfold Nat.succ. lia.
Qed.

Lemma set_nth_eq : forall {A} (l : list A) i x, i < List.length l ->
  nth_error (set l i x) i = Some x.
Proof.
  intros A l i x H. unfold set. rewrite nth_error_app2; rewrite firstn_length_le by lia.
  - rewrite Nat.sub_diag. reflexivity.
  - lia.
Qed.

Lemma set_nth_neq : forall {A} (l : list A) i j x, i < List.length l -> j <> i ->
  nth_error (set l i x) j = nth_error l j.
Proof.
  intros A l. induction l as [|a l IH]; intros i j x H Hji; simpl in H; [lia|].
  destruct i as [|i]; destruct j as [|j]; try lia; try reflexivity.
  change (nth_error ((a :: firstn i l) ++ x :: skipn (Nat.succ i) l) (Nat.succ j)
          = nth_error l j).
  apply IH; lia.
Qed.

Lemma set_sum : forall {A} (f : A -> nat) (l : list A) i x y, nth_error l i = Some y ->
  list_sum (map f (set l i x)) + f y = list_sum (map f l) + f x.
Proof.
  intros A f l. induction l as [|a l IH]; intros i x y H; destruct i as [|i]; try discriminate.
  - injection H as <-. unfold set. simpl. lia.
  - unfold set in *. simpl in *. specialize (IH i x y H). lia.
Qed.

Lemma nth_error_lt : forall {A} (l : list A) i y, nth_error l i = Some y -> i < List.length l.
Proof. intros A l i y H. apply nth_error_Some. congruence. Qed.

Section RunFacts.
Variable env : Env.
Variable cfg : Config.
Variable concurrent : Z.
Variable urls : list string.

Lemma Inv_init : Inv env cfg urls (init urls).
Proof.
  unfold Inv, init; simpl. rewrite !length_map. repeat split.
  - intros i b H. rewrite nth_error_map in H.
    destruct (nth_error urls i); discriminate.
  - intros Hp. rewrite nth_error_map in H.
    destruct (nth_error urls i); [injection H as <-|discriminate].
    destruct Hp as [Hp|Hp]; discriminate.
  - intros [b Hb]. rewrite nth_error_map in Hb. destruct (nth_error urls i); discriminate.
  - clear. induction urls as [|u r IH]; simpl; lia.
Qed.

Lemma Inv_step : forall s s', Inv env cfg urls s -> step env cfg concurrent urls s s' -> Inv env cfg urls s'.
Proof.
  intros s s' [Hlp [Hlr [Hres [Hiff Hsem]]]] Hst.
  destruct Hst as [s i Hi Hc | s i u o Hi Hu Ho | s i Hi]; unfold Inv; simpl;
    pose proof (nth_error_lt _ _ _ Hi) as Hlt.
  - rewrite set_length by exact Hlt. split; [exact Hlp|]. split; [exact Hlr|].
    split; [exact Hres|]. split.
    + intros j p Hj. destruct (Nat.eq_dec j i) as [->|Hne].
      * rewrite set_nth_eq in Hj by exact Hlt. injection Hj as <-.
        rewrite <- (Hiff i Spawned Hi). split; intros [H|H]; discriminate.
      * rewrite set_nth_neq in Hj by assumption. exact (Hiff j p Hj).
    + pose proof (set_sum busy (phases s) i Holding Spawned Hi). simpl in *. unfold Nat.succ. lia.
  - assert (Hlt' : i < List.length (results s)) by lia.
    rewrite !set_length by assumption. split; [exact Hlp|]. split; [exact Hlr|]. split.
    + intros j b Hj. destruct (Nat.eq_dec j i) as [->|Hne].
      * rewrite set_nth_eq in Hj by exact Hlt'. injection Hj as <-. eauto.
      * rewrite set_nth_neq in Hj by assumption. exact (Hres j b Hj).
    + split.
      * intros j p Hj. destruct (Nat.eq_dec j i) as [->|Hne].
        -- rewrite set_nth_eq in Hj by exact Hlt. injection Hj as <-.
           rewrite set_nth_eq by exact Hlt'. split; eauto.
        -- rewrite set_nth_neq in Hj by assumption. rewrite set_nth_neq by assumption.
           exact (Hiff j p Hj).
      * pose proof (set_sum busy (phases s) i Written Holding Hi). simpl in *. lia.
  - rewrite set_length by exact Hlt. split; [exact Hlp|]. split; [exact Hlr|].
    split; [exact Hres|]. split.
    + intros j p Hj. destruct (Nat.eq_dec j i) as [->|Hne].
      * rewrite set_nth_eq in Hj by exact Hlt. injection Hj as <-.
        rewrite <- (Hiff i Written Hi). split; intros _; [left|right]; reflexivity.
      * rewrite set_nth_neq in Hj by assumption. exact (Hiff j p Hj).
    + pose proof (set_sum busy (phases s) i Finished Written Hi). simpl in *.
      rewrite <- Nat.sub_1_r. lia.
Qed.

Lemma Inv_reachable : forall s, reachable env cfg concurrent urls s -> Inv env cfg urls s.
Proof.
  induction 1 as [|s s' _ IH Hst]; [exact Inv_init|]. exact (Inv_step s s' IH Hst).
Qed.

Lemma step_remaining : forall s s', step env cfg concurrent urls s s' ->
  remaining s' < remaining s.
Proof.
  unfold remaining. intros s s' Hst.
  destruct Hst as [s i Hi Hc | s i u o Hi Hu Ho | s i Hi]; simpl.
  - pose proof (set_sum weight (phases s) i Holding Spawned Hi). simpl in *. lia.
  - pose proof (set_sum weight (phases s) i Written Holding Hi). simpl in *. lia.
  - pose proof (set_sum weight (phases s) i Finished Written Hi). simpl in *. lia.
Qed.

Lemma some_outcome : forall u, exists o, Outcome env cfg u o.
Proof.
  intro u. exists (snd (AnalyzeURL env (fun _ => inr "unreachable") (New env (fun _ _ => inr "") cfg) u)).
  exists (fun _ => inr "unreachable"), (fun _ _ => inr ""). reflexivity.
Qed.

Lemma busy_zero : forall l, ~ In Holding l -> ~ In Written l -> list_sum (map busy l) = 0.
Proof.
  induction l as [|p l IH]; intros H1 H2; simpl; [reflexivity|].
  destruct p; simpl in *; try (exfalso; tauto); apply IH; tauto.
Qed.

Lemma progress : (0 < concurrent)%Z -> forall s, Inv env cfg urls s -> ~ all_done s ->
  exists s', step env cfg concurrent urls s s'.
Proof.
  intros Hc s [Hlp [Hlr [Hres [Hiff Hsem]]]] Hnd.
  destruct (in_dec phase_eq_dec Holding (phases s)) as [Hh|Hh].
  { apply In_nth_error in Hh as [i Hi].
    assert (Hlt : i < List.length urls) by (rewrite <- Hlp; exact (nth_error_lt _ _ _ Hi)).
    destruct (nth_error urls i) as [u|] eqn:Hu; [|apply nth_error_None in Hu; lia].
    destruct (some_outcome u) as [o Ho]. eexists. eapply step_write; eassumption. }
  destruct (in_dec phase_eq_dec Written (phases s)) as [Hw|Hw].
  { apply In_nth_error in Hw as [i Hi]. eexists. eapply step_release; eassumption. }
  assert (Hsp : In Spawned (phases s)).
  { unfold all_done in Hnd. rewrite Forall_forall in Hnd.
    destruct (in_dec phase_eq_dec Spawned (phases s)) as [H|H]; [exact H|].
    exfalso. apply Hnd. intros p Hp. destruct p; congruence. }
  apply In_nth_error in Hsp as [i Hi]. eexists. apply (step_acquire _ _ _ _ s i Hi).
  rewrite Hsem, (busy_zero (phases s) Hh Hw). simpl. exact Hc.
Qed.

Lemma done_results : forall s, Inv env cfg urls s -> all_done s ->
  forall i u, nth_error urls i = Some u ->
  exists o, nth_error (results s) i = Some (Some (mkBulk u o)) /\ Outcome env cfg u o.
Proof.
  intros s [Hlp [Hlr [Hres [Hiff Hsem]]]] Hd i u Hu.
  assert (Hlt : i < List.length (phases s)) by (rewrite Hlp; exact (nth_error_lt _ _ _ Hu)).
  destruct (nth_error (phases s) i) as [p|] eqn:Hp; [|apply nth_error_None in Hp; lia].
  assert (Hf : p = Finished).
  { unfold all_done in Hd. rewrite Forall_forall in Hd. apply Hd.
    exact (nth_error_In _ _ Hp). }
  destruct (proj1 (Hiff i p Hp) (or_intror Hf)) as [b Hb].
  destruct (Hres i b Hb) as [u' [o [Hu' [Ho ->]]]].
  rewrite Hu in Hu'. injection Hu' as <-. eauto.
Qed.

Lemma step_keeps_written : forall s s' i b, Inv env cfg urls s -> step env cfg concurrent urls s s' ->
  nth_error (results s) i = Some (Some b) -> nth_error (results s') i = Some (Some b).
Proof.
  intros s s' i b [Hlp [Hlr [Hres [Hiff Hsem]]]] Hst Hb.
  destruct Hst as [s j Hj Hc | s j u o Hj Hu Ho | s j Hj]; simpl; try exact Hb.
  destruct (Nat.eq_dec i j) as [->|Hne].
  - exfalso. destruct (proj2 (Hiff j Holding Hj) (ex_intro _ b Hb)) as [H|H]; discriminate.
  - pose proof (nth_error_lt _ _ _ Hj).
    rewrite set_nth_neq; [exact Hb|lia|exact Hne].
Qed.

Lemma New_initError : forall np e, initError (New env np cfg) = Some e -> e <> "".
Proof.
  intros np e. unfold New.
  match goal with |- context [let '(_, _) := ?x in _] => destruct x as [mode prov] end.
  destruct (negb (String.eqb mode "local")); simpl; [|discriminate].
  match goal with |- context [np ?x ?y] => destruct (np x y) as [p|err] end;
    simpl; [discriminate|].
  destruct (String.eqb mode "llm"); simpl; [|discriminate].
  intros H. injection H as <-. discriminate.
Qed.

Lemma analyzePageData_err : forall a pd src e,
  (forall e', initError a = Some e' -> e' <> "") ->
  snd (analyzePageData env a pd src) = inr e -> e <> "".
Proof.
  intros a pd src e Hi. unfold analyzePageData, bind, call_analyze, ret.
  destruct (String.eqb (cfgMode a) "local"); [discriminate|].
  destruct (String.eqb (cfgMode a) "llm").
  - destruct (initError a) as [e'|] eqn:He.
    + simpl. intro H. injection H as <-. exact (Hi e' eq_refl).
    + destruct (provider a) as [p|]; simpl.
      * match goal with |- context [Analyze p ?x ?y] => destruct (Analyze p x y) as [resp|err] end;
          simpl.
        -- match goal with |- context [(0 <? ?x)%Z] => destruct (0 <? x)%Z end;
           simpl; intro H; discriminate H.
        -- intro H. injection H as <-. discriminate.
      * intro H. injection H as <-. discriminate.
  - destruct (String.eqb (cfgMode a) "hybrid"); [|discriminate].
    destruct (provider a) as [p|]; simpl; [|discriminate].
    match goal with |- context [Analyze p ?x ?y] => destruct (Analyze p x y) as [resp|err] end;
      simpl; [|discriminate].
    match goal with |- context [(0 <? ?x)%Z] => destruct (0 <? x)%Z end;
      simpl; intro H; discriminate H.
Qed.

Lemma Outcome_err : forall u e, Outcome env cfg u (inr e) -> e <> "".
Proof.
  intros u e [scrape [np Ho]]. revert Ho. unfold AnalyzeURL.
  destruct (scrape u) as [pd|err]; simpl.
  - destruct (all_space (Content pd)); simpl.
    + intro H. injection H as H. subst. discriminate.
    + intro H. symmetry in H. revert H. apply analyzePageData_err. apply New_initError.
  - intro H. injection H as H. subst. discriminate.
Qed.

Lemma mkBulk_exactly_one : forall u o, Outcome env cfg u o ->
  BURL (mkBulk u o) = u /\
  ((exists r, BResult (mkBulk u o) = Some r /\ o = inl r) /\ BError (mkBulk u o) = "" \/
   BResult (mkBulk u o) = None /\ BError (mkBulk u o) <> "" /\ o = inr (BError (mkBulk u o))).
Proof.
  intros u [r|e] Ho; simpl; split; try reflexivity.
  - left. split; [exists r; split; reflexivity|reflexivity].
  - right. split; [reflexivity|]. split; [exact (Outcome_err u e Ho)|reflexivity].
Qed.

End RunFacts.
End BulkFacts.

Section BatchRunner.
Import Bulk BulkFacts.

(** C4 (as amended: for every concurrency limit > 0): in every
    interleaving of the goroutines, a run that is not finished can always
    take a step and every step decreases the number of steps left, so every
    run reaches wg.Wait()'s return; the results then have the length of the
    input, slot i holds the BulkResult built from urls[i] and an outcome of
    AnalyzeURL(urls[i]) with exactly one of Result and Error present, and
    no step ever changes a slot once written. *)
Theorem batch_results_ordered :
  forall env cfg concurrent urls, (0 < concurrent)%Z ->
  (forall s, reachable env cfg concurrent urls s -> ~ all_done s ->
     exists s', step env cfg concurrent urls s s') /\
  (forall s s', step env cfg concurrent urls s s' -> (remaining s' < remaining s)%nat) /\
  (forall s, reachable env cfg concurrent urls s -> all_done s ->
     List.length (results s) = List.length urls /\
     forall i u, nth_error urls i = Some u ->
       exists b o, nth_error (results s) i = Some (Some b) /\ BURL b = u /\
         Outcome env cfg u o /\ b = mkBulk u o /\
         ((exists r, BResult b = Some r /\ o = inl r) /\ BError b = "" \/
          BResult b = None /\ BError b <> "" /\ o = inr (BError b))) /\
  (forall s s' i b, reachable env cfg concurrent urls s -> step env cfg concurrent urls s s' ->
     nth_error (results s) i = Some (Some b) -> nth_error (results s') i = Some (Some b)).
Proof.
  intros env cfg concurrent urls Hc. split; [|split; [|split]].
  - intros s Hr Hnd. exact (progress env cfg concurrent urls Hc s (Inv_reachable _ _ _ _ s Hr) Hnd).
  - exact (step_remaining env cfg concurrent urls).
  - intros s Hr Hd. pose proof (Inv_reachable _ _ _ _ s Hr) as Hinv.
    split; [exact (proj1 (proj2 Hinv))|].
    intros i u Hu. destruct (done_results env cfg urls s Hinv Hd i u Hu) as [o [Hi Ho]].
    exists (mkBulk u o), o. destruct (mkBulk_exactly_one env cfg u o Ho) as [Hurl Hx].
    split; [exact Hi|]. split; [exact Hurl|]. split; [exact Ho|]. split; [reflexivity|exact Hx].
  - intros s s' i b Hr Hst Hb.
    exact (step_keeps_written env cfg concurrent urls s s' i b (Inv_reachable _ _ _ _ s Hr) Hst Hb).
Qed.

End BatchRunner.

Lemma batch_results_ordered_witness :
  let cfg := {| Mode := "local"; LLMProvider := "claude"; CModel := "m" |} in
  (0 < 2)%Z /\
  (forall s, Bulk.reachable empty_env cfg 2 ["https://a.example"; "https://b.example"] s ->
     Bulk.all_done s -> List.length (Bulk.results s) = 2%nat).
Proof.
  intro cfg. split; [lia|]. intros s Hr Hd.
  destruct (batch_results_ordered empty_env cfg 2 ["https://a.example"; "https://b.example"]
              ltac:(lia)) as [_ [_ [H _]]].
  exact (proj1 (H s Hr Hd)).
Defined.

(** C4 fails for the concurrency limit 0: the semaphore channel is
    unbuffered and no goroutine can ever acquire it, so for every
    non-empty input the initial state is the only reachable one; there
    wg.Wait() never returns and every slot is still empty (no result
    sequence is produced).  The sample input shows the initial state is
    reachable. *)
Lemma batch_zero_concurrency_counterexample :
  (forall env cfg urls s, urls <> [] -> Bulk.reachable env cfg 0 urls s ->
     s = Bulk.init urls /\ ~ Bulk.all_done s /\
     Forall (fun r => r = None) (Bulk.results s)) /\
  Bulk.reachable empty_env {| Mode := "local"; LLMProvider := "claude"; CModel := "m" |} 0
    ["https://example.com"] (Bulk.init ["https://example.com"]).
Proof.
  split; [|constructor].
  intros env cfg urls s Hne Hr.
  assert (Hs : s = Bulk.init urls).
  { induction Hr as [|s s' _ IH Hst]; [reflexivity|]. subst s.
    exfalso. inversion Hst as [s0 i Hi Hc | s0 i u o Hi Hu Ho | s0 i Hi]; subst.
    - cbn in Hc. lia.
    - cbn [Bulk.init Bulk.phases] in Hi. rewrite nth_error_map in Hi.
      destruct (nth_error urls i); discriminate Hi.
    - cbn [Bulk.init Bulk.phases] in Hi. rewrite nth_error_map in Hi.
      destruct (nth_error urls i); discriminate Hi. }
  subst s. split; [reflexivity|split].
  - destruct urls as [|u rest]; [contradiction|].
    unfold Bulk.all_done. cbn. intro H. inversion H. discriminate.
  - apply Forall_forall. intros x Hx. cbn [Bulk.init Bulk.results] in Hx.
    apply in_map_iff in Hx. destruct Hx as [y [<- _]]. reflexivity.
Qed.

(* ------------------------------------------------------------------ *)
(** ** Binary64 facts *)
Module FloatFacts.

Lemma digits2_pos_size : forall p, digits2_pos p = Pos.size p.
Proof. induction p; simpl; congruence. Qed.

Lemma size_iter_xO : forall k p, Pos.size (Pos.iter xO p k) = (Pos.size p + k)%positive.
Proof.
  induction k using Pos.peano_ind; intro p.
  - simpl. rewrite Pos.add_1_r. reflexivity.
  - rewrite Pos.iter_succ. simpl. rewrite IHk. lia.
Qed.

Lemma size_bound : forall p, Zpos p < 2 ^ 53 -> (Pos.size p <= 53)%positive.
Proof.
  intros p Hp. pose proof (Pos.size_le p) as H.
  apply Pos2Z.pos_le_pos in H. rewrite Pos2Z.inj_pow, Pos2Z.inj_xO in H.
  rewrite Z.mul_1_r in H.
  destruct (Z.le_gt_cases (Zpos (Pos.size p)) 53) as [H1|H1]; [exact H1|exfalso].
  assert (H2 : 2 ^ 54 <= 2 ^ Zpos (Pos.size p)) by (apply Z.pow_le_mono_r; lia).
  lia.
Qed.

(** Rounding a 53-bit mantissa is exact. *)
Lemma round_aux_exact : forall m e, Pos.size m = 53%positive -> -52 <= e <= 0 ->
  binary_round_aux prec emax false (Zpos m) e loc_Exact = S754_finite false m e.
Proof.
  intros m e Hs He. unfold binary_round_aux, shr_fexp.
  cbn [Zdigits2]. rewrite digits2_pos_size, Hs.
  assert (Hf : fexp prec emax (Zpos 53 + e) - e = 0).
  { unfold fexp, emin, prec, emax. lia. }
  rewrite Hf. cbn [shr shr_record_of_loc shr_m loc_of_shr_record round_nearest_even Zdigits2].
  rewrite digits2_pos_size, Hs, Hf. cbn [shr shr_m].
  replace (Z.leb e (emax - prec)) with true by (symmetry; apply Z.leb_le; unfold emax, prec; lia).
  reflexivity.
Qed.

(** float64(n) of a positive int below 2^53 is a positive finite float. *)
Lemma of_int_finite : forall n, 0 < n < 2 ^ 53 ->
  exists m e, Prim2SF (F64.of_int n) = S754_finite false m e.
Proof.
  intros n Hn. unfold F64.of_int. rewrite of_uint63_spec, Uint63.of_Z_spec.
  rewrite Z.mod_small by (unfold wB, size; simpl; lia).
  destruct n as [|p|p]; try lia. unfold binary_normalize, binary_round.
  rewrite digits2_pos_size. pose proof (size_bound p (proj2 Hn)) as Hs.
  assert (Hf : fexp prec emax (Zpos (Pos.size p) + 0) = Zpos (Pos.size p) - 53).
  { unfold fexp, emin, prec, emax. lia. }
  rewrite Hf. unfold shl_align.
  destruct (Pos.eq_dec (Pos.size p) 53) as [Heq|Hne].
  - rewrite Heq. simpl (Zpos 53 - 53 - 0).
    exists p, 0. apply round_aux_exact; [exact Heq|lia].
  - assert (Hk : Zpos (Pos.size p) - 53 - 0 = Zneg (53 - Pos.size p)).
    { rewrite Z.sub_0_r, <- Pos2Z.opp_pos, Pos2Z.inj_sub by lia. lia. }
    rewrite Hk. exists (Pos.iter xO p (53 - Pos.size p)), (Zpos (Pos.size p) - 53).
    apply round_aux_exact; [rewrite size_iter_xO; lia|lia].
Qed.

Lemma div_eucl_div_mod : forall a b, Z.div_eucl a b = (a / b, a mod b).
Proof. intros a b. unfold Z.div, Z.modulo. destruct (Z.div_eucl a b). reflexivity. Qed.

(** x / x = 1 for a finite non-zero float. *)
Lemma div_self : forall x s m e, Prim2SF x = S754_finite s m e -> (x / x)%float = 1%float.
Proof.
  intros x s m e Hx. apply Prim2SF_inj. rewrite FloatAxioms.div_spec, Hx.
  unfold SF64div, SFdiv, SFdiv_core_binary. rewrite Bool.xorb_nilpotent, !Z.sub_diag.
  assert (He : Z.min (fexp prec emax 0) 0 = -53) by reflexivity. rewrite He.
  cbn [Z.sub Z.opp Z.add Z.pos_sub].
  rewrite Z.shiftl_mul_pow2 by lia.
  rewrite div_eucl_div_mod, Z.mul_comm, Z.div_mul, Z.mod_mul by lia.
  unfold new_location, new_location_even, new_location_odd.
  destruct (Z.even (Zpos m)); vm_compute; reflexivity.
Qed.

Lemma of_int_div_self : forall n, 0 < n < 2 ^ 53 ->
  (F64.of_int n / F64.of_int n)%float = 1%float.
Proof.
  intros n Hn. destruct (of_int_finite n Hn) as [m [e He]]. exact (div_self _ _ _ _ He).
Qed.

Lemma shr_1_m : forall mrs, 0 <= shr_m mrs -> shr_m (shr_1 mrs) = shr_m mrs / 2.
Proof.
  intros [m r s] Hm. simpl in Hm.
  destruct m as [|[p|p|]|p]; simpl; try reflexivity; try lia.
  - apply Z.div_unique with 1; lia.
  - apply Z.div_unique with 0; lia.
Qed.

Lemma iter_shr_1_m : forall p mrs, 0 <= shr_m mrs ->
  shr_m (iter_pos shr_1 p mrs) = shr_m mrs / 2 ^ Zpos p.
Proof.
  assert (Hnn : forall p mrs, 0 <= shr_m mrs -> 0 <= shr_m (iter_pos shr_1 p mrs)).
  { induction p as [p IH|p IH|]; intros mrs Hm; simpl.
    - apply IH, IH. rewrite shr_1_m by exact Hm. apply Z.div_pos; lia.
    - apply IH, IH, Hm.
    - rewrite shr_1_m by exact Hm. apply Z.div_pos; lia. }
  induction p as [p IH|p IH|]; intros mrs Hm; simpl.
  - assert (H1 : 0 <= shr_m (shr_1 mrs)) by (rewrite shr_1_m by exact Hm; apply Z.div_pos; lia).
    rewrite IH by (apply Hnn; exact H1). rewrite IH by exact H1.
    rewrite shr_1_m by exact Hm. rewrite !Z.div_div by (try apply Z.mul_pos_pos; lia).
    f_equal. rewrite <- !Z.pow_add_r by lia. rewrite <- Z.pow_succ_r by lia. change (Z.pow_pos 2 p~1) with (2 ^ Zpos p~1). f_equal. lia.
  - rewrite IH by (apply Hnn; exact Hm). rewrite IH by exact Hm.
    rewrite Z.div_div by lia. f_equal.
    rewrite <- Z.pow_add_r by lia. change (Z.pow_pos 2 p~0) with (2 ^ Zpos p~0). f_equal. lia.
  - apply shr_1_m, Hm.
Qed.

Lemma shr_spec : forall mrs e n, 0 <= shr_m mrs ->
  shr_m (fst (shr mrs e n)) = shr_m mrs / 2 ^ Z.max 0 n /\ snd (shr mrs e n) = e + Z.max 0 n.
Proof.
  intros mrs e [|p|p] Hm; simpl.
  - rewrite Z.div_1_r. split; [reflexivity|lia].
  - split; [apply iter_shr_1_m, Hm|reflexivity].
  - rewrite Z.div_1_r. split; [reflexivity|lia].
Qed.

Lemma shr_nonpos : forall mrs e n, n <= 0 -> shr mrs e n = (mrs, e).
Proof. intros mrs e [|p|p] Hn; [reflexivity|lia|reflexivity]. Qed.

Lemma rne_bounds : forall m l, m <= round_nearest_even m l <= m + 1.
Proof. intros m [|[]]; simpl; try lia. destruct (Z.even m); lia. Qed.

Lemma loc_of_record_of_loc : forall m l, loc_of_shr_record (shr_record_of_loc m l) = l.
Proof. intros m [|[]]; reflexivity. Qed.

Lemma size_lo : forall p, 2 ^ (Zpos (Pos.size p) - 1) <= Zpos p.
Proof.
  intro p. pose proof (Pos.size_le p) as H. apply Pos2Z.pos_le_pos in H.
  rewrite Pos2Z.inj_pow in H. change (Zpos p~0) with (2 * Zpos p) in H.
  replace (Zpos (Pos.size p)) with (Zpos (Pos.size p) - 1 + 1) in H by lia.
  rewrite Z.pow_add_r, Z.pow_1_r in H by lia. lia.
Qed.

Lemma size_hi : forall p, Zpos p < 2 ^ Zpos (Pos.size p).
Proof.
  intro p. pose proof (Pos.size_gt p) as H. apply Pos2Z.pos_lt_pos in H.
  rewrite Pos2Z.inj_pow in H. exact H.
Qed.

Lemma size_le_of_lt : forall p n, Zpos p < 2 ^ n -> Zpos (Pos.size p) <= n.
Proof.
  intros p n H. destruct (Z.le_gt_cases (Zpos (Pos.size p)) n) as [H1|H1]; [exact H1|].
  exfalso. pose proof (size_lo p).
  destruct (Z.le_gt_cases 0 n).
  - assert (2 ^ n <= 2 ^ (Zpos (Pos.size p) - 1)) by (apply Z.pow_le_mono_r; lia). lia.
  - rewrite Z.pow_neg_r in H by lia. lia.
Qed.

Lemma size_ge_of_le : forall p n, 0 <= n -> 2 ^ n <= Zpos p -> n + 1 <= Zpos (Pos.size p).
Proof.
  intros p n Hn H. destruct (Z.le_gt_cases (n + 1) (Zpos (Pos.size p))) as [H1|H1]; [exact H1|].
  exfalso. pose proof (size_hi p).
  assert (2 ^ Zpos (Pos.size p) <= 2 ^ n) by (apply Z.pow_le_mono_r; lia). lia.
Qed.

(** Rounding a positive mantissa in the normal range, to nearest: the
    result is a finite float at an exponent no smaller than [ex], with a
    53-bit mantissa, whose value exceeds [mx * 2^ex] by a relative
    error of at most 2^-52 (exact inputs below 2^53 and rounded inputs of at
    least 53 bits). *)
Lemma round_aux_bound : forall (mx : positive) ex lx,
  -1021 <= Zpos (Pos.size mx) + ex -> ex <= 900 -> Zpos (Pos.size mx) + ex <= 900 ->
  (lx = loc_Exact \/ 2 ^ 52 <= Zpos mx) ->
  exists M E, binary_round_aux prec emax false (Zpos mx) ex lx = S754_finite false M E /\
    ex <= E /\ Zpos M < 2 ^ 53 /\
    2 ^ 52 * Zpos M * 2 ^ (E - ex) <= (2 ^ 52 + 1) * Zpos mx.
Proof.
  intros mx ex lx Hlo Hex Hhi Hl.
  pose proof (size_lo mx) as Hd1. pose proof (size_hi mx) as Hd2.
  set (d := Zpos (Pos.size mx)) in *.
  assert (Hfx : fexp prec emax (Zdigits2 (Zpos mx) + ex) - ex = d - 53).
  { cbn [Zdigits2]. rewrite digits2_pos_size. unfold fexp, emin, prec, emax. fold d. lia. }
  set (k := Z.max 0 (d - 53)).
  destruct (shr_spec (shr_record_of_loc (Zpos mx) lx) ex (d - 53)) as [Hm1 He1];
    [destruct lx as [|[]]; simpl; lia|].
  unfold binary_round_aux, shr_fexp at 1. rewrite Hfx.
  destruct (shr (shr_record_of_loc (Zpos mx) lx) ex (d - 53)) as [mrs' e'] eqn:Hs.
  cbn [fst snd] in Hm1, He1. fold k in Hm1, He1.
  replace (shr_m (shr_record_of_loc (Zpos mx) lx)) with (Zpos mx) in Hm1
    by (destruct lx as [|[]]; reflexivity).
  set (r1 := round_nearest_even (shr_m mrs') (loc_of_shr_record mrs')).
  assert (HK : 0 < 2 ^ k) by (apply Z.pow_pos_nonneg; lia).
  (* the rounded mantissa before the second shift *)
  assert (Hr1 : 1 <= r1 <= 2 ^ 53 /\ 2 ^ 52 * r1 * 2 ^ k <= (2 ^ 52 + 1) * Zpos mx).
  { destruct (Z.le_gt_cases d 53) as [Hd|Hd].
    - assert (Hk : k = 0) by lia.
      rewrite (shr_nonpos _ ex (d - 53) ltac:(lia)) in Hs. injection Hs as <- <-.
      unfold r1. rewrite loc_of_record_of_loc.
      replace (shr_m (shr_record_of_loc (Zpos mx) lx)) with (Zpos mx)
        by (destruct lx as [|[]]; reflexivity).
      rewrite Hk, Z.pow_0_r, Z.mul_1_r.
      assert (Hmx : Zpos mx < 2 ^ 53).
      { apply Z.lt_le_trans with (2 ^ d); [exact Hd2|apply Z.pow_le_mono_r; lia]. }
      pose proof (rne_bounds (Zpos mx) lx).
      destruct Hl as [->|Hl]; cbn [round_nearest_even]; lia.
    - assert (Hk : k = d - 53) by lia.
      assert (HKd : 2 ^ 52 * 2 ^ k = 2 ^ (d - 1)) by (rewrite <- Z.pow_add_r by lia; f_equal; lia).
      assert (HKd' : 2 ^ 53 * 2 ^ k = 2 ^ d) by (rewrite <- Z.pow_add_r by lia; f_equal; lia).
      pose proof (rne_bounds (shr_m mrs') (loc_of_shr_record mrs')) as Hr. fold r1 in Hr.
      rewrite Hm1 in Hr.
      assert (Hq1 : 2 ^ 52 <= Zpos mx / 2 ^ k) by (apply Z.div_le_lower_bound; lia).
      assert (Hq2 : Zpos mx / 2 ^ k < 2 ^ 53) by (apply Z.div_lt_upper_bound; lia).
      pose proof (Z.mul_div_le (Zpos mx) (2 ^ k) HK) as Hq3.
      split; [lia|].
      assert (r1 * 2 ^ k <= (Zpos mx / 2 ^ k) * 2 ^ k + 2 ^ k) by nia.
      nia. }
  destruct Hr1 as [[Hr1a Hr1b] Hr1c].
  destruct r1 as [|pr|pr] eqn:Er1; try lia.
  pose proof (size_lo pr) as Hd3. pose proof (size_hi pr) as Hd4.
  set (d' := Zpos (Pos.size pr)) in *.
  assert (Hd' : d' <= 54) by (apply size_le_of_lt; lia).
  assert (Hfx2 : fexp prec emax (Zdigits2 (Zpos pr) + e') - e' = Z.max (d' - 53) (-1074 - e')).
  { cbn [Zdigits2]. rewrite digits2_pos_size. unfold fexp, emin, prec, emax. fold d'. lia. }
  set (j := Z.max 0 (d' - 53)).
  assert (Hj : Z.max 0 (Z.max (d' - 53) (-1074 - e')) = j) by (unfold j, k in *; lia).
  unfold shr_fexp. rewrite Hfx2.
  destruct (shr_spec (shr_record_of_loc (Zpos pr) loc_Exact) e'
              (Z.max (d' - 53) (-1074 - e'))) as [Hm2 He2]; [cbn; lia|].
  destruct (shr (shr_record_of_loc (Zpos pr) loc_Exact) e'
              (Z.max (d' - 53) (-1074 - e'))) as [mrs'' e''] eqn:Hs2.
  cbn [fst snd shr_m shr_record_of_loc] in Hm2, He2. rewrite Hj in Hm2, He2.
  assert (HJ : 0 < 2 ^ j) by (apply Z.pow_pos_nonneg; lia).
  assert (HM : 1 <= Zpos pr / 2 ^ j < 2 ^ 53).
  { destruct (Z.le_gt_cases d' 53) as [Hd5|Hd5].
    - replace j with 0 by lia. rewrite Z.pow_0_r, Z.div_1_r. split; [lia|].
      apply Z.lt_le_trans with (2 ^ d'); [exact Hd4|apply Z.pow_le_mono_r; lia].
    - replace j with 1 by lia. replace d' with 54 in Hd3 by lia.
      replace (Zpos pr) with (2 ^ 53) by (simpl in Hd3 |- *; lia). vm_compute. split; congruence. }
  rewrite Hm2. destruct (Zpos pr / 2 ^ j) as [|M|M] eqn:EM; try lia.
  replace (e'' <=? emax - prec) with true
    by (symmetry; apply Z.leb_le; unfold emax, prec, j, k in *; lia).
  exists M, e''. split; [reflexivity|]. split; [lia|]. split; [lia|].
  pose proof (Z.mul_div_le (Zpos pr) (2 ^ j) HJ) as HMj. rewrite EM in HMj.
  replace (e'' - ex) with (k + j) by lia. rewrite Z.pow_add_r by lia.
  nia.
Qed.

Lemma iter_xO_mul : forall k p, Zpos (Pos.iter xO p k) = Zpos p * 2 ^ Zpos k.
Proof.
  induction k using Pos.peano_ind; intro p.
  - simpl. lia.
  - rewrite Pos.iter_succ, Pos2Z.inj_xO, IHk, Pos2Z.inj_succ, Z.pow_succ_r by lia. ring.
Qed.

Lemma of_int_spec : forall n, 0 < n < 2 ^ 53 ->
  exists m e, Prim2SF (F64.of_int n) = S754_finite false m e /\
    Pos.size m = 53%positive /\ -52 <= e <= 0 /\ Zpos m = n * 2 ^ (- e).
Proof.
  intros n Hn. unfold F64.of_int. rewrite of_uint63_spec, Uint63.of_Z_spec.
  rewrite Z.mod_small by (unfold wB, size; simpl; lia).
  destruct n as [|p|p]; try lia. unfold binary_normalize, binary_round.
  rewrite digits2_pos_size. pose proof (size_bound p (proj2 Hn)) as Hs.
  assert (Hf : fexp prec emax (Zpos (Pos.size p) + 0) = Zpos (Pos.size p) - 53).
  { unfold fexp, emin, prec, emax. lia. }
  rewrite Hf. unfold shl_align.
  destruct (Pos.eq_dec (Pos.size p) 53) as [Heq|Hne].
  - rewrite Heq. simpl (Zpos 53 - 53 - 0).
    exists p, 0. split; [apply round_aux_exact; [exact Heq|lia]|].
    split; [exact Heq|]. split; [lia|]. simpl. lia.
  - assert (Hk : Zpos (Pos.size p) - 53 - 0 = Zneg (53 - Pos.size p)).
    { rewrite Z.sub_0_r, <- Pos2Z.opp_pos, Pos2Z.inj_sub by lia. lia. }
    rewrite Hk. exists (Pos.iter xO p (53 - Pos.size p)), (Zpos (Pos.size p) - 53).
    split; [apply round_aux_exact; [rewrite size_iter_xO; lia|lia]|].
    split; [rewrite size_iter_xO; lia|]. split; [lia|].
    rewrite iter_xO_mul. f_equal. f_equal. rewrite Pos2Z.inj_sub by lia. lia.
Qed.

(** Division of two positive floats with 53-bit mantissas. *)
Lemma div_finite : forall m1 e1 m2 e2,
  Pos.size m1 = 53%positive -> Pos.size m2 = 53%positive -> -52 <= e1 - e2 <= 52 ->
  SF64div (S754_finite false m1 e1) (S754_finite false m2 e2) =
  binary_round_aux prec emax false (Zpos m1 * 2 ^ 53 / Zpos m2) (e1 - e2 - 53)
    (new_location (Zpos m2) (Zpos m1 * 2 ^ 53 mod Zpos m2)).
Proof.
  intros m1 e1 m2 e2 Hs1 Hs2 He. unfold SF64div, SFdiv, SFdiv_core_binary.
  cbn [Zdigits2 xorb]. rewrite (digits2_pos_size m1), (digits2_pos_size m2), Hs1, Hs2.
  replace (Z.min (fexp prec emax (Zpos 53 + e1 - (Zpos 53 + e2))) (e1 - e2))
    with (e1 - e2 - 53) by (unfold fexp, emin, prec, emax; lia).
  replace (e1 - e2 - (e1 - e2 - 53)) with 53 by lia.
  rewrite Z.shiftl_mul_pow2 by lia. rewrite div_eucl_div_mod. reflexivity.
Qed.

Lemma twentyfive : Prim2SF 25%float = S754_finite false 7036874417766400 (-48).
Proof. vm_compute. reflexivity. Qed.

(** int(float64(g) / float64(l) * 25) lies in [0, 25] for 0 <= g <= l < 2^53. *)
Lemma ratio_times_25_bound : forall g l, 0 <= g <= l -> 0 < l < 2 ^ 53 ->
  0 <= F64.to_int ((F64.of_int g / F64.of_int l) * 25)%float <= 25.
Proof.
  intros g l Hg Hl.
  destruct (of_int_spec l Hl) as [m2 [e2 [H2 [Hs2 [He2 Hm2]]]]].
  unfold F64.to_int. rewrite FloatAxioms.mul_spec, FloatAxioms.div_spec, H2, twentyfive.
  destruct (Z.eq_dec g 0) as [->|Hg0].
  { replace (Prim2SF (F64.of_int 0)) with (S754_zero false) by (vm_compute; reflexivity).
    cbn. lia. }
  destruct (of_int_spec g ltac:(lia)) as [m1 [e1 [H1 [Hs1 [He1 Hm1]]]]].
  rewrite H1.
  pose proof (size_lo m1) as Hm1a. pose proof (size_hi m1) as Hm1b.
  pose proof (size_lo m2) as Hm2a. pose proof (size_hi m2) as Hm2b.
  rewrite Hs1 in Hm1a, Hm1b. rewrite Hs2 in Hm2a, Hm2b.
  simpl (Zpos 53 - 1) in Hm1a, Hm2a.
  (* the exponents: g <= l gives e1 <= e2 *)
  assert (He12 : e1 <= e2).
  { destruct (Z.le_gt_cases e1 e2) as [H|H]; [exact H|exfalso].
    assert (HP : 2 * 2 ^ (- e1) <= 2 ^ (- e2)).
    { rewrite <- Z.pow_succ_r by lia. apply Z.pow_le_mono_r; lia. }
    assert (0 < 2 ^ (- e1)) by (apply Z.pow_pos_nonneg; lia).
    assert (g * (2 * 2 ^ (- e1)) <= l * 2 ^ (- e2)) by (apply Z.mul_le_mono_nonneg; lia).
    lia. }
  rewrite div_finite by (first [exact Hs1|exact Hs2|lia]).
  set (T := e2 - e1 + 53).
  replace (e1 - e2 - 53) with (- T) by (unfold T; lia).
  set (q := Zpos m1 * 2 ^ 53 / Zpos m2).
  assert (Hq1 : 2 ^ 52 <= q).
  { apply Z.div_le_lower_bound; [lia|]. nia. }
  assert (Hq2 : q < 2 ^ 54).
  { apply Z.div_lt_upper_bound; [lia|]. nia. }
  assert (HT : 2 ^ T * 2 ^ (- e2) = 2 ^ 53 * 2 ^ (- e1)).
  { rewrite <- !Z.pow_add_r by (unfold T; lia). f_equal. unfold T. lia. }
  assert (Hq3 : q <= 2 ^ T).
  { assert (Hqm : Zpos m2 * q <= Zpos m1 * 2 ^ 53) by (apply Z.mul_div_le; lia).
    rewrite Hm1, Hm2 in Hqm.
    assert (HE2 : 0 < 2 ^ (- e2)) by (apply Z.pow_pos_nonneg; lia).
    assert (HL : l * 2 ^ (- e2) * q <= l * 2 ^ (- e2) * 2 ^ T).
    { apply Z.le_trans with (g * (2 ^ 53 * 2 ^ (- e1))); [lia|].
      rewrite <- HT. replace (l * 2 ^ (- e2) * 2 ^ T) with (l * (2 ^ T * 2 ^ (- e2))) by ring.
      apply Z.mul_le_mono_nonneg_r; [|lia].
      apply Z.mul_nonneg_nonneg; apply Z.pow_nonneg; lia. }
    apply Z.mul_le_mono_pos_l in HL; [exact HL|]. lia. }
  destruct q as [|pq|pq] eqn:Eq; try lia.
  pose proof (size_ge_of_le pq 52 ltac:(lia) Hq1) as Hpq1.
  pose proof (size_le_of_lt pq 54 Hq2) as Hpq2.
  destruct (round_aux_bound pq (- T)
              (new_location (Zpos m2) (Zpos m1 * 2 ^ 53 mod Zpos m2))) as [M [E [HR [HE [HM HMb]]]]];
    [unfold T; lia|unfold T; lia|unfold T; lia|right; exact Hq1|].
  rewrite HR. cbn [SF64mul SFmul xorb].
  assert (HA : 0 < 2 ^ (E - - T)) by (apply Z.pow_pos_nonneg; lia).
  assert (HEup : E <= 3).
  { destruct (Z.le_gt_cases E 3) as [H|H]; [exact H|exfalso].
    assert (2 ^ (T + 4) <= 2 ^ (E - - T)) by (apply Z.pow_le_mono_r; unfold T in *; lia).
    rewrite Z.pow_add_r in H0 by (unfold T; lia).
    assert (0 < 2 ^ T) by (apply Z.pow_pos_nonneg; unfold T; lia).
    nia. }
  pose proof (size_hi (M * 7036874417766400)) as HX.
  assert (HXs : Zpos (Pos.size (M * 7036874417766400)) <= 106).
  { apply size_le_of_lt. rewrite Pos2Z.inj_mul. nia. }
  destruct (round_aux_bound (M * 7036874417766400) (E + -48) loc_Exact)
    as [M' [E' [HR' [HE' [HM' HMb']]]]];
    [unfold T in *; lia|lia|lia|left; reflexivity|].
  rewrite HR'. rewrite Pos2Z.inj_mul in HMb'.
  (* combine the two relative error bounds *)
  set (A := 2 ^ (E - - T)) in *.
  set (B := 2 ^ (E' - (E + -48))).
  assert (HB : 0 < B) by (apply Z.pow_pos_nonneg; lia).
  assert (H3 : 2 ^ 52 * Zpos M * A <= (2 ^ 52 + 1) * 2 ^ T) by nia.
  assert (H4 : 2 ^ 104 * Zpos M' * (A * B) <= (2 ^ 52 + 1) * (2 ^ 52 + 1) * 7036874417766400 * 2 ^ T).
  { assert (H5 : 2 ^ 52 * A * (2 ^ 52 * Zpos M' * B)
                 <= 2 ^ 52 * A * ((2 ^ 52 + 1) * (Zpos M * 7036874417766400)))
      by (apply Z.mul_le_mono_nonneg_l; lia).
    replace (2 ^ 52 * A * ((2 ^ 52 + 1) * (Zpos M * 7036874417766400)))
      with ((2 ^ 52 + 1) * 7036874417766400 * (2 ^ 52 * Zpos M * A)) in H5 by ring.
    assert (H6 : (2 ^ 52 + 1) * 7036874417766400 * (2 ^ 52 * Zpos M * A)
                 <= (2 ^ 52 + 1) * 7036874417766400 * ((2 ^ 52 + 1) * 2 ^ T))
      by (apply Z.mul_le_mono_nonneg_l; lia).
    nia. }
  assert (HAB : A * B = 2 ^ (E' + T + 48)).
  { unfold A, B. rewrite <- Z.pow_add_r by lia. f_equal. lia. }
  rewrite HAB in H4.
  cbn [F64.sf_trunc].
  destruct (0 <=? E') eqn:HE0.
  - apply Z.leb_le in HE0.
    assert (HP : 2 ^ (E' + T + 48) = 2 ^ E' * (2 ^ 48 * 2 ^ T))
      by (rewrite <- !Z.pow_add_r by (unfold T in *; lia); f_equal; lia).
    rewrite HP in H4.
    assert (0 < 2 ^ T) by (apply Z.pow_pos_nonneg; unfold T; lia).
    assert (0 < 2 ^ E') by (apply Z.pow_pos_nonneg; lia).
    split; [lia|nia].
  - apply Z.leb_gt in HE0.
    assert (HP : 2 ^ 48 * 2 ^ T = 2 ^ (E' + T + 48) * 2 ^ (- E'))
      by (rewrite <- !Z.pow_add_r by (unfold T in *; lia); f_equal; lia).
    assert (HC : 0 < 2 ^ (E' + T + 48)) by (apply Z.pow_pos_nonneg; unfold T in *; lia).
    assert (HD : 0 < 2 ^ (- E')) by (apply Z.pow_pos_nonneg; lia).
    split; [apply Z.div_pos; lia|].
    assert (Hlt : Zpos M' < 26 * 2 ^ (- E')) by nia.
    assert (Zpos M' / 2 ^ (- E') < 26) by (apply Z.div_lt_upper_bound; lia).
    lia.
Qed.

End FloatFacts.

(* ------------------------------------------------------------------ *)
(** ** The word counts of evaluateTerminologyConsistency *)
Module TermFacts.
Import Scorer.

Lemma wc_get_incr : forall k w m,
  wc_get k (wc_incr w m) = wc_get k m + (if String.eqb k w then 1 else 0).
Proof.
  intros k w m. induction m as [|[k' c] r IH]; simpl.
  - rewrite String.eqb_sym. destruct (String.eqb k w); reflexivity.
  - destruct (String.eqb k' w) eqn:E; simpl.
    + apply String.eqb_eq in E. subst k'. rewrite (String.eqb_sym w k).
      destruct (String.eqb k w); lia.
    + rewrite IH. destruct (String.eqb k' k) eqn:E2; [|reflexivity].
      apply String.eqb_eq in E2. subst k'. rewrite E. lia.
Qed.

Lemma word_counts_get : forall k ws,
  wc_get k (word_counts ws)
  = if (4 <? String.length k)%nat then Z.of_nat (count_occ string_dec ws k) else 0.
Proof.
  intros k ws. unfold word_counts.
  assert (H : forall ws m, wc_get k (fold_left (fun m w =>
      if (4 <? String.length w)%nat then wc_incr w m else m) ws m)
    = wc_get k m + if (4 <? String.length k)%nat then Z.of_nat (count_occ string_dec ws k) else 0).
  { induction ws0 as [|w r IH]; intro m; simpl.
    - destruct (4 <? String.length k)%nat; lia.
    - rewrite IH. destruct (string_dec w k) as [->|Hne].
      + destruct (4 <? String.length k)%nat; [rewrite wc_get_incr, String.eqb_refl|]; lia.
      + destruct (4 <? String.length w)%nat; [rewrite wc_get_incr|].
        * replace (String.eqb k w) with false
            by (symmetry; apply String.eqb_neq; congruence). lia.
        * lia. }
  rewrite H. reflexivity.
Qed.

Lemma wc_incr_keys : forall k w m, In k (map fst (wc_incr w m)) <-> k = w \/ In k (map fst m).
Proof.
  intros k w m. induction m as [|[k' c] r IH]; simpl.
  - split; intros H; intuition (subst; auto).
  - destruct (String.eqb k' w) eqn:E; simpl.
    + apply String.eqb_eq in E. subst. split; intros H; intuition (subst; auto).
    + rewrite IH. tauto.
Qed.

Lemma wc_incr_nodup : forall w m, NoDup (map fst m) -> NoDup (map fst (wc_incr w m)).
Proof.
  intros w m. induction m as [|[k' c] r IH]; simpl; intro Hnd.
  - constructor; [intros []|constructor].
  - inversion Hnd as [|? ? Hk Hr]; subst.
    destruct (String.eqb k' w) eqn:E; simpl; constructor; auto.
    rewrite wc_incr_keys. intros [H|H]; [|contradiction].
    subst. rewrite String.eqb_refl in E. discriminate.
Qed.

Lemma word_counts_nodup : forall ws, NoDup (map fst (word_counts ws)).
Proof.
  intro ws. unfold word_counts.
  assert (H : forall ws m, NoDup (map fst m) -> NoDup (map fst (fold_left (fun m w =>
      if (4 <? String.length w)%nat then wc_incr w m else m) ws m))).
  { induction ws0 as [|w r IH]; intros m Hm; simpl; [exact Hm|].
    apply IH. destruct (4 <? String.length w)%nat; [apply wc_incr_nodup|]; exact Hm. }
  apply H. constructor.
Qed.

Lemma wc_get_in : forall k c m, NoDup (map fst m) -> In (k, c) m -> wc_get k m = c.
Proof.
  intros k c m. induction m as [|[k' c'] r IH]; simpl; intros Hnd Hin; [contradiction|].
  inversion Hnd as [|? ? Hk Hr]; subst.
  destruct Hin as [Heq|Hin].
  - injection Heq as -> ->. rewrite String.eqb_refl. reflexivity.
  - destruct (String.eqb k' k) eqn:E.
    + apply String.eqb_eq in E. subst. exfalso. apply Hk.
      apply in_map_iff. exists (k, c). auto.
    + apply IH; assumption.
Qed.

Lemma wc_get_nonzero_in : forall k m, wc_get k m <> 0 -> In (k, wc_get k m) m.
Proof.
  intros k m. induction m as [|[k' c] r IH]; simpl; intro H; [lia|].
  destruct (String.eqb k' k) eqn:E.
  - apply String.eqb_eq in E. subst. left. reflexivity.
  - right. apply IH. exact H.
Qed.

Lemma wc_incr_length : forall w m, (List.length (wc_incr w m) <= 1 + List.length m)%nat.
Proof.
  intros w m. induction m as [|[k c] r IH]; simpl; [lia|].
  destruct (String.eqb k w); simpl; lia.
Qed.

Lemma word_counts_length : forall ws, (List.length (word_counts ws) <= List.length ws)%nat.
Proof.
  intro ws. unfold word_counts.
  assert (H : forall ws m, (List.length (fold_left (fun m w =>
      if (4 <? String.length w)%nat then wc_incr w m else m) ws m)
      <= List.length m + List.length ws)%nat).
  { induction ws0 as [|w r IH]; intro m; simpl; [lia|].
    rewrite IH. destruct (4 <? String.length w)%nat; [|lia].
    pose proof (wc_incr_length w m). lia. }
  apply H.
Qed.

Lemma fields_aux_length : forall s cur,
  (List.length (fields_aux s cur)
   <= String.length s + (if String.eqb cur "" then 0 else 1))%nat.
Proof.
  induction s as [|c r IH]; intro cur; simpl.
  - destruct (String.eqb cur ""); simpl; lia.
  - destruct (is_ascii_space c).
    + destruct (String.eqb cur ""); simpl; specialize (IH ""); simpl in IH; lia.
    + specialize (IH (String.append cur (String c ""))).
      assert (Hne : String.eqb (String.append cur (String c "")) "" = false).
      { destruct cur; reflexivity. }
      rewrite Hne in IH. destruct (String.eqb cur ""); lia.
Qed.

Lemma Fields_length : forall s, (List.length (Fields s) <= String.length s)%nat.
Proof. intro s. pose proof (fields_aux_length s ""). simpl in H. unfold Fields. lia. Qed.

Lemma ToLower_length : forall s, String.length (ToLower s) = String.length s.
Proof. induction s as [|c r IH]; simpl; congruence. Qed.

Lemma terms_fold : forall (l : list (string * Z)) a,
  fold_left (fun '(consistent, tot) '(_, count) =>
      if (3 <=? count)%Z then
        ((if (3 <=? count)%Z then (consistent + 1)%Z else consistent), (tot + 1)%Z)
      else (consistent, tot)) l (a, a)
  = (a + Z.of_nat (List.length (filter (fun kc => Z.leb 3 (snd kc)) l)),
     a + Z.of_nat (List.length (filter (fun kc => Z.leb 3 (snd kc)) l))).
Proof.
  induction l as [|[k c] r IH]; intro a; simpl.
  - rewrite Z.add_0_r. reflexivity.
  - destruct (3 <=? c); simpl; rewrite IH; f_equal; lia.
Qed.

End TermFacts.

Section TerminologyConsistency.
Import Scorer TermFacts.

(** C9: evaluateTerminologyConsistency takes only the values 15 and 30:
    it is 30 when some lower-cased word longer than 4 bytes occurs at least
    3 times among the fields of the lower-cased content, and 15 otherwise;
    the ratio consistentTerms / totalKeyTerms is always 1, both counters
    counting the same terms (for contents shorter than 2^53 bytes, where
    float64 holds the counters exactly). *)
Theorem terminology_consistency_two_values :
  forall content, Z.of_nat (String.length content) < 2 ^ 53 ->
  let words := Fields (ToLower content) in
  ((exists w, (4 < String.length w)%nat /\ (3 <= count_occ string_dec words w)%nat) ->
     evaluateTerminologyConsistency content = 30) /\
  ((forall w, (4 < String.length w)%nat -> (count_occ string_dec words w < 3)%nat) ->
     evaluateTerminologyConsistency content = 15).
Proof.
  intros content Hlen words.
  assert (Hn : (List.length (filter (fun kc => Z.leb 3 (snd kc)) (word_counts words))
                <= String.length content)%nat).
  { pose proof (filter_length_le (fun kc => Z.leb 3 (snd kc)) (word_counts words)).
    pose proof (word_counts_length words). pose proof (Fields_length (ToLower content)).
    rewrite ToLower_length in *. unfold words in *. lia. }
  unfold evaluateTerminologyConsistency. fold words. rewrite terms_fold.
  set (n := List.length (filter (fun kc => Z.leb 3 (snd kc)) (word_counts words))) in *.
  split.
  - intros [w [Hw Hc]].
    assert (Hg : wc_get w (word_counts words) = Z.of_nat (count_occ string_dec words w)).
    { rewrite word_counts_get. apply Nat.ltb_lt in Hw. rewrite Hw. reflexivity. }
    assert (Hin : In (w, wc_get w (word_counts words)) (word_counts words))
      by (apply wc_get_nonzero_in; lia).
    assert (Hpos : (0 < n)%nat).
    { unfold n. destruct (filter (fun kc => Z.leb 3 (snd kc)) (word_counts words)) eqn:Ef.
      - exfalso. assert (Hf : In (w, wc_get w (word_counts words)) []).
        { rewrite <- Ef. apply filter_In. split; [exact Hin|]. simpl. apply Z.leb_le. lia. }
        exact Hf.
      - simpl. lia. }
    clearbody n. cbv beta iota zeta.
    replace (0 + Z.of_nat n =? 0) with false by (symmetry; apply Z.eqb_neq; lia).
    rewrite FloatFacts.of_int_div_self by lia. vm_compute. reflexivity.
  - intros Hno.
    assert (H0 : n = 0%nat).
    { unfold n. destruct (filter (fun kc => Z.leb 3 (snd kc)) (word_counts words)) as [|[k c] r] eqn:Ef;
        [reflexivity|exfalso].
      assert (Hkc : In (k, c) (filter (fun kc => Z.leb 3 (snd kc)) (word_counts words)))
        by (rewrite Ef; left; reflexivity).
      apply filter_In in Hkc as [Hin Hc]. simpl in Hc. apply Z.leb_le in Hc.
      pose proof (wc_get_in k c _ (word_counts_nodup words) Hin) as Hg.
      rewrite word_counts_get in Hg.
      destruct (4 <? String.length k)%nat eqn:Hk; [|lia].
      apply Nat.ltb_lt in Hk. specialize (Hno k Hk). lia. }
    rewrite H0. reflexivity.
Qed.

End TerminologyConsistency.

Lemma terminology_consistency_two_values_witness :
  Z.of_nat (String.length "tokens tokens tokens") < 2 ^ 53 /\
  Scorer.evaluateTerminologyConsistency "tokens tokens tokens" = 30.
Proof.
  split; [vm_compute; reflexivity|].
  apply (proj1 (terminology_consistency_two_values "tokens tokens tokens" ltac:(vm_compute; reflexivity))).
  exists "tokens". split; vm_compute; lia.
Defined.

(* ------------------------------------------------------------------ *)
(** ** The values of the sub-scores and of the dimension scores *)
Module ScoreFacts.
Import Scorer TermFacts.

Lemma in_sums : forall xs ys x y, In x xs -> In y ys -> In (x + y) (sums xs ys).
Proof.
  intros xs ys x y Hx Hy. unfold sums. apply nodup_In, in_flat_map.
  exists x. split; [exact Hx|]. apply in_map, Hy.
Qed.

Lemma in_upto : forall n k, 0 <= k < Z.of_nat n -> In k (upto n).
Proof.
  intros n k Hk. unfold upto. apply in_map_iff. exists (Z.to_nat k).
  split; [apply Z2Nat.id; lia|]. apply in_seq. lia.
Qed.

Lemma in_fives : forall n k, 0 <= k < Z.of_nat n -> In (5 * k) (fives n).
Proof. intros n k Hk. unfold fives. apply in_map, in_upto, Hk. Qed.

Lemma existsb_in : forall x l, existsb (Z.eqb x) l = true -> In x l.
Proof.
  intros x l H. apply existsb_exists in H as [y [Hy Hxy]].
  apply Z.eqb_eq in Hxy. subst. exact Hy.
Qed.

Lemma vals_range : forall l x,
  forallb (fun v => (0 <=? v) && (v <=? 100)) l = true -> In x l -> 0 <= x <= 100.
Proof.
  intros l x H Hx. rewrite forallb_forall in H. specialize (H x Hx).
  apply andb_true_iff in H as [H1 H2]. apply Z.leb_le in H1, H2. lia.
Qed.

Lemma forallb2 : forall (f : Z -> Z -> bool) l1 l2 x y,
  forallb (fun x => forallb (f x) l2) l1 = true -> In x l1 -> In y l2 -> f x y = true.
Proof.
  intros f l1 l2 x y H Hx Hy. rewrite forallb_forall in H.
  specialize (H x Hx). rewrite forallb_forall in H. exact (H y Hy).
Qed.

Lemma sf_eqb_eq : forall x y, sf_eqb x y = true -> x = y.
Proof.
  intros [a|a| |a m e] [b|b| |b m' e']; simpl; try discriminate; intro H.
  - apply Bool.eqb_prop in H. subst. reflexivity.
  - apply Bool.eqb_prop in H. subst. reflexivity.
  - reflexivity.
  - apply andb_true_iff in H as [H H3]. apply andb_true_iff in H as [H1 H2].
    apply Bool.eqb_prop in H1. apply Pos.eqb_eq in H2. apply Z.eqb_eq in H3. subst. reflexivity.
Qed.

Lemma float_eq_check : forall x y : float, sf_eqb (Prim2SF x) (Prim2SF y) = true -> x = y.
Proof. intros x y H. apply Prim2SF_inj, sf_eqb_eq, H. Qed.

Ltac branches :=
  repeat match goal with
  | |- context [if ?c then _ else _] => destruct c
  | |- context [match ?x with Some _ => _ | None => _ end] => destruct x
  end.

Lemma heading_in : forall hs, In (evaluateHeadingHierarchy hs) heading_vals.
Proof.
  intros [|h tl]; [left; reflexivity|]. unfold evaluateHeadingHierarchy. cbv zeta.
  apply existsb_in. branches; reflexivity.
Qed.

Lemma organization_in : forall c, In (evaluateContentOrganization c) organization_vals.
Proof. intro c. unfold evaluateContentOrganization. cbv zeta. apply existsb_in. branches; reflexivity. Qed.

Lemma list_in : forall c, In (evaluateListUsage c) list_vals.
Proof. intro c. unfold evaluateListUsage. cbv zeta. apply existsb_in. branches; reflexivity. Qed.

Lemma readability_in : forall c, In (evaluateReadability c) readability_vals.
Proof. intro c. unfold evaluateReadability. cbv zeta. apply existsb_in. branches; reflexivity. Qed.

Lemma definition_in : forall c, In (evaluateDefinitionClarity c) definition_vals.
Proof. intro c. unfold evaluateDefinitionClarity. cbv zeta. apply existsb_in. branches; reflexivity. Qed.

Lemma depth_in : forall c, In (evaluateContentDepth c) depth_vals.
Proof. intro c. unfold evaluateContentDepth. cbv zeta. apply existsb_in. branches; reflexivity. Qed.

Lemma examples_in : forall c, In (evaluateExamplesAndSpecifics c) examples_vals.
Proof. intro c. unfold evaluateExamplesAndSpecifics. cbv zeta. apply existsb_in. branches; reflexivity. Qed.

Lemma background_in : forall c, In (evaluateBackgroundInfo c) background_vals.
Proof. intro c. unfold evaluateBackgroundInfo. cbv zeta. apply existsb_in. branches; reflexivity. Qed.

Lemma citation_in : forall c, In (evaluateCitations c) citation_vals.
Proof. intro c. unfold evaluateCitations. cbv zeta. apply existsb_in. branches; reflexivity. Qed.

Lemma expertise_in : forall c, In (evaluateExpertiseIndicators c) expertise_vals.
Proof. intro c. unfold evaluateExpertiseIndicators. cbv zeta. apply existsb_in. branches; reflexivity. Qed.

Lemma factual_in : forall c, In (evaluateFactualAccuracy c) factual_vals.
Proof. intro c. unfold evaluateFactualAccuracy. cbv zeta. apply existsb_in. branches; reflexivity. Qed.

Lemma meta_in : forall pd, In (evaluateMetaInformation pd) meta_vals.
Proof. intro pd. unfold evaluateMetaInformation. cbv zeta. apply existsb_in. branches; reflexivity. Qed.

Lemma parsing_in : forall c, In (evaluateParsingFriendliness c) parsing_vals.
Proof. intro c. unfold evaluateParsingFriendliness. cbv zeta. apply existsb_in. branches; reflexivity. Qed.

Lemma density_in : forall c, In (evaluateInformationDensity c) density_vals.
Proof. intro c. unfold evaluateInformationDensity. cbv zeta. apply existsb_in. branches; reflexivity. Qed.

Lemma split_fuel_length : forall f sep s, (List.length (split_fuel f sep s) <= S f)%nat.
Proof.
  induction f as [|f IH]; intros sep s; simpl; [lia|].
  destruct (index 0 sep s) as [i|]; simpl; [|lia].
  pose proof (IH sep (substring (i + String.length sep) (String.length s) s)). lia.
Qed.

Lemma paragraph_range : forall content, Z.of_nat (String.length content) < 2 ^ 52 ->
  0 <= evaluateParagraphStructure content <= 25.
Proof.
  intros content Hlen. unfold evaluateParagraphStructure. cbv zeta.
  pose proof (split_fuel_length (S (String.length content)) blank_line content) as Hs.
  change (split_fuel (S (String.length content)) blank_line content)
    with (GoStrings.Split content blank_line) in Hs.
  set (ps := GoStrings.Split content blank_line) in *.
  destruct (0 <? List.length ps)%nat eqn:E; [|lia].
  unfold F64.of_nat. apply FloatFacts.ratio_times_25_bound.
  - split; [lia|]. apply Nat2Z.inj_le, filter_length_le.
  - apply Nat.ltb_lt in E. lia.
Qed.

Lemma terminology_in : forall content, Z.of_nat (String.length content) < 2 ^ 53 ->
  In (evaluateTerminologyConsistency content) terminology_vals.
Proof.
  intros content Hlen.
  assert (Hn : (List.length (filter (fun kc => Z.leb 3 (snd kc))
                  (word_counts (Fields (ToLower content)))) <= String.length content)%nat).
  { pose proof (filter_length_le (fun kc => Z.leb 3 (snd kc)) (word_counts (Fields (ToLower content)))).
    pose proof (word_counts_length (Fields (ToLower content))).
    pose proof (Fields_length (ToLower content)). rewrite ToLower_length in *. lia. }
  unfold evaluateTerminologyConsistency. cbv zeta. rewrite terms_fold.
  set (n := List.length (filter (fun kc => Z.leb 3 (snd kc))
                           (word_counts (Fields (ToLower content))))) in *.
  clearbody n. cbv beta iota zeta.
  destruct (0 + Z.of_nat n =? 0) eqn:E; [left; reflexivity|].
  apply Z.eqb_neq in E. rewrite FloatFacts.of_int_div_self by lia.
  right. left. vm_compute. reflexivity.
Qed.

Lemma check_score : forall a sub t p i, a_score (check a sub t p i) = a_score a + sub.
Proof. reflexivity. Qed.

Lemma structure_in : forall c pd, Z.of_nat (String.length c) < 2 ^ 52 ->
  In (Score (analyzeContentStructure c pd)) structure_vals.
Proof.
  intros c pd Hc.
  unfold analyzeContentStructure. cbv zeta. cbn [finish Score]. rewrite !check_score.
  cbn [a_score acc0]. rewrite Z.add_0_l.
  apply in_sums; [apply in_sums; [apply in_sums|]|].
  - apply heading_in.
  - apply organization_in.
  - apply in_upto. pose proof (paragraph_range c Hc). change (Z.of_nat 26) with 26. lia.
  - apply list_in.
Qed.

Lemma clarity_in : forall c, Z.of_nat (String.length c) < 2 ^ 52 ->
  In (Score (analyzeSemanticClarity c)) clarity_vals.
Proof.
  intros c Hc. unfold analyzeSemanticClarity. cbv zeta. cbn [finish Score]. rewrite !check_score.
  cbn [a_score acc0]. rewrite Z.add_0_l.
  apply in_sums; [apply in_sums|].
  - apply readability_in.
  - apply terminology_in. lia.
  - apply definition_in.
Qed.

Lemma richness_in : forall c pd, In (Score (analyzeContextRichness c pd)) richness_vals.
Proof.
  intros c pd. unfold analyzeContextRichness. cbv zeta. cbn [finish Score]. rewrite !check_score.
  cbn [a_score acc0]. rewrite Z.add_0_l.
  apply in_sums; [apply in_sums|]; [apply depth_in|apply examples_in|apply background_in].
Qed.

Lemma authority_in : forall c pd, In (Score (analyzeAuthoritySignals c pd)) authority_vals.
Proof.
  intros c pd. unfold analyzeAuthoritySignals. cbv zeta. cbn [finish Score]. rewrite !check_score.
  cbn [a_score acc0]. rewrite Z.add_0_l.
  apply in_sums; [apply in_sums|]; [apply citation_in|apply expertise_in|apply factual_in].
Qed.

Lemma accessibility_in : forall c pd, In (Score (analyzeAccessibility c pd)) accessibility_vals.
Proof.
  intros c pd. unfold analyzeAccessibility. cbv zeta. cbn [finish Score]. rewrite !check_score.
  cbn [a_score acc0]. rewrite Z.add_0_l.
  apply in_sums; [apply in_sums|]; [apply meta_in|apply parsing_in|apply density_in].
Qed.

Lemma structure_range : forallb (fun v => (0 <=? v) && (v <=? 100)) structure_vals = true.
Proof. vm_compute. reflexivity. Qed.
Lemma clarity_range : forallb (fun v => (0 <=? v) && (v <=? 100)) clarity_vals = true.
Proof. vm_compute. reflexivity. Qed.
Lemma richness_range : forallb (fun v => (0 <=? v) && (v <=? 100)) richness_vals = true.
Proof. vm_compute. reflexivity. Qed.
Lemma authority_range : forallb (fun v => (0 <=? v) && (v <=? 100)) authority_vals = true.
Proof. vm_compute. reflexivity. Qed.
Lemma accessibility_range : forallb (fun v => (0 <=? v) && (v <=? 100)) accessibility_vals = true.
Proof. vm_compute. reflexivity. Qed.

(** A detail finished from a score in [0, 100]. *)
Lemma finish_in_range : forall a vals,
  forallb (fun v => (0 <=? v) && (v <=? 100)) vals = true -> In (Score (finish a)) vals ->
  MaxScore (finish a) = 100 /\ 0 <= Score (finish a) <= MaxScore (finish a) /\
  pct_close (finish a) = true.
Proof.
  intros a vals Hr Hin. pose proof (vals_range _ _ Hr Hin) as Ha.
  cbn [finish MaxScore Score] in *. split; [reflexivity|]. split; [lia|].
  unfold pct_close. cbn [finish Percentage Score MaxScore].
  assert (H : forallb (fun s => (PrimFloat.abs (F64.of_int s / F64.of_int 100 * 100
                 - 100 * F64.of_int s / F64.of_int 100) <=? 1e-12)%float) (upto 101) = true)
    by (vm_compute; reflexivity).
  rewrite forallb_forall in H. apply H, in_upto. change (Z.of_nat 101) with 101. lia.
Qed.

Lemma head_check_ok :
  forallb (fun s1 => forallb (head_ok s1) clarity_vals) structure_vals = true.
Proof. vm_compute. reflexivity. Qed.
Lemma step3_check_ok :
  forallb (fun s12 => forallb (step3_ok s12) richness_vals) (upto 201) = true.
Proof. vm_compute. reflexivity. Qed.
Lemma step4_check_ok :
  forallb (fun x3 => forallb (step4_ok x3) authority_vals) (fives 1401) = true.
Proof. vm_compute. reflexivity. Qed.
Lemma step5_check_ok :
  forallb (fun x4 => forallb (step5_ok x4) accessibility_vals) (fives 1701) = true.
Proof. vm_compute. reflexivity. Qed.
Lemma round_check_ok : forallb round_ok (fives 2001) = true.
Proof. vm_compute. reflexivity. Qed.

(** calculateOverallScore on dimension scores from the value sets. *)
Lemma weighted_round : forall b,
  In (Score (ContentStructure b)) structure_vals ->
  In (Score (SemanticClarity b)) clarity_vals ->
  In (Score (ContextRichness b)) richness_vals ->
  In (Score (AuthoritySignals b)) authority_vals ->
  In (Score (Accessibility b)) accessibility_vals ->
  calculateOverallScore weights b =
  spec_overall (Score (ContentStructure b)) (Score (SemanticClarity b))
    (Score (ContextRichness b)) (Score (AuthoritySignals b)) (Score (Accessibility b)).
Proof.
  intros b H1 H2 H3 H4 H5.
  unfold calculateOverallScore, weightedScore. cbv zeta.
  set (s1 := Score (ContentStructure b)) in *. set (s2 := Score (SemanticClarity b)) in *.
  set (s3 := Score (ContextRichness b)) in *. set (s4 := Score (AuthoritySignals b)) in *.
  set (s5 := Score (Accessibility b)) in *.
  pose proof (vals_range _ _ structure_range H1). pose proof (vals_range _ _ clarity_range H2).
  pose proof (vals_range _ _ richness_range H3). pose proof (vals_range _ _ authority_range H4).
  pose proof (vals_range _ _ accessibility_range H5).
  rewrite (float_eq_check _ _ (forallb2 head_ok _ _ s1 s2 head_check_ok H1 H2)).
  assert (Hs12 : In (s1 + s2) (upto 201)) by (apply in_upto; change (Z.of_nat 201) with 201; lia).
  rewrite (float_eq_check _ _ (forallb2 step3_ok _ _ _ s3 step3_check_ok Hs12 H3)).
  assert (Hx3 : In (25 * (s1 + s2) + 20 * s3) (fives 1401)).
  { replace (25 * (s1 + s2) + 20 * s3) with (5 * (5 * (s1 + s2) + 4 * s3)) by ring.
    apply in_fives. change (Z.of_nat 1401) with 1401. lia. }
  rewrite (float_eq_check _ _ (forallb2 step4_ok _ _ _ s4 step4_check_ok Hx3 H4)).
  assert (Hx4 : In (25 * (s1 + s2) + 20 * s3 + 15 * s4) (fives 1701)).
  { replace (25 * (s1 + s2) + 20 * s3 + 15 * s4) with (5 * (5 * (s1 + s2) + 4 * s3 + 3 * s4)) by ring.
    apply in_fives. change (Z.of_nat 1701) with 1701. lia. }
  rewrite (float_eq_check _ _ (forallb2 step5_ok _ _ _ s5 step5_check_ok Hx4 H5)).
  assert (Hx : In (25 * (s1 + s2) + 20 * s3 + 15 * s4 + 15 * s5) (fives 2001)).
  { replace (25 * (s1 + s2) + 20 * s3 + 15 * s4 + 15 * s5)
      with (5 * (5 * (s1 + s2) + 4 * s3 + 3 * s4 + 3 * s5)) by ring.
    apply in_fives. change (Z.of_nat 2001) with 2001. lia. }
  pose proof round_check_ok as E. rewrite forallb_forall in E.
  specialize (E _ Hx). unfold round_ok in E. apply Z.eqb_eq in E. rewrite E.
  unfold spec_overall. f_equal. ring.
Qed.

End ScoreFacts.

(** C7: for every content (of fewer than 2^52 bytes) and page document,
    each of the five ScoreDetail values of the local scorer has max = 100,
    0 <= score <= max, and percentage within 1e-12 of 100 * score / max. *)
Theorem score_details_bounded : forall content pd,
  Z.of_nat (String.length content) < 2 ^ 52 ->
  Forall (fun d => Scorer.MaxScore d = 100 /\ 0 <= Scorer.Score d <= Scorer.MaxScore d /\
                   pct_close d = true)
    (details (Scorer.Breakdown (Scorer.AnalyzeContent content pd))).
Proof.
  intros content pd Hc. unfold Scorer.AnalyzeContent. cbv zeta.
  destruct (Scorer.generateInsights _ _) as [[? ?] ?]. cbn [Scorer.Breakdown details].
  repeat apply Forall_cons; try apply Forall_nil.
  - pose proof (ScoreFacts.structure_in content pd Hc) as Hin. revert Hin.
    unfold Scorer.analyzeContentStructure. cbv zeta.
    apply ScoreFacts.finish_in_range, ScoreFacts.structure_range.
  - pose proof (ScoreFacts.clarity_in content Hc) as Hin. revert Hin.
    unfold Scorer.analyzeSemanticClarity. cbv zeta.
    apply ScoreFacts.finish_in_range, ScoreFacts.clarity_range.
  - pose proof (ScoreFacts.richness_in content pd) as Hin. revert Hin.
    unfold Scorer.analyzeContextRichness. cbv zeta.
    apply ScoreFacts.finish_in_range, ScoreFacts.richness_range.
  - pose proof (ScoreFacts.authority_in content pd) as Hin. revert Hin.
    unfold Scorer.analyzeAuthoritySignals. cbv zeta.
    apply ScoreFacts.finish_in_range, ScoreFacts.authority_range.
  - pose proof (ScoreFacts.accessibility_in content pd) as Hin. revert Hin.
    unfold Scorer.analyzeAccessibility. cbv zeta.
    apply ScoreFacts.finish_in_range, ScoreFacts.accessibility_range.
Qed.

Lemma score_details_bounded_witness :
  Z.of_nat (String.length "Hello") < 2 ^ 52 /\
  Forall (fun d => Scorer.MaxScore d = 100 /\ 0 <= Scorer.Score d <= Scorer.MaxScore d /\
                   pct_close d = true)
    (details (Scorer.Breakdown (Scorer.AnalyzeContent "Hello" hello_page))).
Proof.
  assert (H : Z.of_nat (String.length "Hello") < 2 ^ 52) by (vm_compute; reflexivity).
  split; [exact H | exact (score_details_bounded "Hello" hello_page H)].
Defined.

(** C3: the local scorer's weights are the static configuration 0.25, 0.25,
    0.20, 0.15, 0.15, whose float64 sum is 1.0 within 1e-6; and for every
    content (of fewer than 2^52 bytes) and page document the overall score
    is the exact weighted sum of the five dimension scores rounded half away
    from zero. *)
Theorem overall_weighted_round :
  Scorer.weights = {| Scorer.wContentStructure := 0.25; Scorer.wSemanticClarity := 0.25;
                      Scorer.wContextRichness := 0.20; Scorer.wAuthoritySignals := 0.15;
                      Scorer.wAccessibility := 0.15 |} /\
  (PrimFloat.abs (Scorer.wContentStructure Scorer.weights + Scorer.wSemanticClarity Scorer.weights
     + Scorer.wContextRichness Scorer.weights + Scorer.wAuthoritySignals Scorer.weights
     + Scorer.wAccessibility Scorer.weights - 1) <=? 1e-6)%float = true /\
  forall content pd, Z.of_nat (String.length content) < 2 ^ 52 ->
    let g := Scorer.AnalyzeContent content pd in
    let b := Scorer.Breakdown g in
    Scorer.Overall g =
    spec_overall (Scorer.Score (Scorer.ContentStructure b)) (Scorer.Score (Scorer.SemanticClarity b))
      (Scorer.Score (Scorer.ContextRichness b)) (Scorer.Score (Scorer.AuthoritySignals b))
      (Scorer.Score (Scorer.Accessibility b)).
Proof.
  split; [reflexivity|]. split; [vm_compute; reflexivity|].
  intros content pd Hc. cbv zeta. unfold Scorer.AnalyzeContent. cbv zeta.
  destruct (Scorer.generateInsights _ _) as [[? ?] ?]. cbn [Scorer.Overall Scorer.Breakdown].
  apply ScoreFacts.weighted_round; cbn [Scorer.ContentStructure Scorer.SemanticClarity
    Scorer.ContextRichness Scorer.AuthoritySignals Scorer.Accessibility].
  - apply ScoreFacts.structure_in, Hc.
  - apply ScoreFacts.clarity_in, Hc.
  - apply ScoreFacts.richness_in.
  - apply ScoreFacts.authority_in.
  - apply ScoreFacts.accessibility_in.
Qed.

Lemma overall_weighted_round_witness :
  Z.of_nat (String.length "Hello") < 2 ^ 52 /\
  Scorer.Overall (Scorer.AnalyzeContent "Hello" hello_page) =
  spec_overall
    (Scorer.Score (Scorer.ContentStructure (Scorer.Breakdown (Scorer.AnalyzeContent "Hello" hello_page))))
    (Scorer.Score (Scorer.SemanticClarity (Scorer.Breakdown (Scorer.AnalyzeContent "Hello" hello_page))))
    (Scorer.Score (Scorer.ContextRichness (Scorer.Breakdown (Scorer.AnalyzeContent "Hello" hello_page))))
    (Scorer.Score (Scorer.AuthoritySignals (Scorer.Breakdown (Scorer.AnalyzeContent "Hello" hello_page))))
    (Scorer.Score (Scorer.Accessibility (Scorer.Breakdown (Scorer.AnalyzeContent "Hello" hello_page)))).
Proof.
  assert (H : Z.of_nat (String.length "Hello") < 2 ^ 52) by (vm_compute; reflexivity).
  split; [exact H | exact (proj2 (proj2 overall_weighted_round) "Hello" hello_page H)].
Defined.


(* ------------------------------------------------------------------ *)

Module ErrorFacts.
Import LLMErrors.

Ltac status_cases :=
  repeat match goal with
  | |- context [?x =? ?y] => destruct (Z.eqb_spec x y); try subst x
  | |- context [?x <=? ?y] => destruct (Z.leb_spec x y)
  end.

End ErrorFacts.

Import LLMErrors.

(** X1: ParseHTTPError marks an error retryable exactly when the status is 429 or at least 500,
    and always records the status code and the provider it was given. *)
Theorem ParseHTTPError_retryable : forall statusCode body provider,
  let e := ParseHTTPError statusCode body provider in
  Retryable e = (statusCode =? 429) || (500 <=? statusCode) /\
  StatusCode e = statusCode /\ EProvider e = provider.
Proof.
  intros s b p. cbv zeta. unfold ParseHTTPError, http_error.
  destruct (Z.eqb_spec s 401); [subst; simpl; auto|].
  destruct (Z.eqb_spec s 403); [subst; destruct (Contains _ _); simpl; auto|].
  destruct (Z.eqb_spec s 404); [subst; simpl; auto|].
  destruct (Z.eqb_spec s 429); [subst; simpl; auto|].
  destruct (Z.eqb_spec s 400); [subst; simpl; auto|].
  simpl.
  destruct (Z.eqb_spec s 500); [subst; simpl; auto|].
  destruct (Z.eqb_spec s 502); [subst; simpl; auto|].
  destruct (Z.eqb_spec s 503); [subst; simpl; auto|].
  destruct (Z.eqb_spec s 504); [subst; simpl; auto|].
  simpl. replace (s =? 429) with false by (symmetry; apply Z.eqb_neq; auto). auto.
Qed.

Ltac split_status s :=
  unfold ParseHTTPError, http_error;
  destruct (Z.eqb_spec s 401); [subst|];
  [|destruct (Z.eqb_spec s 403); [subst|]];
  [| |destruct (Z.eqb_spec s 404); [subst|]];
  [| | |destruct (Z.eqb_spec s 429); [subst|]];
  [| | | |destruct (Z.eqb_spec s 400); [subst|]];
  [| | | | |destruct (Z.eqb_spec s 500); [subst|]];
  [| | | | | |destruct (Z.eqb_spec s 502); [subst|]];
  [| | | | | | |destruct (Z.eqb_spec s 503); [subst|]];
  [| | | | | | | |destruct (Z.eqb_spec s 504); [subst|]].

(** X2: An error built by ParseHTTPError never matches the timeout, network, invalid-response or
    content-filtered sentinels, and for a status it does not handle it matches no sentinel at all.
    *)
Theorem ParseHTTPError_sentinels : forall statusCode body provider,
  let e := ParseHTTPError statusCode body provider in
  Is e ErrTimeout = false /\ Is e ErrNetworkError = false /\
  Is e ErrInvalidResponse = false /\ Is e ErrContentFiltered = false /\
  (handledStatus statusCode = false -> forall target, Is e target = false).
Proof.
  intros s b p. cbv zeta. split_status s;
    try (destruct (Contains _ _));
    try (split; [reflexivity|]; split; [reflexivity|]; split; [reflexivity|];
         split; [reflexivity|]; intros H; discriminate H).
  simpl. repeat (split; [reflexivity|]). intros _ []; reflexivity.
Qed.

(** X3: For status 403 and an ASCII body, the error is a quota error when the lower-cased body
    contains quota and an authentication error otherwise, and it is never retryable. *)
Theorem ParseHTTPError_forbidden : forall body provider,
  UTF8.ascii_only body = true ->
  let e := ParseHTTPError 403 body provider in
  Is e ErrQuotaExceeded = Contains (ToLower body) "quota" /\
  Is e ErrInvalidCredentials = negb (Contains (ToLower body) "quota") /\
  Retryable e = false.
Proof.
  intros b p _. cbv zeta. unfold ParseHTTPError, http_error. simpl.
  destruct (Contains _ _); simpl; auto.
Qed.

Lemma ParseHTTPError_forbidden_witness :
  UTF8.ascii_only "Monthly quota exceeded" = true /\
  Retryable (ParseHTTPError 403 "Monthly quota exceeded" "claude") = false.
Proof.
  split; [reflexivity|].
  exact (proj2 (proj2 (ParseHTTPError_forbidden "Monthly quota exceeded" "claude" eq_refl))).
Defined.

(** X4: For status 400 and an ASCII body mentioning safety (in any case), the error says the
    content was filtered by safety policies but its type is request, so it matches ErrInvalidRequest
    and not ErrContentFiltered, and it is not retryable. *)
Theorem ParseHTTPError_safety_is_request : forall body provider,
  UTF8.ascii_only body = true ->
  Contains (ToLower body) "safety" = true ->
  let e := ParseHTTPError 400 body provider in
  Message e = "Content was filtered due to safety policies" /\
  Is e ErrInvalidRequest = true /\ Is e ErrContentFiltered = false /\ Retryable e = false.
Proof.
  intros b p _ H. cbv zeta. unfold ParseHTTPError, http_error, parseRequestError. simpl.
  rewrite H, orb_true_r. auto.
Qed.

Lemma ParseHTTPError_safety_is_request_witness :
  UTF8.ascii_only "Blocked by Safety system" = true /\
  Contains (ToLower "Blocked by Safety system") "safety" = true /\
  Is (ParseHTTPError 400 "Blocked by Safety system" "openai") ErrInvalidRequest = true.
Proof.
  assert (Hs : Contains (ToLower "Blocked by Safety system") "safety" = true)
    by (vm_compute; reflexivity).
  split; [reflexivity|split; [exact Hs|]].
  exact (proj1 (proj2 (ParseHTTPError_safety_is_request "Blocked by Safety system" "openai"
                         eq_refl Hs))).
Defined.

(** X5: NewLLMError and the three Wrap functions set Retryable from the error type by
    isRetryable; ParseHTTPError agrees with isRetryable of its type exactly for the statuses it
    handles and for unhandled statuses below 500. *)
Theorem retryable_follows_type :
  (forall t m p, Retryable (NewLLMError t m p) = isRetryable (EType (NewLLMError t m p))) /\
  (forall err p, Retryable (WrapNetworkError err p) = isRetryable (EType (WrapNetworkError err p))) /\
  (forall err p, Retryable (WrapTimeoutError err p) = isRetryable (EType (WrapTimeoutError err p))) /\
  (forall err p, Retryable (WrapResponseError err p) = isRetryable (EType (WrapResponseError err p))) /\
  (forall s b p, Retryable (ParseHTTPError s b p) = isRetryable (EType (ParseHTTPError s b p))
                 <-> handledStatus s = true \/ s < 500).
Proof.
  split; [reflexivity|]. split; [reflexivity|]. split; [reflexivity|]. split; [reflexivity|].
  intros s b p. split_status s; try (destruct (Contains _ _)); simpl;
    try (split; intros; [left; reflexivity|reflexivity]).
  unfold handledStatus. simpl.
  repeat match goal with H : s <> ?k |- _ => apply Z.eqb_neq in H; rewrite H; clear H end.
  simpl. destruct (Z.leb_spec 500 s) as [Hs|Hs]; simpl.
  - split; intros Hx; [discriminate|destruct Hx as [Hx|Hx]; [discriminate|lia]].
  - split; intros _; [right; lia|reflexivity].
Qed.

Module FmtFacts.
Import GoFmt Models.

Lemma str_app_assoc : forall a b c : string, (a ++ b) ++ c = a ++ (b ++ c).
Proof. induction a; intros; simpl; [reflexivity|now rewrite IHa]. Qed.

Lemma str_app_nil : forall a : string, a ++ "" = a.
Proof. induction a; simpl; [reflexivity|now rewrite IHa]. Qed.

Lemma value_app : forall a b v, digits_value_aux (a ++ b) v = digits_value_aux b (digits_value_aux a v).
Proof. induction a; intros; simpl; [reflexivity|apply IHa]. Qed.

Lemma forallb_digits_app : forall a b,
  forallb is_digit (list_ascii_of_string (a ++ b)) =
  forallb is_digit (list_ascii_of_string a) && forallb is_digit (list_ascii_of_string b).
Proof. induction a; intros; simpl; [reflexivity|rewrite IHa; apply andb_assoc]. Qed.

Lemma length_app : forall a b, String.length (a ++ b) = (String.length a + String.length b)%nat.
Proof. induction a; intros; simpl; [reflexivity|now rewrite IHa]. Qed.

Lemma digit_char : forall n, 0 <= n < 10 ->
  byte (ascii_of_nat (Z.to_nat (48 + n))) = 48 + n /\
  is_digit (ascii_of_nat (Z.to_nat (48 + n))) = true.
Proof.
  intros n Hn.
  assert (E : exists k, (k < 10)%nat /\ n = Z.of_nat k) by (exists (Z.to_nat n); lia).
  destruct E as [k [Hk ->]].
  do 10 (destruct k as [|k]; [split; reflexivity|]). lia.
Qed.

Lemma digits_spec : forall f n acc, 0 <= n < 10 ^ Z.of_nat (S f) ->
  exists D, digits (S f) n acc = D ++ acc /\ D <> "" /\
    forallb is_digit (list_ascii_of_string D) = true /\
    forall v, digits_value_aux D v = v * 10 ^ Z.of_nat (String.length D) + n.
Proof.
  induction f as [|f IH]; intros n acc Hn.
  - change (10 ^ Z.of_nat 1) with 10 in Hn.
    assert (Hm : n mod 10 = n) by (apply Z.mod_small; lia).
    destruct (digit_char (n mod 10)) as [Hb Hd]; [apply Z.mod_pos_bound; lia|].
    exists (String (ascii_of_nat (Z.to_nat (48 + n mod 10))) "").
    simpl digits. replace (n <? 10) with true by (symmetry; apply Z.ltb_lt; lia).
    split; [reflexivity|]. split; [discriminate|]. split; [cbn [list_ascii_of_string forallb]; rewrite Hd; reflexivity|].
    intros v. cbn [digits_value_aux String.length]. rewrite Hb, Hm. change (10 ^ Z.of_nat 1) with 10. lia.
  - destruct (digit_char (n mod 10)) as [Hb Hd]; [apply Z.mod_pos_bound; lia|].
    destruct (Z.ltb_spec n 10) as [Hlt|Hge].
    + exists (String (ascii_of_nat (Z.to_nat (48 + n mod 10))) "").
      assert (Hm : n mod 10 = n) by (apply Z.mod_small; lia).
      cbn [digits]. replace (n <? 10) with true by (symmetry; apply Z.ltb_lt; lia).
      split; [reflexivity|]. split; [discriminate|]. split; [cbn [list_ascii_of_string forallb]; rewrite Hd; reflexivity|].
      intros v. cbn [digits_value_aux String.length]. rewrite Hb, Hm. change (10 ^ Z.of_nat 1) with 10. lia.
    + set (c := ascii_of_nat (Z.to_nat (48 + n mod 10))) in *.
      destruct (IH (n / 10) (String c acc)) as [D [HD [Hne [Hdig Hval]]]].
      { split; [apply Z.div_pos; lia|].
        apply Z.div_lt_upper_bound; [lia|].
        replace (10 * 10 ^ Z.of_nat (S f)) with (10 ^ Z.of_nat (S (S f))); [lia|].
        rewrite !Nat2Z.inj_succ, Z.pow_succ_r by lia. reflexivity. }
      exists (D ++ String c "").
      cbn [digits]. replace (n <? 10) with false by (symmetry; apply Z.ltb_ge; lia).
      fold (digits f). cbn zeta. fold c.
      split; [rewrite str_app_assoc; exact HD|].
      split; [destruct D; [congruence|discriminate]|].
      split; [rewrite forallb_digits_app, Hdig; cbn [list_ascii_of_string forallb]; rewrite Hd; reflexivity|].
      intros v. rewrite value_app, Hval, length_app. cbn [digits_value_aux String.length]. rewrite Hb.
      rewrite Nat2Z.inj_add, Z.pow_add_r by lia.
      pose proof (Z.div_mod n 10). change (10 ^ Z.of_nat 1) with 10. lia.
Qed.
Lemma Atoi_neg : forall D, StrconvAtoi (String "-" D) =
  if String.eqb D "" then None
  else if negb (forallb is_digit (list_ascii_of_string D)) then None
  else let v := - digits_value_aux D 0 in
       if (v <? - 2 ^ 63) || (2 ^ 63 - 1 <? v) then None else Some v.
Proof. reflexivity. Qed.

Lemma Atoi_digit : forall c r, is_digit c = true -> StrconvAtoi (String c r) =
  if negb (forallb is_digit (list_ascii_of_string (String c r))) then None
  else let v := digits_value_aux (String c r) 0 in
       if (v <? - 2 ^ 63) || (2 ^ 63 - 1 <? v) then None else Some v.
Proof.
  intros c r Hc. unfold StrconvAtoi.
  destruct (Ascii.eqb_spec c "-"); [subst; discriminate|].
  destruct (Ascii.eqb_spec c "+"); [subst; discriminate|].
  reflexivity.
Qed.
End FmtFacts.

(** X6: For every 64-bit int n, strconv.Atoi applied to strconv.Itoa(n) gives back n, so the
    menu numbers the model selection prints are read back as the same numbers. *)
Theorem itoa_Atoi_roundtrip : forall n, - 2 ^ 63 <= n <= 2 ^ 63 - 1 ->
  Models.StrconvAtoi (GoFmt.itoa n) = Some n.
Proof.
  intros n Hn. unfold GoFmt.itoa.
  assert (Hbig : 2 ^ 63 < 10 ^ Z.of_nat 64) by (vm_compute; reflexivity).
  destruct (Z.ltb_spec n 0) as [Hneg|Hpos].
  - destruct (FmtFacts.digits_spec 63 (- n) "") as [D [HD [Hne [Hdig Hval]]]]; [lia|].
    rewrite HD, FmtFacts.str_app_nil, FmtFacts.Atoi_neg.
    destruct D as [|c r]; [congruence|]. cbn [String.eqb]. rewrite Hdig. cbn [negb].
    rewrite Hval. cbv zeta.
    destruct (Z.ltb_spec (- (0 * 10 ^ Z.of_nat (String.length (String c r)) + - n)) (- 2 ^ 63));
      [lia|].
    destruct (Z.ltb_spec (2 ^ 63 - 1) (- (0 * 10 ^ Z.of_nat (String.length (String c r)) + - n)));
      [lia|].
    cbn [orb]. f_equal; lia.
  - destruct (FmtFacts.digits_spec 63 n "") as [D [HD [Hne [Hdig Hval]]]]; [lia|].
    rewrite HD, FmtFacts.str_app_nil.
    destruct D as [|c r]; [congruence|].
    assert (Hc : Models.is_digit c = true)
      by (cbn [list_ascii_of_string forallb] in Hdig; destruct (Models.is_digit c); auto).
    rewrite (FmtFacts.Atoi_digit c r Hc), Hdig. cbn [negb].
    rewrite Hval. cbv zeta.
    destruct (Z.ltb_spec (0 * 10 ^ Z.of_nat (String.length (String c r)) + n) (- 2 ^ 63)); [lia|].
    destruct (Z.ltb_spec (2 ^ 63 - 1) (0 * 10 ^ Z.of_nat (String.length (String c r)) + n)); [lia|].
    cbn [orb]. f_equal; lia.
Qed.

Lemma itoa_Atoi_roundtrip_witness :
  - 2 ^ 63 <= -42 <= 2 ^ 63 - 1 /\ Models.StrconvAtoi (GoFmt.itoa (-42)) = Some (-42).
Proof. split; [lia|apply itoa_Atoi_roundtrip; lia]. Defined.


(* ------------------------------------------------------------------ *)

Module ProviderFacts.
Import Providers.

Lemma in_list_In : forall x l, in_list x l = true <-> In x l.
Proof.
  intros x l. unfold in_list. rewrite existsb_exists. split.
  - intros [y [Hy E]]. apply String.eqb_eq in E. subst. exact Hy.
  - intros H. exists x. split; [exact H|apply String.eqb_refl].
Qed.

Lemma set_model_eqs : forall c m,
  CfgAPIKey (set_model c m) = CfgAPIKey c /\ CfgModel (set_model c m) = m /\
  CfgMaxTokens (set_model c m) = CfgMaxTokens c /\ CfgTemperature (set_model c m) = CfgTemperature c.
Proof. intros; repeat split. Qed.

Ltac fail_leaf :=
  split; [split; [intros [? Hb]; discriminate Hb | intros Hc; exfalso] | intros ? Hb; discriminate Hb].

Ltac ok_leaf :=
  split; [split; [intros _ | intros _; eexists; reflexivity]
         | intros ? Hb; injection Hb as <-; eexists; split; [reflexivity|]].

End ProviderFacts.
Import Providers.

(** X7: NewClaudeProvider succeeds exactly when the key starts with sk-ant-, the model is empty
    or one of the four listed Claude models, MaxTokens is 0 or within 1..8192, and neither
    temperature < 0 nor temperature > 1 holds; the provider it builds keeps the key and temperature,
    has a listed model and MaxTokens within 1..8192. *)
Theorem NewClaudeProvider_accepts : forall c,
  ((exists b, NewClaudeProvider (Some c) = inl b) <->
   HasPrefix (CfgAPIKey c) "sk-ant-" = true /\
   (CfgModel c = "" \/ In (CfgModel c) claudeValidModels) /\
   (CfgMaxTokens c = 0 \/ 1 <= CfgMaxTokens c <= 8192) /\
   PrimFloat.ltb (CfgTemperature c) 0 = false /\ PrimFloat.ltb 1 (CfgTemperature c) = false) /\
  (forall b, NewClaudeProvider (Some c) = inl b ->
   exists c', b = ClaudeProvider c' /\ CfgAPIKey c' = CfgAPIKey c /\
     In (CfgModel c') claudeValidModels /\ 1 <= CfgMaxTokens c' <= 8192 /\
     CfgTemperature c' = CfgTemperature c).
Proof.
  intros [key m tok t url]. cbn [CfgAPIKey CfgModel CfgMaxTokens CfgTemperature].
  unfold NewClaudeProvider. cbn [CfgAPIKey CfgModel CfgMaxTokens CfgTemperature CfgBaseURL].
  destruct (HasPrefix key "sk-ant-") eqn:Hp.
  2:{ destruct (String.eqb key ""); ProviderFacts.fail_leaf; destruct Hc; congruence. }
  replace (String.eqb key "") with false by (destruct key; [discriminate|reflexivity]).
  cbn [negb].
  assert (Hmodel : exists m', (if String.eqb m "" then set_model {| CfgAPIKey := key; CfgModel := m;
      CfgMaxTokens := tok; CfgTemperature := t; CfgBaseURL := url |} "claude-3-sonnet-20240229"
    else {| CfgAPIKey := key; CfgModel := m; CfgMaxTokens := tok; CfgTemperature := t;
            CfgBaseURL := url |}) = {| CfgAPIKey := key; CfgModel := m'; CfgMaxTokens := tok;
            CfgTemperature := t; CfgBaseURL := url |} /\
      (in_list m' claudeValidModels = true <-> m = "" \/ In m claudeValidModels)).
  { destruct (String.eqb_spec m "") as [->|Hm].
    - eexists; split; [reflexivity|]. split; [intros _; left; reflexivity|intros _; reflexivity].
    - eexists; split; [reflexivity|]. rewrite ProviderFacts.in_list_In.
      split; [right; assumption|intros [H|H]; [contradiction|assumption]]. }
  destruct Hmodel as [m' [-> Hm']]. cbn [CfgModel CfgMaxTokens CfgTemperature].
  destruct (in_list m' claudeValidModels) eqn:Hin; cbn [negb].
  2:{ ProviderFacts.fail_leaf. destruct Hc as (_ & Hc & _). apply Hm' in Hc. discriminate. }
  assert (Htok : exists tok', (if tok =? 0 then set_max_tokens {| CfgAPIKey := key; CfgModel := m';
      CfgMaxTokens := tok; CfgTemperature := t; CfgBaseURL := url |} 4000
    else {| CfgAPIKey := key; CfgModel := m'; CfgMaxTokens := tok; CfgTemperature := t;
            CfgBaseURL := url |}) = {| CfgAPIKey := key; CfgModel := m'; CfgMaxTokens := tok';
            CfgTemperature := t; CfgBaseURL := url |} /\
      (1 <= tok' <= 8192 <-> tok = 0 \/ 1 <= tok <= 8192)).
  { destruct (Z.eqb_spec tok 0) as [->|Ht].
    - eexists; split; [reflexivity|]. lia.
    - eexists; split; [reflexivity|]. lia. }
  destruct Htok as [tok' [-> Ht']]. cbn [CfgMaxTokens CfgTemperature].
  destruct ((tok' <? 1) || (8192 <? tok')) eqn:Hr.
  { ProviderFacts.fail_leaf. destruct Hc as (_ & _ & Hc & _). apply Ht' in Hc.
    apply orb_true_iff in Hr. destruct Hr as [Hr|Hr]; apply Z.ltb_lt in Hr; lia. }
  apply orb_false_iff in Hr. destruct Hr as [Hr1 Hr2].
  apply Z.ltb_ge in Hr1. apply Z.ltb_ge in Hr2.
  destruct (PrimFloat.ltb t 0) eqn:Ht0; cbn [orb].
  { ProviderFacts.fail_leaf. destruct Hc as (_ & _ & _ & Hc & _). congruence. }
  destruct (PrimFloat.ltb 1 t) eqn:Ht1.
  { ProviderFacts.fail_leaf. destruct Hc as (_ & _ & _ & _ & Hc). congruence. }
  ProviderFacts.ok_leaf.
  - split; [reflexivity|]. split; [apply Hm'; reflexivity|]. split; [apply Ht'; lia|].
    split; reflexivity.
  - cbn [CfgAPIKey CfgModel CfgMaxTokens CfgTemperature]. split; [reflexivity|].
    split; [apply ProviderFacts.in_list_In; exact Hin|]. split; [lia|reflexivity].
Qed.

(** X8: NewOpenAIProvider succeeds exactly when the key starts with sk-, the model (gpt-4 when
    empty) is listed, MaxTokens (4000 when 0) is within 1 and the model's limit (16384 for
    gpt-3.5-turbo-16k, 4096 for gpt-4, 8192 otherwise), and neither temperature < 0 nor temperature
    > 2 holds; it then keeps the configuration with those two defaults filled in. *)
Theorem NewOpenAIProvider_accepts : forall c,
  let model := if String.eqb (CfgModel c) "" then "gpt-4" else CfgModel c in
  let tokens := if CfgMaxTokens c =? 0 then 4000 else CfgMaxTokens c in
  let limit := if String.eqb model "gpt-3.5-turbo-16k" then 16384
               else if String.eqb model "gpt-4" then 4096 else 8192 in
  ((exists b, NewOpenAIProvider (Some c) = inl b) <->
   HasPrefix (CfgAPIKey c) "sk-" = true /\ In model openAIValidModels /\
   1 <= tokens <= limit /\
   PrimFloat.ltb (CfgTemperature c) 0 = false /\ PrimFloat.ltb 2 (CfgTemperature c) = false) /\
  (forall b, NewOpenAIProvider (Some c) = inl b ->
   b = OpenAIProvider {| CfgAPIKey := CfgAPIKey c; CfgModel := model; CfgMaxTokens := tokens;
                         CfgTemperature := CfgTemperature c; CfgBaseURL := CfgBaseURL c |}).
Proof.
  intros [key m tok t url]. cbn [CfgAPIKey CfgModel CfgMaxTokens CfgTemperature CfgBaseURL].
  cbv zeta. unfold NewOpenAIProvider. cbn [CfgAPIKey CfgModel CfgMaxTokens CfgTemperature CfgBaseURL].
  destruct (HasPrefix key "sk-") eqn:Hp.
  2:{ destruct (String.eqb key ""); ProviderFacts.fail_leaf; destruct Hc; congruence. }
  replace (String.eqb key "") with false by (destruct key; [discriminate|reflexivity]).
  cbn [negb].
  set (m' := if String.eqb m "" then "gpt-4" else m).
  replace (if String.eqb m "" then set_model {| CfgAPIKey := key; CfgModel := m;
      CfgMaxTokens := tok; CfgTemperature := t; CfgBaseURL := url |} "gpt-4"
    else {| CfgAPIKey := key; CfgModel := m; CfgMaxTokens := tok; CfgTemperature := t;
            CfgBaseURL := url |}) with {| CfgAPIKey := key; CfgModel := m'; CfgMaxTokens := tok;
            CfgTemperature := t; CfgBaseURL := url |}
    by (unfold m'; destruct (String.eqb m ""); reflexivity).
  cbn [CfgModel CfgMaxTokens CfgTemperature].
  destruct (in_list m' openAIValidModels) eqn:Hin; cbn [negb].
  2:{ ProviderFacts.fail_leaf. destruct Hc as (_ & Hc & _).
      apply ProviderFacts.in_list_In in Hc. congruence. }
  set (tok' := if tok =? 0 then 4000 else tok).
  replace (if tok =? 0 then set_max_tokens {| CfgAPIKey := key; CfgModel := m';
      CfgMaxTokens := tok; CfgTemperature := t; CfgBaseURL := url |} 4000
    else {| CfgAPIKey := key; CfgModel := m'; CfgMaxTokens := tok; CfgTemperature := t;
            CfgBaseURL := url |}) with {| CfgAPIKey := key; CfgModel := m'; CfgMaxTokens := tok';
            CfgTemperature := t; CfgBaseURL := url |}
    by (unfold tok'; destruct (tok =? 0); reflexivity).
  cbn [CfgModel CfgMaxTokens CfgTemperature].
  replace (if Contains m' "16k" then 16384 else if Contains m' "turbo" || Contains m' "4o" then 8192
           else 4096)
    with (if String.eqb m' "gpt-3.5-turbo-16k" then 16384
          else if String.eqb m' "gpt-4" then 4096 else 8192).
  2:{ apply ProviderFacts.in_list_In in Hin. clearbody m'.
      repeat (destruct Hin as [<-|Hin]; [reflexivity|]); destruct Hin. }
  set (limit := if String.eqb m' "gpt-3.5-turbo-16k" then 16384
                else if String.eqb m' "gpt-4" then 4096 else 8192).
  destruct ((tok' <? 1) || (limit <? tok')) eqn:Hr.
  { ProviderFacts.fail_leaf. destruct Hc as (_ & _ & Hc & _).
    apply orb_true_iff in Hr. destruct Hr as [Hr|Hr]; apply Z.ltb_lt in Hr; lia. }
  apply orb_false_iff in Hr. destruct Hr as [Hr1 Hr2].
  apply Z.ltb_ge in Hr1. apply Z.ltb_ge in Hr2.
  destruct (PrimFloat.ltb t 0) eqn:Ht0; cbn [orb].
  { ProviderFacts.fail_leaf. destruct Hc as (_ & _ & _ & Hc & _). congruence. }
  destruct (PrimFloat.ltb 2 t) eqn:Ht2.
  { ProviderFacts.fail_leaf. destruct Hc as (_ & _ & _ & _ & Hc). congruence. }
  split.
  - split; [intros _|intros _; eexists; reflexivity].
    split; [reflexivity|]. split; [apply ProviderFacts.in_list_In; exact Hin|].
    split; [lia|]. split; reflexivity.
  - intros b Hb. injection Hb as <-. reflexivity.
Qed.

Module AnalyzeFacts.
Import LLMErrors.

Lemma parse_provider : forall s b p, EProvider (ParseHTTPError s b p) = p.
Proof.
  intros s b p. unfold ParseHTTPError, http_error.
  repeat match goal with |- context [if ?x then _ else _] => destruct x end; reflexivity.
Qed.

Lemma parse_retryable : forall s b p, Retryable (ParseHTTPError s b p) = true -> s = 429 \/ 500 <= s.
Proof.
  intros s b p. unfold ParseHTTPError, http_error.
  repeat match goal with
  | |- context [?x =? ?y] => destruct (Z.eqb_spec x y)
  | |- context [if Contains ?x ?y then _ else _] => destruct (Contains x y)
  end; cbn [Retryable orb]; intros H; try discriminate; try lia;
  apply Z.leb_le in H; lia.
Qed.

Lemma nan_sf : forall t, PrimFloat.is_nan t = true -> Prim2SF t = S754_nan.
Proof.
  intros t H. unfold PrimFloat.is_nan in H. rewrite FloatAxioms.eqb_spec in H.
  destruct (Prim2SF t) as [s|s| |s m e]; try reflexivity; unfold SFeqb, SFcompare in H;
    try (destruct s; discriminate H).
  destruct s; rewrite Z.compare_refl in H; rewrite ?Pos.compare_cont_refl in H; simpl in H;
  try discriminate H.
Qed.

Lemma nan_ltb : forall t x, PrimFloat.is_nan t = true ->
  PrimFloat.ltb t x = false /\ PrimFloat.ltb x t = false.
Proof.
  intros t x H. rewrite !FloatAxioms.ltb_spec, (nan_sf t H).
  destruct (Prim2SF x); split; reflexivity.
Qed.

Ltac crush :=
  repeat match goal with
  | |- context [if ?x then _ else _] => destruct x eqn:?
  | |- context [match ?x with _ => _ end] => destruct x eqn:?
  end.

End AnalyzeFacts.

(** X9: Every error the Analyze method of a Claude, OpenAI or local provider returns names that
    provider, and every response it returns has non-empty content. *)
Theorem BuiltAnalyze_provider_tagged : forall be b content prompt,
  (forall e, BuiltAnalyze be b content prompt = inr e -> LLMErrors.EProvider e = BuiltName b) /\
  (forall r, BuiltAnalyze be b content prompt = inl r -> RContent r <> "").
Proof.
  intros be b content prompt.
  destruct b as [c|c|c]; unfold BuiltAnalyze, ClaudeAnalyze, OpenAIAnalyze, LocalAnalyze; cbv zeta;
    AnalyzeFacts.crush; split; intros x Hx; try discriminate Hx;
    try (injection Hx as <-; first [reflexivity | apply AnalyzeFacts.parse_provider
                                    | cbn [RContent]; intros E; subst; discriminate]).
Qed.

(** X10: A retryable error from a provider's Analyze can only come from the transport: some
    request makes the HTTP client fail, or makes it answer with status 429 or a status of at least
    500. *)
Theorem BuiltAnalyze_retryable_from_transport : forall be b content prompt e,
  BuiltAnalyze be b content prompt = inr e -> LLMErrors.Retryable e = true ->
  exists req, match client be req with
              | HTTPResponse status _ => status = 429 \/ 500 <= status
              | DoError _ _ _ | ReadError _ => True
              end.
Proof.
  intros be b content prompt e.
  destruct b as [c|c|c]; unfold BuiltAnalyze, ClaudeAnalyze, OpenAIAnalyze, LocalAnalyze; cbv zeta;
    AnalyzeFacts.crush; intros Hx; try discriminate Hx; injection Hx as <-; intros Hr;
    try discriminate Hr;
    match goal with
    | H : client be ?req = _ |- _ => exists req; rewrite H;
        first [exact I | eapply AnalyzeFacts.parse_retryable; exact Hr]
    end.
Qed.

Lemma BuiltAnalyze_retryable_from_transport_witness :
  exists e,
    BuiltAnalyze Samples.busy_backend (ClaudeProvider (Samples.claude_cfg 0.5)) "Hello" "Rate it" = inr e /\
    Retryable e = true /\
    exists req, match client Samples.busy_backend req with
                | HTTPResponse status _ => status = 429 \/ 500 <= status
                | DoError _ _ _ | ReadError _ => True
                end.
Proof.
  destruct (BuiltAnalyze Samples.busy_backend (ClaudeProvider (Samples.claude_cfg 0.5)) "Hello" "Rate it")
    as [r|e] eqn:E.
  - exfalso. vm_compute in E. discriminate E.
  - assert (R : Retryable e = true).
    { pose proof E as E'. vm_compute in E'. injection E' as <-. reflexivity. }
    exists e. split; [reflexivity|split; [exact R|]].
    exact (BuiltAnalyze_retryable_from_transport _ _ _ _ e E R).
Defined.

(** X11: A provider's Analyze rejects content that is blank after TrimSpace with the content-
    empty request error, and otherwise a blank prompt with the prompt-empty request error, each
    naming the provider and without any HTTP call. *)
Theorem BuiltAnalyze_blank_input : forall be b content prompt,
  (String.eqb (UTF8.TrimSpace content) "" = true ->
   BuiltAnalyze be b content prompt =
   inr (LLMErrors.NewLLMError LLMErrors.ErrorTypeRequest contentEmptyMsg (BuiltName b))) /\
  (String.eqb (UTF8.TrimSpace content) "" = false -> String.eqb (UTF8.TrimSpace prompt) "" = true ->
   BuiltAnalyze be b content prompt =
   inr (LLMErrors.NewLLMError LLMErrors.ErrorTypeRequest "Prompt cannot be empty" (BuiltName b))).
Proof.
  intros be b content prompt. split.
  - intros H. destruct b; unfold BuiltAnalyze, ClaudeAnalyze, OpenAIAnalyze, LocalAnalyze;
      rewrite H; reflexivity.
  - intros H1 H2. destruct b; unfold BuiltAnalyze, ClaudeAnalyze, OpenAIAnalyze, LocalAnalyze;
      rewrite H1, H2; reflexivity.
Qed.

(** X12: A NaN temperature passes the temperature range checks of the constructors, but every
    Analyze call of such a provider then fails with a non-retryable request error, whatever the HTTP
    client does. *)
Theorem nan_temperature_accepted_then_fails : forall be b content prompt,
  PrimFloat.is_nan (CfgTemperature (config_of b)) = true ->
  PrimFloat.ltb (CfgTemperature (config_of b)) 0 = false /\
  PrimFloat.ltb 1 (CfgTemperature (config_of b)) = false /\
  PrimFloat.ltb 2 (CfgTemperature (config_of b)) = false /\
  (exists e, BuiltAnalyze be b content prompt = inr e /\
             LLMErrors.EType e = LLMErrors.ErrorTypeRequest /\ LLMErrors.Retryable e = false) /\
  (forall cl, BuiltAnalyze {| urlParse := urlParse be; client := cl; decodeClaude := decodeClaude be;
                              decodeChat := decodeChat be |} b content prompt =
              BuiltAnalyze be b content prompt).
Proof.
  intros be b content prompt Hnan.
  pose proof (fun x => AnalyzeFacts.nan_ltb _ x Hnan) as Hlt.
  split; [apply Hlt|]. split; [apply Hlt|]. split; [apply Hlt|].
  assert (Hm : marshalError (CfgTemperature (config_of b)) =
               Some "json: unsupported value: NaN") by (unfold marshalError; rewrite Hnan; reflexivity).
  destruct b as [c|c|c]; cbn [config_of] in Hm; unfold BuiltAnalyze, ClaudeAnalyze, OpenAIAnalyze, LocalAnalyze;
    cbn [urlParse client decodeClaude decodeChat]; rewrite Hm;
    (split; [|intros cl; reflexivity]);
    repeat match goal with |- context [if ?x then _ else _] => destruct x end;
    eexists; (split; [reflexivity|]); split; reflexivity.
Qed.

Lemma nan_temperature_accepted_then_fails_witness :
  PrimFloat.is_nan (CfgTemperature (config_of (ClaudeProvider (Samples.claude_cfg nan)))) = true /\
  exists e, BuiltAnalyze Samples.busy_backend (ClaudeProvider (Samples.claude_cfg nan)) "Hello" "Rate it" = inr e /\
            EType e = ErrorTypeRequest.
Proof.
  split; [reflexivity|].
  destruct (proj1 (proj2 (proj2 (proj2 (nan_temperature_accepted_then_fails Samples.busy_backend
              (ClaudeProvider (Samples.claude_cfg nan)) "Hello" "Rate it" eq_refl)))))
    as [e [E1 [E2 _]]].
  exists e. split; assumption.
Defined.

Module DispatchFacts.
Lemma claude_built : forall oc b, NewClaudeProvider oc = inl b -> BuiltName b = "claude".
Proof. intros oc b. unfold NewClaudeProvider. AnalyzeFacts.crush; intros H; try discriminate H;
  injection H as <-; reflexivity. Qed.
Lemma openai_built : forall oc b, NewOpenAIProvider oc = inl b -> BuiltName b = "openai".
Proof. intros oc b. unfold NewOpenAIProvider. AnalyzeFacts.crush; intros H; try discriminate H;
  injection H as <-; reflexivity. Qed.
Lemma local_built : forall up oc b, NewLocalProvider up oc = inl b -> BuiltName b = "local".
Proof. intros up oc b. unfold NewLocalProvider. AnalyzeFacts.crush; intros H; try discriminate H;
  injection H as <-; reflexivity. Qed.
End DispatchFacts.

(** X13: NewProvider builds a provider named after the requested type (gpt gives openai), fails
    for a nil configuration, and reports unsupported provider for any type other than claude, gpt,
    openai and local. *)
Theorem NewProvider_dispatch : forall up providerType config,
  (forall b, NewProvider up providerType config = inl b ->
     BuiltName b = if String.eqb providerType "gpt" then "openai" else providerType) /\
  (exists e, NewProvider up providerType None = inr e) /\
  (String.eqb providerType "claude" || String.eqb providerType "gpt" ||
   String.eqb providerType "openai" || String.eqb providerType "local" = false ->
   NewProvider up providerType config = inr (Errorf ("unsupported provider: " ++ providerType))).
Proof.
  intros up t oc. unfold NewProvider.
  destruct (String.eqb_spec t "claude") as [->|H1]; [|destruct (String.eqb_spec t "gpt") as [->|H2]];
    [| |destruct (String.eqb_spec t "openai") as [->|H3]];
    [| | |destruct (String.eqb_spec t "local") as [->|H4]]; cbn [orb].
  - split; [|split; [eexists; reflexivity|intros H; discriminate H]].
    intros b Hb. unfold lift in Hb. destruct (NewClaudeProvider oc) as [b'|] eqn:E; [|discriminate].
    injection Hb as <-. apply (DispatchFacts.claude_built oc b' E).
  - split; [|split; [eexists; reflexivity|intros H; discriminate H]].
    intros b Hb. unfold lift in Hb. destruct (NewOpenAIProvider oc) as [b'|] eqn:E; [|discriminate].
    injection Hb as <-. apply (DispatchFacts.openai_built oc b' E).
  - split; [|split; [eexists; reflexivity|intros H; discriminate H]].
    intros b Hb. unfold lift in Hb. destruct (NewOpenAIProvider oc) as [b'|] eqn:E; [|discriminate].
    injection Hb as <-. rewrite (DispatchFacts.openai_built oc b' E). reflexivity.
  - split; [|split; [eexists; reflexivity|intros H; discriminate H]].
    intros b Hb. unfold lift in Hb. destruct (NewLocalProvider up oc) as [b'|] eqn:E; [|discriminate].
    injection Hb as <-. rewrite (DispatchFacts.local_built up oc b' E). reflexivity.
  - split; [intros b Hb; discriminate Hb|]. split; [eexists; reflexivity|]. intros _; reflexivity.
Qed.


(* ------------------------------------------------------------------ *)

Module ModelFacts.
Import Models Views.

Lemma lookup_cases : forall p,
  (p = "claude" \/ p = "openai" \/ p = "local") \/ lookup p GetAvailableModels = None.
Proof.
  intros p. unfold GetAvailableModels, lookup.
  destruct (String.eqb_spec p "claude"); [left; left; assumption|].
  destruct (String.eqb_spec p "openai"); [left; right; left; assumption|].
  destruct (String.eqb_spec p "local"); [left; right; right; assumption|].
  right; reflexivity.
Qed.

Lemma existsb_name : forall ms m,
  existsb (fun x => String.eqb (MName x) m) ms = true <-> In m (map MName ms).
Proof.
  intros ms m. rewrite existsb_exists, in_map_iff. split.
  - intros [x [Hx E]]. apply String.eqb_eq in E. exists x; auto.
  - intros [x [E Hx]]. exists x. split; [exact Hx|]. apply String.eqb_eq; exact E.
Qed.

Lemma validate_spec : forall p m,
  ValidateModelForProvider p m = None <-> p = "local" \/ In m (names p).
Proof.
  intros p m. unfold ValidateModelForProvider, names.
  destruct (lookup_cases p) as [[H|[H|H]]|E].
  - subst p. cbn [lookup GetAvailableModels]. rewrite String.eqb_refl.
    rewrite <- existsb_name. destruct (existsb _ _); cbn; split; intuition congruence.
  - subst p. cbn [lookup GetAvailableModels]. cbn [String.eqb Ascii.eqb Bool.eqb].
    rewrite <- existsb_name. destruct (existsb _ _); cbn; split; intuition congruence.
  - subst p. cbn [lookup GetAvailableModels]. cbn [String.eqb Ascii.eqb Bool.eqb].
    rewrite <- existsb_name. destruct (existsb _ _); cbn; split; intuition congruence.
  - rewrite E. split; [intros H; discriminate H|].
    intros [H|H]; [subst p; discriminate E|destruct H].
Qed.

Lemma names_nonempty : forall p m, In m (names p) -> m <> "".
Proof.
  intros p m H. unfold names in H.
  destruct (lookup_cases p) as [[E|[E|E]]|E]; subst; [..|rewrite E in H; destruct H];
  cbn in H; intuition (subst; discriminate).
Qed.

Lemma names_keys : forall p m, In m (names p) -> p = "claude" \/ p = "openai" \/ p = "local".
Proof.
  intros p m H. destruct (lookup_cases p) as [K|E]; [exact K|].
  unfold names in H. rewrite E in H. destruct H.
Qed.

Lemma recommended_valid : forall p, GetRecommendedModel p <> "" ->
  ValidateModelForProvider p (GetRecommendedModel p) = None.
Proof.
  intros p. destruct (lookup_cases p) as [[E|[E|E]]|E]; subst; try (intros; reflexivity).
  unfold GetRecommendedModel. rewrite E. intros H; congruence.
Qed.

Lemma interactive_sound : forall cur stdin p m,
  InteractiveModelSelection cur stdin = inl (p, m) ->
  In m (names p) /\ ValidateModelForProvider p m = None /\
  (cur <> "" -> p = cur) /\ (p = "claude" \/ p = "openai" \/ p = "local").
Proof.
  intros cur stdin p m H. unfold InteractiveModelSelection in H.
  set (step1 := if String.eqb cur "" then _ else _) in H.
  assert (Hs : forall p' st, step1 = inl (p', st) -> cur <> "" -> p' = cur).
  { intros p' st E Hc. unfold step1 in E. destruct (String.eqb_spec cur ""); [contradiction|].
    congruence. }
  destruct step1 as [[sp st]|err] eqn:ES; [|discriminate H].
  specialize (Hs sp st eq_refl).
  destruct (lookup sp GetAvailableModels) as [ms|] eqn:EL; [|discriminate H].
  destruct (ReadString st) as [[input r]|err]; [|discriminate H].
  destruct (StrconvAtoi (UTF8.TrimSpace input)) as [k|]; [|discriminate H].
  destruct (_ || _); [discriminate H|].
  destruct (nth_error ms _) as [sel|] eqn:EN; [|discriminate H].
  injection H as <- <-.
  assert (Hin : In (MName sel) (names sp)).
  { unfold names. rewrite EL. apply in_map. eapply nth_error_In; exact EN. }
  split; [exact Hin|]. split; [apply validate_spec; right; exact Hin|].
  split; [exact Hs|]. eapply names_keys; exact Hin.
Qed.

End ModelFacts.

Import Models.

(** X14: GetRecommendedModel is non-empty exactly for claude, openai and local, and the model it
    then returns is one of the provider's listed models and passes ValidateModelForProvider. *)
Theorem GetRecommendedModel_valid : forall p,
  (GetRecommendedModel p <> "" <-> p = "claude" \/ p = "openai" \/ p = "local") /\
  (GetRecommendedModel p <> "" ->
     ValidateModelForProvider p (GetRecommendedModel p) = None /\
     In (GetRecommendedModel p) (Views.names p)).
Proof.
  intros p. destruct (ModelFacts.lookup_cases p) as [[E|[E|E]]|E]; subst.
  - vm_compute. intuition congruence.
  - vm_compute. intuition congruence.
  - vm_compute. intuition congruence.
  - unfold GetRecommendedModel. rewrite E. split; [|intros H; congruence].
    split; [intros H; congruence|]. intros K.
    destruct K as [K|[K|K]]; subst p; discriminate E.
Qed.

(** X15: ValidateModelForProvider accepts a model exactly when the provider is local (any model)
    or the model is one of the provider's listed models; any unknown provider is rejected. *)
Theorem ValidateModelForProvider_spec : forall p m,
  ValidateModelForProvider p m = None <-> p = "local" \/ In m (Views.names p).
Proof. exact ModelFacts.validate_spec. Qed.

(** X16: Whatever is typed, a successful InteractiveModelSelection returns one of the three
    providers and one of its listed models, which ValidateModelForProvider accepts, and keeps the
    provider it was given when that is non-empty. *)
Theorem InteractiveModelSelection_sound : forall cur stdin p m,
  InteractiveModelSelection cur stdin = inl (p, m) ->
  In m (Views.names p) /\ ValidateModelForProvider p m = None /\
  (cur <> "" -> p = cur) /\ (p = "claude" \/ p = "openai" \/ p = "local").
Proof. exact ModelFacts.interactive_sound. Qed.

Lemma InteractiveModelSelection_sound_witness :
  InteractiveModelSelection "" ("1" ++ nl ++ "2" ++ nl) = inl ("claude", "claude-3-sonnet-20240229") /\
  In "claude-3-sonnet-20240229" (Views.names "claude").
Proof.
  assert (E : InteractiveModelSelection "" ("1" ++ nl ++ "2" ++ nl)
              = inl ("claude", "claude-3-sonnet-20240229")) by (vm_compute; reflexivity).
  split; [exact E|exact (proj1 (InteractiveModelSelection_sound _ _ _ _ E))].
Defined.

(** X17: For a known provider, typing the menu number i+1 followed by a newline selects the i-th
    listed model of that provider. *)
Theorem InteractiveModelSelection_menu : forall p i rest,
  (p = "claude" \/ p = "openai" \/ p = "local") ->
  (i < length (Views.names p))%nat ->
  InteractiveModelSelection p (GoFmt.itoa (Z.of_nat i + 1) ++ String (ascii_of_nat 10) rest)
    = inl (p, nth i (Views.names p) "").
Proof.
  intros p i rest Hp Hi.
  destruct Hp as [E|[E|E]]; subst p; cbn in Hi;
  repeat (destruct i as [|i]; [reflexivity|]); lia.
Qed.

Lemma InteractiveModelSelection_menu_witness :
  (1 < length (Views.names "openai"))%nat /\
  InteractiveModelSelection "openai" (GoFmt.itoa (Z.of_nat 1 + 1) ++ String (ascii_of_nat 10) "")
    = inl ("openai", "gpt-4o-mini").
Proof.
  assert (L : (1 < length (Views.names "openai"))%nat) by (cbn; lia).
  split; [exact L|].
  exact (InteractiveModelSelection_menu "openai" 1 "" (or_intror (or_introl eq_refl)) L).
Defined.

(** X18: The model selection of the analyze and bulk commands never ends with an empty model;
    without --interactive it keeps the provider and the given model, or takes the recommended one
    when none is given; and the resulting pair passes ValidateModelForProvider whenever selection
    was interactive or a provider was given. *)
Theorem resolveModel_result : forall interactive p m stdin p' m',
  Cmd.resolveModel interactive p m stdin = inl (p', m') ->
  m' <> "" /\
  (interactive = false -> p' = p /\ (m <> "" -> m' = m) /\ (m = "" -> m' = GetRecommendedModel p)) /\
  (interactive = true \/ p <> "" -> ValidateModelForProvider p' m' = None).
Proof.
  intros [|] p m stdin p' m' H; unfold Cmd.resolveModel in H.
  - destruct (InteractiveModelSelection p stdin) as [[a b]|err] eqn:E; [|discriminate H].
    injection H as <- <-.
    destruct (ModelFacts.interactive_sound _ _ _ _ E) as (Hin & Hv & _).
    split; [eapply ModelFacts.names_nonempty; exact Hin|].
    split; [intros Hf; discriminate Hf|]. intros _; exact Hv.
  - destruct (String.eqb_spec m "") as [Em|Em]; cbn [negb andb] in H.
    + destruct (String.eqb_spec (GetRecommendedModel p) "") as [Er|Er]; [discriminate H|].
      injection H as <- <-. split; [exact Er|]. split; [intros _; split; [reflexivity|]; split;
        [intros Hm; contradiction|intros _; reflexivity]|].
      intros _. apply ModelFacts.recommended_valid; exact Er.
    + destruct (String.eqb_spec p "") as [Ep|Ep]; cbn [negb andb] in H.
      * injection H as <- <-. split; [exact Em|]. split; [intros _; split; [reflexivity|];
          split; [intros _; reflexivity|intros Hm; contradiction]|].
        intros [Hf|Hf]; [discriminate Hf|contradiction].
      * destruct (ValidateModelForProvider p m) eqn:Ev; [discriminate H|].
        injection H as <- <-. split; [exact Em|]. split; [intros _; split; [reflexivity|];
          split; [intros _; reflexivity|intros Hm; contradiction]|].
        intros _; exact Ev.
Qed.

Lemma resolveModel_result_witness :
  Cmd.resolveModel false "claude" "" "" = inl ("claude", "claude-3-5-sonnet-20241022") /\
  ValidateModelForProvider "claude" "claude-3-5-sonnet-20241022" = None.
Proof.
  assert (E : Cmd.resolveModel false "claude" "" "" = inl ("claude", "claude-3-5-sonnet-20241022"))
    by (vm_compute; reflexivity).
  split; [exact E|].
  assert (Hp : "claude" <> "") by discriminate.
  exact (proj2 (proj2 (resolveModel_result false "claude" "" "" "claude" "claude-3-5-sonnet-20241022" E))
           (or_intror Hp)).
Defined.

Module CmdFacts.
Import Providers.

Lemma claude_rejects : forall c, CfgModel c <> "" -> ~ In (CfgModel c) claudeValidModels ->
  exists e, NewClaudeProvider (Some c) = inr e.
Proof.
  intros c Hm Hn. unfold NewClaudeProvider.
  destruct (String.eqb (CfgAPIKey c) ""); [eexists; reflexivity|].
  destruct (negb (HasPrefix (CfgAPIKey c) "sk-ant-")); [eexists; reflexivity|].
  destruct (String.eqb_spec (CfgModel c) "") as [E|_]; [contradiction|].
  destruct (in_list (CfgModel c) claudeValidModels) eqn:Ei.
  - apply ProviderFacts.in_list_In in Ei. contradiction.
  - eexists; reflexivity.
Qed.

Lemma openai_rejects : forall c, CfgModel c <> "" -> ~ In (CfgModel c) openAIValidModels ->
  exists e, NewOpenAIProvider (Some c) = inr e.
Proof.
  intros c Hm Hn. unfold NewOpenAIProvider.
  destruct (String.eqb (CfgAPIKey c) ""); [eexists; reflexivity|].
  destruct (negb (HasPrefix (CfgAPIKey c) "sk-")); [eexists; reflexivity|].
  destruct (String.eqb_spec (CfgModel c) "") as [E|_]; [contradiction|].
  destruct (in_list (CfgModel c) openAIValidModels) eqn:Ei.
  - apply ProviderFacts.in_list_In in Ei. contradiction.
  - eexists; reflexivity.
Qed.

Lemma cli_rejects_claude : forall be pt pc,
  PModel pc <> "" -> ~ In (PModel pc) claudeValidModels ->
  exists e, Cmd.cliNewProvider be pt "claude" pc = inr e.
Proof.
  intros be pt pc Hm Hc. unfold Cmd.cliNewProvider, NewProvider. cbn [String.eqb Ascii.eqb Bool.eqb].
  destruct (claude_rejects {| CfgAPIKey := APIKey pc; CfgModel := PModel pc; CfgMaxTokens := 4000;
      CfgTemperature := 0.7%float; CfgBaseURL := "" |} Hm Hc) as [e ->]. eexists; reflexivity.
Qed.

Lemma cli_rejects_openai : forall be pt pc,
  PModel pc <> "" -> ~ In (PModel pc) openAIValidModels ->
  exists e, Cmd.cliNewProvider be pt "openai" pc = inr e.
Proof.
  intros be pt pc Hm Ho. unfold Cmd.cliNewProvider, NewProvider. cbn [String.eqb Ascii.eqb Bool.eqb orb].
  destruct (openai_rejects {| CfgAPIKey := APIKey pc; CfgModel := PModel pc; CfgMaxTokens := 4000;
      CfgTemperature := 0.7%float; CfgBaseURL := "" |} Hm Ho) as [e ->]. eexists; reflexivity.
Qed.

(** The factory of the commands fails on a model that neither the Claude
    nor the OpenAI constructor lists, for every provider but local. *)
Lemma cli_rejects : forall be pt name pc,
  name <> "local" -> PModel pc <> "" ->
  ~ In (PModel pc) claudeValidModels -> ~ In (PModel pc) openAIValidModels ->
  exists e, Cmd.cliNewProvider be pt name pc = inr e.
Proof.
  intros be pt name pc Hl Hm Hc Ho. unfold Cmd.cliNewProvider, NewProvider.
  destruct (String.eqb name "claude").
  { destruct (claude_rejects {| CfgAPIKey := APIKey pc; CfgModel := PModel pc; CfgMaxTokens := 4000;
      CfgTemperature := 0.7%float; CfgBaseURL := "" |} Hm Hc) as [e ->]. eexists; reflexivity. }
  destruct (String.eqb name "gpt" || String.eqb name "openai").
  { destruct (openai_rejects {| CfgAPIKey := APIKey pc; CfgModel := PModel pc; CfgMaxTokens := 4000;
      CfgTemperature := 0.7%float; CfgBaseURL := "" |} Hm Ho) as [e ->]. eexists; reflexivity. }
  destruct (String.eqb_spec name "local"); [contradiction|]. eexists; reflexivity.
Qed.

Lemma claude_names_listed : forall m, In m (Views.names "claude") ->
  In m claudeValidModels /\ ~ In m openAIValidModels /\ m <> "".
Proof.
  intros m H. cbn in H.
  repeat (destruct H as [<-|H]; [cbn; intuition discriminate|]); destruct H.
Qed.

Lemma openai_names_listed : forall m, In m (Views.names "openai") ->
  In m openAIValidModels /\ ~ In m claudeValidModels /\ m <> "".
Proof.
  intros m H. cbn in H.
  repeat (destruct H as [<-|H]; [cbn; intuition discriminate|]); destruct H.
Qed.

End CmdFacts.

(** X19: When the commands create an analyzer for a non-local provider with a model that neither
    the Claude nor the OpenAI constructor lists, the analyzer gets no provider: it falls back to
    local mode, or in llm mode keeps an initialisation error. *)
Theorem New_unlisted_model_no_provider : forall env be pt cfg,
  LLMProvider cfg <> "local" -> CModel cfg <> "" ->
  ~ In (CModel cfg) Providers.claudeValidModels -> ~ In (CModel cfg) Providers.openAIValidModels ->
  let a := New env (Cmd.cliNewProvider be pt) cfg in
  provider a = None /\ (cfgMode a = "local" \/ (cfgMode a = "llm" /\ initError a <> None)).
Proof.
  intros env be pt cfg Hl Hm Hc Ho a. unfold a, New.
  set (pr := if String.eqb (Mode cfg) "auto" || String.eqb (Mode cfg) "" then _ else _).
  assert (Hp : snd pr <> "local").
  { unfold pr. destruct (String.eqb (Mode cfg) "auto" || String.eqb (Mode cfg) ""); cbn [snd];
      [|exact Hl].
    destruct (_ && _); [|exact Hl].
    destruct (hasValidAPIKey env "openai"); [discriminate|].
    destruct (hasValidAPIKey env "claude"); [discriminate|exact Hl]. }
  destruct pr as [mode prov]. cbn [snd] in Hp.
  destruct (String.eqb_spec mode "local") as [->|Hmode]; cbn [negb].
  - split; [reflexivity|left; reflexivity].
  - destruct (CmdFacts.cli_rejects be pt prov {| APIKey := getAPIKey env prov; PModel := CModel cfg |}
      Hp Hm Hc Ho) as [e ->].
    destruct (String.eqb mode "llm") eqn:El; cbn [provider cfgMode initError].
    + apply String.eqb_eq in El. split; [reflexivity|right; split; [exact El|discriminate]].
    + split; [reflexivity|left; reflexivity].
Qed.

Lemma New_unlisted_model_no_provider_witness :
  ~ In "claude-3-sonnet" claudeValidModels /\ ~ In "claude-3-sonnet" openAIValidModels /\
  provider (New claude_env (Cmd.cliNewProvider Samples.busy_backend (fun _ => "Rate it"))
              {| Mode := "hybrid"; LLMProvider := "claude"; CModel := "claude-3-sonnet" |}) = None.
Proof.
  assert (H1 : ~ In "claude-3-sonnet" claudeValidModels).
  { intro H. apply (proj2 (ProviderFacts.in_list_In _ _)) in H. vm_compute in H. discriminate H. }
  assert (H2 : ~ In "claude-3-sonnet" openAIValidModels).
  { intro H. apply (proj2 (ProviderFacts.in_list_In _ _)) in H. vm_compute in H. discriminate H. }
  split; [exact H1|split; [exact H2|]].
  exact (proj1 (New_unlisted_model_no_provider claude_env Samples.busy_backend (fun _ => "Rate it")
                  {| Mode := "hybrid"; LLMProvider := "claude"; CModel := "claude-3-sonnet" |}
                  ltac:(discriminate) ltac:(discriminate) H1 H2)).
Defined.

(** X20: In auto mode, when the chosen provider (claude or openai) has no valid key, New may
    switch to the other provider but passes it the original model, which that provider rejects;
    the analyzer then ends in local mode with no provider and no stored initialisation error. *)
Theorem New_auto_switch_model_mismatch : forall env be pt p m,
  (p = "claude" \/ p = "openai") -> In m (Views.names p) -> hasValidAPIKey env p = false ->
  let a := New env (Cmd.cliNewProvider be pt) {| Mode := "auto"; LLMProvider := p; CModel := m |} in
  provider a = None /\ cfgMode a = "local" /\ initError a = None.
Proof.
  intros env be pt p m Hp Hin Hv a. unfold a, New, determineOptimalMode.
  cbn [Mode LLMProvider CModel existsb String.eqb Ascii.eqb Bool.eqb orb andb]. rewrite Hv.
  destruct Hp as [-> | ->].
  - destruct (CmdFacts.claude_names_listed m Hin) as (Hc & Ho & Hm).
    rewrite Hv. destruct (hasValidAPIKey env "openai") eqn:Eo; cbn.
    + destruct (CmdFacts.cli_rejects_openai be pt {| APIKey := getAPIKey env "openai"; PModel := m |}
        Hm Ho) as [e He].
      cbn in He. rewrite He. repeat split.
    + repeat split.
  - destruct (CmdFacts.openai_names_listed m Hin) as (Ho & Hc & Hm).
    rewrite Hv. destruct (hasValidAPIKey env "claude") eqn:Ec; cbn.
    + destruct (CmdFacts.cli_rejects_claude be pt {| APIKey := getAPIKey env "claude"; PModel := m |}
        Hm Hc) as [e He].
      cbn in He. rewrite He. repeat split.
    + repeat split.
Qed.

Lemma New_auto_switch_model_mismatch_witness :
  In "claude-3-opus-20240229" (Views.names "claude") /\
  hasValidAPIKey Samples.openai_env "claude" = false /\
  cfgMode (New Samples.openai_env (Cmd.cliNewProvider Samples.busy_backend (fun _ => "Rate it"))
             {| Mode := "auto"; LLMProvider := "claude"; CModel := "claude-3-opus-20240229" |}) = "local".
Proof.
  assert (H1 : In "claude-3-opus-20240229" (Views.names "claude")).
  { apply ProviderFacts.in_list_In. vm_compute. reflexivity. }
  split; [exact H1|split; [reflexivity|]].
  exact (proj1 (proj2 (New_auto_switch_model_mismatch Samples.openai_env Samples.busy_backend
                         (fun _ => "Rate it") "claude" "claude-3-opus-20240229"
                         (or_introl eq_refl) H1 eq_refl))).
Defined.


(* ------------------------------------------------------------------ *)

Module MsgFacts.

Ltac crush_in H :=
  repeat match type of H with
  | context [if ?x then _ else _] => destruct x eqn:?
  | context [match ?x with _ => _ end] => destruct x eqn:?
  end.

Ltac msg_leaf H :=
  simpl in H; try discriminate H; injection H as <-;
  unfold AnalyzerMsg.formatSuccessMessage, mkResult; cbn [Metadata meta_put meta_get];
  cbn [String.eqb Ascii.eqb Bool.eqb andb orb]; discriminate.

Lemma analyzePageData_msg : forall env a pd src r,
  snd (analyzePageData env a pd src) = inl r -> AnalyzerMsg.formatSuccessMessage r <> None.
Proof.
  intros env a pd src r H. unfold analyzePageData, bind, call_analyze, ret, averaged in H.
  cbv zeta in H. revert H.
  generalize (Scorer.AnalyzeContent (Content pd) pd) as ls. intros ls H.
  destruct (String.eqb (cfgMode a) "local"); [destruct (_ && _); msg_leaf H|].
  destruct (String.eqb (cfgMode a) "llm").
  - destruct (initError a); [simpl in H; discriminate H|].
    destruct (provider a) as [p|]; [|simpl in H; discriminate H].
    destruct (Analyze p (Content pd) GeoPrompt) as [resp|err]; [|msg_leaf H].
    destruct (0 <? Extract.extractScoreFromLLMResponse (RContent resp)); msg_leaf H.
  - destruct (String.eqb (cfgMode a) "hybrid"); [|msg_leaf H].
    destruct (provider a) as [p|]; [|msg_leaf H].
    destruct (Analyze p (Content pd) (HybridPrompt ls)) as [resp|err]; [|msg_leaf H].
    destruct (0 <? Extract.extractScoreFromLLMResponse (RContent resp)); msg_leaf H.
Qed.

End MsgFacts.

Module RangeFacts.

Lemma spec_overall_range : forall s1 s2 s3 s4 s5,
  0 <= s1 <= 100 -> 0 <= s2 <= 100 -> 0 <= s3 <= 100 -> 0 <= s4 <= 100 -> 0 <= s5 <= 100 ->
  0 <= spec_overall s1 s2 s3 s4 s5 <= 100.
Proof.
  intros. unfold spec_overall, round_half_away.
  rewrite (proj2 (Z.leb_le 0 _)) by lia.
  split; [apply Z.div_pos; lia|].
  assert (Z.div (2 * (25 * s1 + 25 * s2 + 20 * s3 + 15 * s4 + 15 * s5) + 100) (2 * 100) < 101)
    by (apply Z.div_lt_upper_bound; lia).
  lia.
Qed.

Lemma overall_range : forall c pd, Z.of_nat (String.length c) < 2 ^ 52 ->
  0 <= Scorer.Overall (Scorer.AnalyzeContent c pd) <= 100.
Proof.
  intros c pd Hc. unfold Scorer.AnalyzeContent. cbv zeta.
  destruct (Scorer.generateInsights _ _) as [[? ?] ?]. cbn [Scorer.Overall].
  rewrite ScoreFacts.weighted_round; cbn [Scorer.ContentStructure Scorer.SemanticClarity
    Scorer.ContextRichness Scorer.AuthoritySignals Scorer.Accessibility].
  - apply spec_overall_range.
    + eapply ScoreFacts.vals_range; [apply ScoreFacts.structure_range|apply ScoreFacts.structure_in, Hc].
    + eapply ScoreFacts.vals_range; [apply ScoreFacts.clarity_range|apply ScoreFacts.clarity_in, Hc].
    + eapply ScoreFacts.vals_range; [apply ScoreFacts.richness_range|apply ScoreFacts.richness_in].
    + eapply ScoreFacts.vals_range; [apply ScoreFacts.authority_range|apply ScoreFacts.authority_in].
    + eapply ScoreFacts.vals_range; [apply ScoreFacts.accessibility_range|apply ScoreFacts.accessibility_in].
  - apply ScoreFacts.structure_in, Hc.
  - apply ScoreFacts.clarity_in, Hc.
  - apply ScoreFacts.richness_in.
  - apply ScoreFacts.authority_in.
  - apply ScoreFacts.accessibility_in.
Qed.

Lemma avg_range : forall x y, 0 <= x <= 100 -> 0 <= y <= 100 -> 0 <= Z.quot (x + y) 2 <= 100.
Proof.
  intros x y Hx Hy. rewrite Z.quot_div_nonneg by lia.
  split; [apply Z.div_pos; lia|]. apply Z.div_le_upper_bound; lia.
Qed.

Ltac range_leaf H Ho :=
  simpl in H; try discriminate H; injection H as <-; cbn [mkResult FinalScore];
  first [exact Ho | apply avg_range; [exact Ho|apply extract_range]].

Lemma analyzePageData_range : forall env a pd src r,
  Z.of_nat (String.length (Content pd)) < 2 ^ 52 ->
  snd (analyzePageData env a pd src) = inl r -> 0 <= FinalScore r <= 100.
Proof.
  intros env a pd src r Hc H. unfold analyzePageData, bind, call_analyze, ret, averaged in H.
  cbv zeta in H. pose proof (overall_range (Content pd) pd Hc) as Ho. revert H Ho.
  generalize (Scorer.AnalyzeContent (Content pd) pd) as ls. intros ls H Ho.
  destruct (String.eqb (cfgMode a) "local"); [destruct (_ && _); range_leaf H Ho|].
  destruct (String.eqb (cfgMode a) "llm").
  - destruct (initError a); [simpl in H; discriminate H|].
    destruct (provider a) as [p|]; [|simpl in H; discriminate H].
    destruct (Analyze p (Content pd) GeoPrompt) as [resp|err]; [|range_leaf H Ho].
    destruct (0 <? Extract.extractScoreFromLLMResponse (RContent resp)); range_leaf H Ho.
  - destruct (String.eqb (cfgMode a) "hybrid"); [|range_leaf H Ho].
    destruct (provider a) as [p|]; [|range_leaf H Ho].
    destruct (Analyze p (Content pd) (HybridPrompt ls)) as [resp|err]; [|range_leaf H Ho].
    destruct (0 <? Extract.extractScoreFromLLMResponse (RContent resp)); range_leaf H Ho.
Qed.

End RangeFacts.

Module SummaryFacts.
Import Summary.

Section Tally.
Context {A : Type} (err : A -> string) (res : A -> option Result).

Lemma tally_unfold : forall l, tally err res l = fold_left (Views.tally_step err res) l (0, 0, 0).
Proof. reflexivity. Qed.

Lemma fold_counts : forall l s0 e0 t0,
  (forall x, In x l -> err x <> "" \/ res x <> None) ->
  let '(s, e, t) := fold_left (Views.tally_step err res) l (s0, e0, t0) in
  s + e = s0 + e0 + Z.of_nat (length l).
Proof.
  induction l as [|x l IH]; intros s0 e0 t0 H.
  - cbn. lia.
  - cbn [fold_left]. unfold Views.tally_step at 2.
    destruct (String.eqb_spec (err x) "") as [E|E]; cbn [negb].
    + destruct (res x) as [r|] eqn:Er.
      * specialize (IH (s0 + 1) e0 (t0 + FinalScore r) (fun y Hy => H y (or_intror Hy))).
        destruct (fold_left _ _ _) as [[s e] t]. cbn [length]. lia.
      * exfalso. destruct (H x (or_introl eq_refl)); contradiction.
    + specialize (IH s0 (e0 + 1) t0 (fun y Hy => H y (or_intror Hy))).
      destruct (fold_left _ _ _) as [[s e] t]. cbn [length]. lia.
Qed.

Lemma fold_scores : forall l s0 e0 t0,
  (forall x r, In x l -> err x = "" -> res x = Some r -> 0 <= FinalScore r <= 100) ->
  0 <= t0 <= 100 * s0 ->
  let '(s, e, t) := fold_left (Views.tally_step err res) l (s0, e0, t0) in 0 <= t <= 100 * s.
Proof.
  induction l as [|x l IH]; intros s0 e0 t0 H Ht.
  - exact Ht.
  - cbn [fold_left]. unfold Views.tally_step at 2.
    destruct (String.eqb_spec (err x) "") as [E|E]; cbn [negb].
    + destruct (res x) as [r|] eqn:Er.
      * pose proof (H x r (or_introl eq_refl) E Er).
        apply IH; [intros y r' Hy; apply H; right; exact Hy|lia].
      * apply IH; [intros y r' Hy; apply H; right; exact Hy|lia].
    + apply IH; [intros y r' Hy; apply H; right; exact Hy|lia].
Qed.

Lemma tally_counts : forall l,
  (forall x, In x l -> err x <> "" \/ res x <> None) ->
  let '(s, e, t) := tally err res l in s + e = Z.of_nat (length l).
Proof.
  intros l H. rewrite tally_unfold. pose proof (fold_counts l 0 0 0 H) as K.
  destruct (fold_left _ _ _) as [[s e] t]. lia.
Qed.

Lemma tally_avg : forall l,
  (forall x r, In x l -> err x = "" -> res x = Some r -> 0 <= FinalScore r <= 100) ->
  let '(s, e, t) := tally err res l in
  forall v, avgScore s t = Some v -> 0 <= v <= 100.
Proof.
  intros l H. rewrite tally_unfold. pose proof (fold_scores l 0 0 0 H ltac:(lia)) as K.
  destruct (fold_left _ _ _) as [[s e] t]. intros v Hv. unfold avgScore in Hv.
  destruct (Z.ltb_spec 0 s); [|discriminate Hv]. injection Hv as <-.
  rewrite Z.quot_div_nonneg by lia. split; [apply Z.div_pos; lia|].
  apply Z.div_le_upper_bound; lia.
Qed.

End Tally.
End SummaryFacts.

Module RunSummaryFacts.

Lemma AnalyzeURL_inl : forall env scrape a u r, snd (AnalyzeURL env scrape a u) = inl r ->
  exists pd, scrape u = inl pd /\ snd (analyzePageData env a pd u) = inl r.
Proof.
  intros env scrape a u r. unfold AnalyzeURL.
  destruct (scrape u) as [pd|err]; [|discriminate].
  destruct (all_space (Content pd)); [discriminate|]. intros H; exists pd; split; [reflexivity|exact H].
Qed.

Lemma mapM_snd : forall {A B} (f : A -> M B) l, snd (Scanner.mapM f l) = map (fun x => snd (f x)) l.
Proof.
  intros A B f l. induction l as [|x l IH]; [reflexivity|].
  cbn [Scanner.mapM map]. unfold bind, ret.
  destruct (f x) as [t1 y]. destruct (Scanner.mapM f l) as [t2 ys]. cbn in IH |- *. rewrite IH.
  reflexivity.
Qed.

Lemma scanFile_cases : forall env a readFile f,
  let sr := snd (Scanner.scanFile env a readFile f) in
  (Scanner.SError sr <> "" \/ Scanner.SResult sr <> None) /\
  (forall r, Scanner.SError sr = "" -> Scanner.SResult sr = Some r ->
     exists data, readFile f = inl data /\
       snd (AnalyzerMsg.AnalyzeContent env a (Scanner.extractTextFromHTML data)
              (Scanner.extractTitleFromPath f)) = inl r).
Proof.
  intros env a readFile f. unfold Scanner.scanFile, Scanner.readHTMLFile, bind, ret.
  destruct (readFile f) as [data|err]; cbn [snd Scanner.SError Scanner.SResult].
  - destruct (AnalyzerMsg.AnalyzeContent _ _ _ _) as [t [r|e]] eqn:E;
      cbn [snd Scanner.SError Scanner.SResult].
    + split; [right; discriminate|]. intros r' _ Hr. injection Hr as <-. exists data.
      split; [reflexivity|]. rewrite E. reflexivity.
    + split; [left; discriminate|]. intros r' Hf. discriminate Hf.
  - split; [left; discriminate|]. intros r' Hf. discriminate Hf.
Qed.

End RunSummaryFacts.

(** X21: formatSuccessMessage never panics on a result that analyzePageData, AnalyzeURL or
    AnalyzeContent returns: whenever the scoring method is an averaged one, the metadata holds the
    int values local_score and llm_score that its type assertions need. *)
Theorem formatSuccessMessage_no_panic : forall env a r,
  ((exists pd src, snd (analyzePageData env a pd src) = inl r) \/
   (exists scrape url, snd (AnalyzeURL env scrape a url) = inl r) \/
   (exists content title, snd (AnalyzerMsg.AnalyzeContent env a content title) = inl r)) ->
  AnalyzerMsg.formatSuccessMessage r <> None.
Proof.
  intros env a r [[pd [src H]]|[[scrape [url H]]|[content [title H]]]].
  - exact (MsgFacts.analyzePageData_msg env a pd src r H).
  - destruct (RunSummaryFacts.AnalyzeURL_inl env scrape a url r H) as [pd [_ H']].
    exact (MsgFacts.analyzePageData_msg env a pd url r H').
  - exact (MsgFacts.analyzePageData_msg env a _ title r H).
Qed.

Lemma formatSuccessMessage_no_panic_witness :
  exists r, snd (analyzePageData empty_env Samples.local_analyzer hello_page "page.html") = inl r /\
            AnalyzerMsg.formatSuccessMessage r <> None.
Proof.
  destruct (snd (analyzePageData empty_env Samples.local_analyzer hello_page "page.html"))
    as [r|e] eqn:E.
  - exists r. split; [reflexivity|].
    apply (formatSuccessMessage_no_panic empty_env Samples.local_analyzer r).
    left. exists hello_page, "page.html". exact E.
  - exfalso. vm_compute in E. discriminate E.
Defined.

(** X22: For content shorter than 2^52 bytes, the final score of every result analyzePageData
    returns lies in 0..100, in every mode, also when the LLM score is averaged in. *)
Theorem analyzePageData_score_range : forall env a pd src r,
  Z.of_nat (String.length (Content pd)) < 2 ^ 52 ->
  snd (analyzePageData env a pd src) = inl r -> 0 <= FinalScore r <= 100.
Proof. exact RangeFacts.analyzePageData_range. Qed.

Lemma analyzePageData_score_range_witness :
  Z.of_nat (String.length (Content hello_page)) < 2 ^ 52 /\
  exists r, snd (analyzePageData empty_env Samples.local_analyzer hello_page "page.html") = inl r /\
            0 <= FinalScore r <= 100.
Proof.
  assert (L : Z.of_nat (String.length (Content hello_page)) < 2 ^ 52) by (vm_compute; reflexivity).
  split; [exact L|].
  destruct (snd (analyzePageData empty_env Samples.local_analyzer hello_page "page.html"))
    as [r|e] eqn:E.
  - exists r. split; [reflexivity|].
    exact (analyzePageData_score_range empty_env Samples.local_analyzer hello_page "page.html" r L E).
  - exfalso. vm_compute in E. discriminate E.
Defined.

(** X23: In the bulk text report, successes plus errors equal the number of URLs, and when every
    scraped page is shorter than 2^52 bytes the average score it prints lies in 0..100. *)
Theorem bulk_summary_counts : forall env cfg scrape np urls,
  let results := map (fun u => Bulk.mkBulk u (snd (AnalyzeURL env scrape (New env np cfg) u))) urls in
  let '(s, e, t) := Summary.bulkTally results in
  s + e = Z.of_nat (length urls) /\
  ((forall u pd, scrape u = inl pd -> Z.of_nat (String.length (Content pd)) < 2 ^ 52) ->
   forall v, Summary.avgScore s t = Some v -> 0 <= v <= 100).
Proof.
  intros env cfg scrape np urls results.
  pose proof (SummaryFacts.tally_counts Bulk.BError Bulk.BResult results) as Hc.
  pose proof (SummaryFacts.tally_avg Bulk.BError Bulk.BResult results) as Ha.
  unfold Summary.bulkTally. destruct (Summary.tally _ _ _) as [[s e] t].
  split.
  - unfold results in Hc |- *.
    rewrite <- (length_map (fun u => Bulk.mkBulk u (snd (AnalyzeURL env scrape (New env np cfg) u)))).
    apply Hc. intros x Hx. apply in_map_iff in Hx. destruct Hx as [u [<- _]].
    destruct (snd (AnalyzeURL env scrape (New env np cfg) u)) as [r|err] eqn:E; cbn.
    + right; discriminate.
    + left. apply (BulkFacts.Outcome_err env cfg u err). exists scrape, np. symmetry; exact E.
  - intros Hs. apply Ha. intros x r Hx _ Hr. unfold results in Hx.
    apply in_map_iff in Hx. destruct Hx as [u [<- _]].
    destruct (snd (AnalyzeURL env scrape (New env np cfg) u)) as [r'|err] eqn:E; cbn in Hr;
      [|discriminate Hr]. injection Hr as <-.
    destruct (RunSummaryFacts.AnalyzeURL_inl _ _ _ _ _ E) as [pd [Hp Hr]].
    exact (RangeFacts.analyzePageData_range _ _ pd u r' (Hs u pd Hp) Hr).
Qed.

(** X24: ScanDirectory returns one result per walked file that shouldScanFile accepts; in the
    scan text report successes plus errors equal the number of results, and when every extracted
    text is shorter than 2^52 bytes the average score lies in 0..100. *)
Theorem scan_summary_counts : forall env a exts walk readFile dir files results,
  walk dir = inl files ->
  snd (Scanner.ScanDirectory env a exts walk readFile dir) = inl results ->
  length results = length (filter (Scanner.shouldScanFile exts) files) /\
  let '(s, e, t) := Summary.scanTally results in
  s + e = Z.of_nat (length results) /\
  ((forall f data, readFile f = inl data ->
      Z.of_nat (String.length (Scanner.extractTextFromHTML data)) < 2 ^ 52) ->
   forall v, Summary.avgScore s t = Some v -> 0 <= v <= 100).
Proof.
  intros env a exts walk readFile dir files results Hw H.
  unfold Scanner.ScanDirectory in H. rewrite Hw in H. unfold bind, ret in H.
  destruct (Scanner.mapM _ _) as [t0 rs] eqn:Em. cbn [snd] in H. injection H as <-.
  pose proof (RunSummaryFacts.mapM_snd (Scanner.scanFile env a readFile)
                (filter (Scanner.shouldScanFile exts) files)) as Hm.
  rewrite Em in Hm. cbn [snd] in Hm. subst rs.
  split; [apply length_map|].
  pose proof (SummaryFacts.tally_counts Scanner.SError Scanner.SResult
    (map (fun x => snd (Scanner.scanFile env a readFile x)) (filter (Scanner.shouldScanFile exts) files)))
    as Hc.
  pose proof (SummaryFacts.tally_avg Scanner.SError Scanner.SResult
    (map (fun x => snd (Scanner.scanFile env a readFile x)) (filter (Scanner.shouldScanFile exts) files)))
    as Ha.
  unfold Summary.scanTally. destruct (Summary.tally _ _ _) as [[s e] t].
  split.
  - apply Hc. intros x Hx. apply in_map_iff in Hx. destruct Hx as [f [<- _]].
    apply (RunSummaryFacts.scanFile_cases env a readFile f).
  - intros Hs. apply Ha. intros x r Hx He Hr. apply in_map_iff in Hx. destruct Hx as [f [<- _]].
    destruct (proj2 (RunSummaryFacts.scanFile_cases env a readFile f) r He Hr) as [data [Hd Hr']].
    unfold AnalyzerMsg.AnalyzeContent in Hr'.
    exact (RangeFacts.analyzePageData_range _ _ _ _ r (Hs f data Hd : Z.of_nat (String.length (Content {| Title := Scanner.extractTitleFromPath f; Content := Scanner.extractTextFromHTML data; MetaTags := []; Headings := [] |})) < 2 ^ 52) Hr').
Qed.

Lemma scan_summary_counts_witness :
  exists results,
    snd (Scanner.ScanDirectory empty_env Samples.local_analyzer [".html"] Samples.two_files
           Samples.small_html "site") = inl results /\
    length results = 1%nat.
Proof.
  destruct (snd (Scanner.ScanDirectory empty_env Samples.local_analyzer [".html"] Samples.two_files
                   Samples.small_html "site")) as [results|e] eqn:E.
  - exists results. split; [reflexivity|].
    rewrite (proj1 (scan_summary_counts empty_env Samples.local_analyzer [".html"] Samples.two_files
                      Samples.small_html "site" _ results eq_refl E)).
    vm_compute. reflexivity.
  - exfalso. vm_compute in E. discriminate E.
Defined.


(* ------------------------------------------------------------------ *)

Module TextFacts.
Import Views.


Lemma chars_app : forall s t, chars (s ++ t) = (chars s ++ chars t)%list.
Proof. induction s as [|a s IH]; intros t; cbn; [reflexivity|]. unfold chars in IH. rewrite IH. reflexivity. Qed.

Lemma byte_range : forall c, 0 <= byte c < 256.
Proof.
  intros c. unfold byte. pose proof (Ascii.nat_ascii_bounded c). lia.
Qed.

Lemma byte_at_range : forall s i, 0 <= UTF8.byte_at s i < 256.
Proof.
  intros s i. unfold UTF8.byte_at. destruct (get i s); [apply byte_range|lia].
Qed.

Lemma lor_lt : forall a b n, 0 <= a < 2 ^ n -> 0 <= b < 2 ^ n -> 0 <= Z.lor a b < 2 ^ n.
Proof.
  intros a b n Ha Hb. split; [apply Z.lor_nonneg; lia|].
  destruct (Z.eq_dec (Z.lor a b) 0) as [E|E]; [rewrite E; lia|].
  assert (Hn : 0 <= n).
  { destruct (Z.neg_nonneg_cases n) as [Hn|Hn]; [|exact Hn].
    rewrite Z.pow_neg_r in Ha by exact Hn. lia. }
  assert (Hn' : 0 < n).
  { destruct (Z.eq_dec n 0) as [->|]; [|lia]. cbn in Ha, Hb.
    replace a with 0 in E by lia. replace b with 0 in E by lia. contradiction. }
  apply Z.log2_lt_pow2; [pose proof (Z.lor_nonneg a b); lia|].
  rewrite Z.log2_lor by lia. apply Z.max_lub_lt.
  - destruct (Z.eq_dec a 0) as [->|Ea]; [cbn; lia|]. apply Z.log2_lt_pow2; lia.
  - destruct (Z.eq_dec b 0) as [->|Eb]; [cbn; lia|]. apply Z.log2_lt_pow2; lia.
Qed.

Lemma land_low : forall a k, 0 <= k -> 0 <= Z.land a (Z.ones k) < 2 ^ k.
Proof.
  intros a k Hk. rewrite Z.land_ones by exact Hk. apply Z.mod_pos_bound. lia.
Qed.

Lemma shiftl_lt : forall a k n, 0 <= k -> 0 <= a < 2 ^ n -> 0 <= Z.shiftl a k < 2 ^ (n + k).
Proof.
  intros a k n Hk Ha.
  assert (0 <= n) by (destruct (Z.neg_nonneg_cases n) as [Hn|Hn];
                       [rewrite Z.pow_neg_r in Ha by exact Hn; lia|exact Hn]).
  rewrite Z.shiftl_mul_pow2 by exact Hk. rewrite Z.pow_add_r by lia.
  assert (0 < 2 ^ k) by (apply Z.pow_pos_nonneg; lia).
  nia.
Qed.

Lemma decode_range : forall s, 0 <= fst (UTF8.DecodeRuneInString s) < 2 ^ 21.
Proof.
  intros s. unfold UTF8.DecodeRuneInString.
  pose proof (byte_at_range s 0) as B0. pose proof (byte_at_range s 1) as B1.
  pose proof (byte_at_range s 2) as B2. pose proof (byte_at_range s 3) as B3.
  set (s0 := UTF8.byte_at s 0) in *. set (s1 := UTF8.byte_at s 1) in *.
  set (s2 := UTF8.byte_at s 2) in *. set (s3 := UTF8.byte_at s 3) in *.
  change 31 with (Z.ones 5). change 63 with (Z.ones 6). change 15 with (Z.ones 4).
  change 7 with (Z.ones 3).
  repeat match goal with
  | |- context [if ?x then _ else _] => destruct x
  | |- context [match ?x with _ => _ end] => destruct x as [[[? ?] ?]|]
  end; cbn [fst]; unfold UTF8.RuneError; try lia.
  all: repeat match goal with
  | |- 0 <= Z.lor ?a ?b < 2 ^ 21 => apply (lor_lt a b 21)
  | |- 0 <= Z.shiftl (Z.land ?x (Z.ones ?j)) ?k < 2 ^ 21 =>
      pose proof (shiftl_lt (Z.land x (Z.ones j)) k j ltac:(lia) (land_low x j ltac:(lia)));
      assert (2 ^ (j + k) <= 2 ^ 21) by (apply Z.pow_le_mono_r; lia); lia
  | |- 0 <= Z.land ?x (Z.ones ?j) < 2 ^ 21 =>
      pose proof (land_low x j ltac:(lia));
      assert (2 ^ j <= 2 ^ 21) by (apply Z.pow_le_mono_r; lia); lia
  end.
Qed.

Lemma bytes_chars : forall l c, In c (chars (UTF8.bytes l)) ->
  exists b, In b l /\ c = ascii_of_nat (Z.to_nat b).
Proof.
  induction l as [|b l IH]; intros c H; cbn in H; [destruct H|].
  destruct H as [<-|H]; [exists b; split; [left; reflexivity|reflexivity]|].
  destruct (IH c H) as [b' [Hb' E]]. exists b'. split; [right; exact Hb'|exact E].
Qed.

Lemma byte_char : forall b, 0 <= b < 256 -> b <> 60 -> b <> 62 ->
  ascii_of_nat (Z.to_nat b) <> "<"%char /\ ascii_of_nat (Z.to_nat b) <> ">"%char.
Proof.
  intros b Hb H1 H2.
  assert (E : nat_of_ascii (ascii_of_nat (Z.to_nat b)) = Z.to_nat b)
    by (apply Ascii.nat_ascii_embedding; lia).
  split; intros Hc; rewrite Hc in E; cbn in E; lia.
Qed.

Lemma lor_high_check : forallb (fun y => forallb (fun k => (128 <=? Z.lor k y) && (Z.lor k y <? 256))
  [128; 192; 224; 240]) (upto 256) = true.
Proof. vm_compute. reflexivity. Qed.

Lemma lor_high : forall k y, In k [128; 192; 224; 240] -> 0 <= y < 256 -> 128 <= Z.lor k y < 256.
Proof.
  intros k y Hk Hy. pose proof lor_high_check as C. rewrite forallb_forall in C.
  specialize (C y (ScoreFacts.in_upto 256 y ltac:(lia))). rewrite forallb_forall in C.
  specialize (C k Hk). apply andb_true_iff in C as [C1 C2].
  apply Z.leb_le in C1. apply Z.ltb_lt in C2. lia.
Qed.

Lemma gobyte_range : forall x, 0 <= UTF8.gobyte x < 256.
Proof. intros x. unfold UTF8.gobyte. change 255 with (Z.ones 8). apply land_low. lia. Qed.

Lemma low6_range : forall x, 0 <= Z.land (UTF8.gobyte x) 63 < 256.
Proof.
  intros x. change 63 with (Z.ones 6). pose proof (land_low (UTF8.gobyte x) 6 ltac:(lia)).
  cbn in *. lia.
Qed.

Lemma AppendRune_no_angle : forall r, 0 <= r < 2 ^ 21 -> r <> 60 -> r <> 62 ->
  forall c, In c (chars (UTF8.AppendRune r)) -> c <> "<"%char /\ c <> ">"%char.
Proof.
  intros r Hr H1 H2 c Hc. unfold UTF8.AppendRune in Hc.
  rewrite (Z.mod_small r (2 ^ 32)) in Hc by (split; [lia|]; apply (Z.lt_trans _ (2 ^ 21)); [lia|reflexivity]).
  destruct (Z.leb_spec r 127).
  - apply bytes_chars in Hc. destruct Hc as [b [[<-|[]] ->]].
    assert (E : UTF8.gobyte r = r).
    { unfold UTF8.gobyte. change 255 with (Z.ones 8). rewrite Z.land_ones by lia.
      apply Z.mod_small. cbn. lia. }
    rewrite E. apply byte_char; lia.
  - repeat match type of Hc with
      | context [if ?x then _ else _] => destruct x
      end;
    apply bytes_chars in Hc; destruct Hc as [b [Hb ->]];
    (assert (Hhigh : 128 <= b < 256);
    [ repeat (destruct Hb as [<-|Hb];
              [first [ lia
                     | apply lor_high; [cbn; tauto|first [apply gobyte_range|apply low6_range]]]|]);
      destruct Hb
    | apply byte_char; lia ]).
Qed.

Lemma remove_tags_no_angle : forall fuel html inTag, no_angle (Scanner.remove_tags fuel html inTag).
Proof.
  induction fuel as [|f IH]; intros html inTag c Hc; cbn [Scanner.remove_tags] in Hc;
    [destruct Hc|].
  destruct html as [|a h]; [destruct Hc|].
  pose proof (decode_range (String a h)) as Hr.
  destruct (UTF8.DecodeRuneInString (String a h)) as [r size]. cbn [fst] in Hr.
  destruct (Z.eqb_spec r 60); [exact (IH _ _ c Hc)|].
  destruct (Z.eqb_spec r 62); [exact (IH _ _ c Hc)|].
  destruct (negb inTag); [|exact (IH _ _ c Hc)].
  unfold chars in Hc. rewrite chars_app in Hc. apply in_app_or in Hc. destruct Hc as [Hc|Hc].
  - exact (AppendRune_no_angle r Hr n n0 c Hc).
  - exact (IH _ _ c Hc).
Qed.

Lemma prefix_sub : forall m s, sub_chars (substring 0 m s) s.
Proof.
  intros m s. revert m. induction s as [|a s IH]; intros m c Hc.
  - destruct m; destruct Hc.
  - destruct m as [|m]; [destruct Hc|]. cbn in Hc |- *.
    destruct Hc as [<-|Hc]; [left; reflexivity|right; exact (IH m c Hc)].
Qed.

Lemma substring_sub : forall n m s, sub_chars (substring n m s) s.
Proof.
  induction n as [|n IH]; intros m s c Hc; [exact (prefix_sub m s c Hc)|].
  destruct s as [|a s]; [destruct m; destruct Hc|]. cbn in Hc |- *. right. exact (IH m s c Hc).
Qed.

Lemma sub_trans : forall a b c, sub_chars a b -> sub_chars b c -> sub_chars a c.
Proof. intros a b c H1 H2 x Hx. exact (H2 x (H1 x Hx)). Qed.

Lemma empty_sub : forall s, sub_chars "" s.
Proof. intros s c []. Qed.

Lemma TrimLeftSpace_sub : forall s, sub_chars (UTF8.TrimLeftSpace s) s.
Proof.
  intros s. unfold UTF8.TrimLeftSpace. destruct (UTF8.index_nonspace _ _ _);
    [apply substring_sub|apply empty_sub].
Qed.

Lemma TrimRightSpace_sub : forall s, sub_chars (UTF8.TrimRightSpace s) s.
Proof.
  intros s. unfold UTF8.TrimRightSpace. destruct (UTF8.last_nonspace _ _ _); apply substring_sub.
Qed.

Lemma TrimFuncSpace_sub : forall s, sub_chars (UTF8.TrimFuncSpace s) s.
Proof.
  intros s. unfold UTF8.TrimFuncSpace. eapply sub_trans; [apply TrimRightSpace_sub|apply TrimLeftSpace_sub].
Qed.

Lemma ts_left_sub : forall fuel s start t, UTF8.ts_left fuel s start = inr t -> sub_chars t s.
Proof.
  induction fuel as [|f IH]; intros s start t H; cbn [UTF8.ts_left] in H; [discriminate H|].
  destruct (_ <=? _)%nat; [discriminate H|].
  destruct (128 <=? _).
  - injection H as <-. eapply sub_trans; [apply TrimFuncSpace_sub|apply substring_sub].
  - destruct (UTF8.IsSpace _); [exact (IH _ _ _ H)|discriminate H].
Qed.

Lemma ts_right_sub : forall fuel s start stop, sub_chars (UTF8.ts_right fuel s start stop) s.
Proof.
  induction fuel as [|f IH]; intros s start stop; cbn [UTF8.ts_right]; [apply substring_sub|].
  destruct (_ <=? _)%nat; [apply substring_sub|].
  destruct (128 <=? _).
  - eapply sub_trans; [apply TrimRightSpace_sub|apply substring_sub].
  - destruct (UTF8.IsSpace _); [apply IH|apply substring_sub].
Qed.

Lemma TrimSpace_sub : forall s, sub_chars (UTF8.TrimSpace s) s.
Proof.
  intros s. unfold UTF8.TrimSpace. destruct (UTF8.ts_left _ _ _) as [start|t] eqn:E.
  - apply ts_right_sub.
  - exact (ts_left_sub _ _ _ _ E).
Qed.

Lemma split_sub : forall fuel sep s p, In p (split_fuel fuel sep s) -> sub_chars p s.
Proof.
  induction fuel as [|f IH]; intros sep s p H; cbn [split_fuel] in H.
  - destruct H as [<-|[]]. intros c Hc; exact Hc.
  - destruct (index 0 sep s); [|destruct H as [<-|[]]; intros c Hc; exact Hc].
    destruct H as [<-|H]; [apply substring_sub|].
    eapply sub_trans; [exact (IH _ _ _ H)|apply substring_sub].
Qed.

Lemma concat_chars : forall sep l c, In c (chars (String.concat sep l)) ->
  In c (chars sep) \/ exists p, In p l /\ In c (chars p).
Proof.
  intros sep l c. induction l as [|x l IH]; cbn [String.concat]; intros H; [destruct H|].
  destruct l as [|y l].
  - right. exists x. split; [left; reflexivity|exact H].
  - unfold chars in H. rewrite !chars_app in H. apply in_app_or in H. destruct H as [H|H].
    + right. exists x. split; [left; reflexivity|exact H].
    + apply in_app_or in H. destruct H as [H|H]; [left; exact H|].
      destruct (IH H) as [K|[p [Hp K]]]; [left; exact K|right; exists p; split; [right; exact Hp|exact K]].
Qed.

Lemma extract_no_angle : forall html, no_angle (Scanner.extractTextFromHTML html).
Proof.
  intros html c Hc. unfold Scanner.extractTextFromHTML in Hc.
  apply concat_chars in Hc. destruct Hc as [Hc|[p [Hp Hc]]].
  - cbn in Hc. destruct Hc as [<-|[]]. split; discriminate.
  - apply filter_In in Hp. destruct Hp as [Hp _]. apply in_map_iff in Hp.
    destruct Hp as [line [<- Hl]]. apply TrimSpace_sub in Hc.
    unfold GoStrings.Split in Hl. apply split_sub in Hl. apply Hl in Hc.
    unfold Scanner.removeTags in Hc. exact (remove_tags_no_angle _ _ _ c Hc).
Qed.


End TextFacts.

Module PathFacts.

Lemma substring_length : forall s n m, (n + m <= String.length s)%nat ->
  String.length (substring n m s) = m.
Proof.
  induction s as [|a s IH]; intros n m H.
  - cbn in H. assert (n = 0%nat) by lia. assert (m = 0%nat) by lia. subst. reflexivity.
  - destruct n as [|n].
    + destruct m as [|m]; [reflexivity|]. cbn in H |- *. f_equal. apply IH. lia.
    + cbn in H |- *. apply IH. lia.
Qed.

Lemma substring_split : forall s k, (k <= String.length s)%nat ->
  substring 0 k s ++ substring k (String.length s - k) s = s.
Proof.
  induction s as [|a s IH]; intros k H.
  - destruct k; reflexivity.
  - destruct k as [|k].
    + cbn. f_equal. clear. induction s as [|b s IH]; [reflexivity|]. cbn. f_equal. exact IH.
    + cbn in H |- *. f_equal. apply IH. lia.
Qed.

Lemma substring_full : forall s, substring 0 (String.length s) s = s.
Proof.
  induction s as [|a s IH]; [reflexivity|]. cbn. f_equal. exact IH.
Qed.

Lemma get_suffix : forall s i c, get i s = Some c ->
  UTF8.suffix_from s i = String c (UTF8.suffix_from s (S i)).
Proof.
  induction s as [|a s IH]; intros i c H; [destruct i; discriminate H|].
  destruct i as [|i].
  - cbn in H. injection H as <-. unfold UTF8.suffix_from. cbn. rewrite Nat.sub_0_r. reflexivity.
  - cbn in H. unfold UTF8.suffix_from in *. cbn. apply IH. exact H.
Qed.

Lemma get_lt : forall s i, (i < String.length s)%nat -> exists c, get i s = Some c.
Proof.
  induction s as [|a s IH]; intros i H; [cbn in H; lia|].
  destruct i as [|i]; [exists a; reflexivity|]. cbn in H |- *. apply IH. lia.
Qed.

Lemma ext_loop_shape : forall fuel path i,
  i < Z.of_nat (String.length path) ->
  Scanner.ext_loop fuel path i = "" \/
  exists k, (k < String.length path)%nat /\ get k path = Some "."%char /\
            Scanner.ext_loop fuel path i = UTF8.suffix_from path k.
Proof.
  induction fuel as [|f IH]; intros path i Hi; cbn [Scanner.ext_loop]; [left; reflexivity|].
  destruct (Z.leb_spec 0 i); cbn [andb]; [|left; reflexivity].
  destruct (negb _); [|left; reflexivity].
  destruct (Ascii.eqb_spec (Scanner.char_at path i) ".") as [E|E]; [|apply IH; lia].
  right. exists (Z.to_nat i). split; [lia|]. split; [|reflexivity].
  unfold Scanner.char_at in E. destruct (get_lt path (Z.to_nat i) ltac:(lia)) as [c G].
  rewrite G in E |- *. congruence.
Qed.

Lemma substring_zero : forall s n, substring n 0 s = "".
Proof. induction s as [|a s IH]; intros [|n]; cbn; try reflexivity. apply IH. Qed.

Lemma append_empty : forall s, s ++ "" = s.
Proof. induction s as [|a s IH]; [reflexivity|]. cbn. f_equal. exact IH. Qed.

Lemma Ext_shape : forall path,
  Scanner.Ext path = "" \/
  exists k, (k < String.length path)%nat /\ get k path = Some "."%char /\
            Scanner.Ext path = UTF8.suffix_from path k.
Proof. intros path. unfold Scanner.Ext. apply ext_loop_shape. lia. Qed.

Lemma trim_ext : forall b, Scanner.TrimSuffix b (Scanner.Ext b) ++ Scanner.Ext b = b.
Proof.
  intros b. destruct (Ext_shape b) as [E|[k [Hk [_ E]]]]; rewrite E; unfold Scanner.TrimSuffix, HasSuffix.
  - cbn [String.length]. rewrite Nat.sub_0_r, substring_zero.
    replace ((0 <=? String.length b)%nat) with true by (symmetry; apply Nat.leb_le; lia).
    cbn. rewrite substring_full. apply append_empty.
  - unfold UTF8.suffix_from. rewrite substring_length by lia.
    replace (String.length b - (String.length b - k))%nat with k by lia.
    rewrite (proj2 (Nat.leb_le _ _)) by lia. rewrite String.eqb_refl. cbn [andb].
    apply substring_split. lia.
Qed.


End PathFacts.

(** X25: The text extractTextFromHTML returns never contains a < or > character. *)
Theorem extractTextFromHTML_no_angle_brackets : forall html c,
  In c (list_ascii_of_string (Scanner.extractTextFromHTML html)) -> c <> "<"%char /\ c <> ">"%char.
Proof. exact TextFacts.extract_no_angle. Qed.

Lemma extractTextFromHTML_no_angle_brackets_witness :
  In "H"%char (list_ascii_of_string (Scanner.extractTextFromHTML "<b>Hi</b>")) /\
  "H"%char <> "<"%char.
Proof.
  assert (Hin : In "H"%char (list_ascii_of_string (Scanner.extractTextFromHTML "<b>Hi</b>")))
    by (vm_compute; left; reflexivity).
  split; [exact Hin|exact (proj1 (extractTextFromHTML_no_angle_brackets _ _ Hin))].
Defined.

(** X26: The title extractTitleFromPath gives is the base name of the path with its extension
    cut off: appending the extension gives back the base name, and the extension is empty or starts
    with a dot. *)
Theorem extractTitleFromPath_strips_ext : forall p,
  Scanner.extractTitleFromPath p ++ Scanner.Ext (Scanner.Base p) = Scanner.Base p /\
  (Scanner.Ext (Scanner.Base p) = "" \/ exists rest, Scanner.Ext (Scanner.Base p) = String "." rest).
Proof.
  intros p. split; [apply PathFacts.trim_ext|].
  destruct (PathFacts.Ext_shape (Scanner.Base p)) as [E|[k [_ [G E]]]]; [left; exact E|].
  right. rewrite E, (PathFacts.get_suffix _ _ _ G). eexists; reflexivity.
Qed.

(** X27: generateInsights lists as strengths all positives of the five dimensions in order, as
    weaknesses the issues of the dimensions below 50 percent, and as suggestions all issues followed
    by one general advice for an overall score below 60 or below 80. *)
Theorem generateInsights_lists : forall overall b,
  let ds := [Scorer.ContentStructure b; Scorer.SemanticClarity b; Scorer.ContextRichness b;
             Scorer.AuthoritySignals b; Scorer.Accessibility b] in
  let '(sugg, str, weak) := Scorer.generateInsights overall b in
  str = flat_map Scorer.Positives ds /\
  weak = flat_map Scorer.Issues (filter (fun d => PrimFloat.ltb (Scorer.Percentage d) 50%float) ds) /\
  sugg = (flat_map Scorer.Issues ds ++
          (if overall <? 60 then ["Consider comprehensive content restructuring for better GEO optimization"]
           else if overall <? 80 then ["Focus on improving the lowest-scoring areas identified above"]
           else []))%list.
Proof.
  intros overall b ds. unfold Scorer.generateInsights, ds. cbn [fold_left app filter].
  repeat match goal with |- context [if PrimFloat.ltb ?x ?y then _ else _] => destruct (PrimFloat.ltb x y) end;
  cbn [filter flat_map]; rewrite ?app_nil_r, <- ?app_assoc;
  (split; [reflexivity|]); (split; [rewrite ?app_nil_r, <- ?app_assoc; reflexivity|]);
  (destruct (overall <? 60); [rewrite <- ?app_assoc; reflexivity|
   destruct (overall <? 80); rewrite ?app_nil_r, <- ?app_assoc; reflexivity]).
Qed.
